(** * BehaviorBuilder: the graph builder of [BehaviorBuilder.py]

    A shallow embedding of the builder API of [BehaviorFile] and of the
    wrapper classes it instantiates, with the properties of its tag
    allocator, event tables, state list and finalize step.

    Python keeps two kinds of attributes apart, and so does this model:
    attributes that live on a class object and are only ever mutated in
    place (the [ET.Element] tree [BehaviorFile.data], and the lists
    [BehaviorFile.list_of_states],
    [hkbBehaviorGraphStringData.event_name_list] and
    [hkbStateMachine.list_of_states]) are fields of [Process]; attributes
    that are rebound through [self] ([object_counter], [nStates],
    [wildcardtransitions], ...) are fields of the instance record. *)

From Stdlib Require Import String Ascii Decimal DecimalString DecimalNat ZArith Lia.
From Stdlib Require Import Floats.SpecFloat.
From stdpp Require Import base list.

Local Open Scope string_scope.
Local Open Scope list_scope.

(** ** Number formatting *)

(** [str(n)] for a non-negative [int]. *)
Definition str (n : nat) : string := NilEmpty.string_of_uint (Nat.to_uint n).

Fixpoint zeros (k : nat) : string :=
  match k with
  | O => EmptyString
  | S k' => String "0" (zeros k')
  end.

(** ["{:04d}".format(n)] for a non-negative [int]: zero-padded to a width
    of four, longer numerals unchanged. *)
Definition format_04d (n : nat) : string :=
  zeros (4 - String.length (str n)) ++ str n.

(** ["#{:04d}".format(n)] *)
Definition format_tag (n : nat) : string := String "#" (format_04d n).

(** Reading a tag back, used to show that [format_tag] is injective. *)
Definition parse_tag (s : string) : option nat :=
  match s with
  | String "#" rest =>
      match NilEmpty.uint_of_string rest with
      | Some d => Some (Nat.of_uint d)
      | None => None
      end
  | _ => None
  end.

Lemma uint_of_string_zeros (k : nat) (s : string) (d : uint) :
  NilEmpty.uint_of_string s = Some d ->
  exists d', NilEmpty.uint_of_string (zeros k ++ s) = Some d'
             /\ Nat.of_uint d' = Nat.of_uint d.
Proof.
  intros Hs. induction k as [|k IH]; simpl.
  - exists d. split; [exact Hs | reflexivity].
  - destruct IH as (d' & Hd' & Hv). rewrite Hd'. simpl.
    exists (D0 d'). split; [reflexivity|].
    rewrite <- Hv. reflexivity.
Qed.

Lemma parse_format_tag (n : nat) : parse_tag (format_tag n) = Some n.
Proof.
  unfold format_tag, parse_tag, format_04d, str.
  destruct (uint_of_string_zeros
              (4 - String.length (NilEmpty.string_of_uint (Nat.to_uint n)))
              (NilEmpty.string_of_uint (Nat.to_uint n)) (Nat.to_uint n)
              (NilEmpty.usu _)) as (d' & Hd' & Hv).
  rewrite Hd', Hv. f_equal. apply DecimalNat.Unsigned.of_to.
Qed.

Lemma format_tag_inj (n m : nat) : format_tag n = format_tag m -> n = m.
Proof.
  intros H. apply (f_equal parse_tag) in H.
  rewrite !parse_format_tag in H. congruence.
Qed.

Lemma format_tag_not_null (n : nat) : format_tag n <> "null".
Proof. unfold format_tag. discriminate. Qed.

Example format_tag_52 : format_tag 52 = "#0052".
Proof. reflexivity. Qed.

Example format_tag_wide : format_tag (100 * 100) = "#10000".
Proof. reflexivity. Qed.

(** ** Python values and the object store *)

Inductive exn :=
| AssertionError | TypeError | UnboundLocalError | AttributeError
| RecursionError | OverflowError | ValueError | OSError.

Inductive Result (A : Type) :=
| Ok (a : A)
| Raise (e : exn).
Arguments Ok {A} a.
Arguments Raise {A} e.

(** [localTime] is an [int] or a [float]. *)
Inductive PyNum :=
| PyInt (z : Z)
| PyFloat (f : spec_float).

(** [float(x)]: a [float] is returned as it is; an [int] is rounded to the
    nearest double, ties to even, and the call raises [OverflowError]
    ([None]) when that is no finite double. *)
Definition to_float (x : PyNum) : option spec_float :=
  match x with
  | PyFloat f => Some f
  | PyInt z =>
      match binary_normalize 53%Z 1024%Z z 0%Z false with
      | S754_infinity _ => None
      | f => Some f
      end
  end.

(** The [enterNotifyEvents] / [exitNotifyEvents] argument of [add_state]:
    a [str] (the default is the string ["null"]) or a [list] of [str]. *)
Inductive NotifyArg :=
| NStr (s : string)
| NList (l : list string).

(** A reference to a wrapper object.  Every wrapper class appends exactly
    one [hkobject] element to [BehaviorFile.data] in its constructor and
    nothing is ever removed, so a wrapper is identified with the position
    of its element; the instance attributes of the wrapper are kept with
    the element. *)
Abbreviation ref := nat (only parsing).

(** One entry of a [transitions] array, as built by [add_transition]. *)
Record Transition := {
  t_transition : string;
  t_condition : string;
  t_eventId : nat;
  t_toStateId : nat;
  t_flags : string }.

(** One entry of a [triggers] array, as built by [add_trigger].
    [tr_localTime] is the double whose rendering with six decimals is the
    text of the [localTime] parameter. *)
Record Trigger := {
  tr_localTime : spec_float;
  tr_eventId : nat;
  tr_relativeToEndOfClip : bool }.

(** A child of a [triggers] array: an entry with all its parameters, or
    the element [add_trigger] had appended when it raised, which has a
    [localTime] parameter without text and nothing else. *)
Inductive TriggerObj :=
| Finished (t : Trigger)
| Unfinished.

(** The fields of each class that depend on the arguments or change over
    time.  A [numelements] attribute is always written as [str] of the
    counter next to it, so the counter stands for both; the children of
    the element are the list.  Fields holding ["null"] or a tag are
    strings, as in the document; the two references of a behavior graph
    are written after the element is in the document, and are [None]
    until then. *)
Inductive Body :=
| StringData (nEvents : nat) (eventNames : list string)
| VariableValueSet
| GraphData (nEvents : nat) (eventInfos : list Z)
            (variableInitialValues stringData : string)
| BlendingTransitionEffect (userData : string)
| TransitionInfoArray (numTransitions : nat) (transitions : list Transition)
| ClipGenerator (name animationName triggers : string) (looping : bool)
| GamebryoSequenceGenerator (nifAnimName : string)
| StateInfo (enterNotifyEvents exitNotifyEvents transitions generator
             name : string) (stateIdx : nat) (hkbClipTriggerArray : option ref)
| EventPropertyArray (num_elements : nat) (events : list nat)
| ClipTriggerArray (num_elements : nat) (triggers : list TriggerObj)
| StateMachine (name : string) (startStateId nStates : nat)
               (states : list string) (wildcardTransitions : string)
| BehaviorGraph (name : string) (rootGenerator data : option string)
| RootLevelContainer (variant : string).

(** The [class] attribute of the element. *)
Definition class_name (b : Body) : string :=
  match b with
  | StringData _ _ => "hkbBehaviorGraphStringData"
  | VariableValueSet => "hkbVariableValueSet"
  | GraphData _ _ _ _ => "hkbBehaviorGraphData"
  | BlendingTransitionEffect _ => "hkbBlendingTransitionEffect"
  | TransitionInfoArray _ _ => "hkbStateMachineTransitionInfoArray"
  | ClipGenerator _ _ _ _ => "hkbClipGenerator"
  | GamebryoSequenceGenerator _ => "BGSGamebryoSequenceGenerator"
  | StateInfo _ _ _ _ _ _ _ => "hkbStateMachineStateInfo"
  | EventPropertyArray _ _ => "hkbStateMachineEventPropertyArray"
  | ClipTriggerArray _ _ => "hkbClipTriggerArray"
  | StateMachine _ _ _ _ _ => "hkbStateMachine"
  | BehaviorGraph _ _ _ => "hkbBehaviorGraph"
  | RootLevelContainer _ => "hkRootLevelContainer"
  end.

(** The [signature] attribute of the element. *)
Definition signature (b : Body) : string :=
  match b with
  | StringData _ _ => "0xc713064e"
  | VariableValueSet => "0x27812d8d"
  | GraphData _ _ _ _ => "0x95aca5d"
  | BlendingTransitionEffect _ => "0xfd8584fe"
  | TransitionInfoArray _ _ => "0xe397b11e"
  | ClipGenerator _ _ _ _ => "0x333b85b9"
  | GamebryoSequenceGenerator _ => "0xc8df2d77"
  | StateInfo _ _ _ _ _ _ _ => "0xed7f9d0"
  | EventPropertyArray _ _ => "0xb07b4388"
  | ClipTriggerArray _ _ => "0x59c23a0f"
  | StateMachine _ _ _ _ _ => "0x816c1dcb"
  | BehaviorGraph _ _ _ => "0xb1218f86"
  | RootLevelContainer _ => "0x2772c11e"
  end.

(** An [hkobject] element of the data section: its [name] attribute (the
    tag) and its content. *)
Record hkobject := {
  obj_name : string;
  obj_body : Body }.

(** The tuple [(state, generator, transitions, name)] kept in
    [list_of_states]. *)
Record StateEntry := {
  stateInfo : ref;
  stateGenerator : ref;
  stateTransitions : ref;
  stateName : string }.

(** Attributes that live on class objects and are mutated in place, with
    the module's log and the files written.  [data] is
    [BehaviorFile.data], the [hksection] of [BehaviorFile.hkpackfile]. *)
Record Process := {
  data : list hkobject;
  list_of_states : list StateEntry;
  event_name_list : list string;
  hkbStateMachine_list_of_states : list string;
  log : list string;
  files : list (string * list hkobject) }.

(** The instance attributes of a [BehaviorFile].  [issued] is a history
    variable, not an attribute: the values returned by [_OCnext] so far,
    oldest first. *)
Record BehaviorFile := {
  object_counter : nat;
  nStates : nat;
  wildcardtransitions : option ref;
  hkbBehaviorGraphStringData : option ref;
  hkbVariableValueSet : option ref;
  hkbBehaviorGraphData : option ref;
  blend_effect : option ref;
  hkbStateMachineObj : option ref;
  hkbBehaviorGraphObj : option ref;
  issued : list string }.

(** [root_index = object_counter = 51] *)
Definition root_index : nat := 51.

(** What an instance reads before [__init__] has bound anything: the
    class attributes. *)
Definition class_attributes : BehaviorFile :=
  {| object_counter := 51; nStates := 0; wildcardtransitions := None;
     hkbBehaviorGraphStringData := None; hkbVariableValueSet := None;
     hkbBehaviorGraphData := None; blend_effect := None;
     hkbStateMachineObj := None; hkbBehaviorGraphObj := None;
     issued := [] |}.

(** The process right after the module has been imported. *)
Definition fresh_process : Process :=
  {| data := []; list_of_states := []; event_name_list := [];
     hkbStateMachine_list_of_states := []; log := []; files := [] |}.

(** The [toplevelobject] attribute of [hkpackfile]. *)
Definition toplevelobject : string := format_tag root_index.

(** ** Record updates *)

Definition with_data (f : list hkobject -> list hkobject) (p : Process) :=
  {| data := f (data p); list_of_states := list_of_states p;
     event_name_list := event_name_list p;
     hkbStateMachine_list_of_states := hkbStateMachine_list_of_states p;
     log := log p; files := files p |}.

Definition with_list_of_states (f : list StateEntry -> list StateEntry)
  (p : Process) :=
  {| data := data p; list_of_states := f (list_of_states p);
     event_name_list := event_name_list p;
     hkbStateMachine_list_of_states := hkbStateMachine_list_of_states p;
     log := log p; files := files p |}.

Definition with_event_name_list (f : list string -> list string)
  (p : Process) :=
  {| data := data p; list_of_states := list_of_states p;
     event_name_list := f (event_name_list p);
     hkbStateMachine_list_of_states := hkbStateMachine_list_of_states p;
     log := log p; files := files p |}.

Definition with_sm_list (f : list string -> list string) (p : Process) :=
  {| data := data p; list_of_states := list_of_states p;
     event_name_list := event_name_list p;
     hkbStateMachine_list_of_states := f (hkbStateMachine_list_of_states p);
     log := log p; files := files p |}.

Definition with_log (f : list string -> list string) (p : Process) :=
  {| data := data p; list_of_states := list_of_states p;
     event_name_list := event_name_list p;
     hkbStateMachine_list_of_states := hkbStateMachine_list_of_states p;
     log := f (log p); files := files p |}.

Definition with_files
  (f : list (string * list hkobject) -> list (string * list hkobject))
  (p : Process) :=
  {| data := data p; list_of_states := list_of_states p;
     event_name_list := event_name_list p;
     hkbStateMachine_list_of_states := hkbStateMachine_list_of_states p;
     log := log p; files := f (files p) |}.

Definition bump_counter (b : BehaviorFile) : BehaviorFile :=
  {| object_counter := S (object_counter b); nStates := nStates b;
     wildcardtransitions := wildcardtransitions b;
     hkbBehaviorGraphStringData := hkbBehaviorGraphStringData b;
     hkbVariableValueSet := hkbVariableValueSet b;
     hkbBehaviorGraphData := hkbBehaviorGraphData b;
     blend_effect := blend_effect b;
     hkbStateMachineObj := hkbStateMachineObj b;
     hkbBehaviorGraphObj := hkbBehaviorGraphObj b;
     issued := issued b ++ [format_tag (S (object_counter b))] |}.

Definition bump_nStates (b : BehaviorFile) : BehaviorFile :=
  {| object_counter := object_counter b; nStates := S (nStates b);
     wildcardtransitions := wildcardtransitions b;
     hkbBehaviorGraphStringData := hkbBehaviorGraphStringData b;
     hkbVariableValueSet := hkbVariableValueSet b;
     hkbBehaviorGraphData := hkbBehaviorGraphData b;
     blend_effect := blend_effect b;
     hkbStateMachineObj := hkbStateMachineObj b;
     hkbBehaviorGraphObj := hkbBehaviorGraphObj b;
     issued := issued b |}.

(** The attributes bound to wrapper objects. *)
Inductive Attr :=
| A_wildcardtransitions | A_hkbBehaviorGraphStringData
| A_hkbVariableValueSet | A_hkbBehaviorGraphData | A_blend_effect
| A_hkbStateMachineObj | A_hkbBehaviorGraphObj.

Definition getattr (a : Attr) (b : BehaviorFile) : option ref :=
  match a with
  | A_wildcardtransitions => wildcardtransitions b
  | A_hkbBehaviorGraphStringData => hkbBehaviorGraphStringData b
  | A_hkbVariableValueSet => hkbVariableValueSet b
  | A_hkbBehaviorGraphData => hkbBehaviorGraphData b
  | A_blend_effect => blend_effect b
  | A_hkbStateMachineObj => hkbStateMachineObj b
  | A_hkbBehaviorGraphObj => hkbBehaviorGraphObj b
  end.

Definition setattr (a : Attr) (r : ref) (b : BehaviorFile) : BehaviorFile :=
  let pick a' := match a, a' with
                 | A_wildcardtransitions, A_wildcardtransitions
                 | A_hkbBehaviorGraphStringData, A_hkbBehaviorGraphStringData
                 | A_hkbVariableValueSet, A_hkbVariableValueSet
                 | A_hkbBehaviorGraphData, A_hkbBehaviorGraphData
                 | A_blend_effect, A_blend_effect
                 | A_hkbStateMachineObj, A_hkbStateMachineObj
                 | A_hkbBehaviorGraphObj, A_hkbBehaviorGraphObj => Some r
                 | _, _ => getattr a' b
                 end in
  {| object_counter := object_counter b; nStates := nStates b;
     wildcardtransitions := pick A_wildcardtransitions;
     hkbBehaviorGraphStringData := pick A_hkbBehaviorGraphStringData;
     hkbVariableValueSet := pick A_hkbVariableValueSet;
     hkbBehaviorGraphData := pick A_hkbBehaviorGraphData;
     blend_effect := pick A_blend_effect;
     hkbStateMachineObj := pick A_hkbStateMachineObj;
     hkbBehaviorGraphObj := pick A_hkbBehaviorGraphObj;
     issued := issued b |}.

(** ** The monad of builder code

    A method runs on the process and on the [BehaviorFile] that is its
    [self] (or its [BehaviorFileObj] argument), and either returns or
    raises; what it mutated before raising stays mutated. *)

Definition St : Type := Process * BehaviorFile.

Definition M (A : Type) : Type := St -> St * Result A.

Definition ret {A} (a : A) : M A := fun s => (s, Ok a).

Definition raise {A} (e : exn) : M A := fun s => (s, Raise e).

Definition bind {A B} (m : M A) (k : A -> M B) : M B :=
  fun s => match m s with
           | (s', Ok a) => k a s'
           | (s', Raise e) => (s', Raise e)
           end.

Notation "'let!' x := m 'in' k" := (bind m (fun x => k))
  (at level 10, x name, m at level 100, k at level 200).
Notation "m ;; k" := (bind m (fun _ => k))
  (at level 100, k at level 200, right associativity).

Definition gets {A} (f : St -> A) : M A := fun s => (s, Ok (f s)).

Definition modify (f : St -> St) : M unit := fun s => (f s, Ok tt).

Definition assert (c : bool) : M unit :=
  if c then ret tt else raise AssertionError.

(** Using a value that may be [None] or an unbound local. *)
Definition unwrap {A} (e : exn) (o : option A) : M A :=
  match o with
  | Some a => ret a
  | None => raise e
  end.

Definition on_process (f : Process -> Process) : St -> St :=
  fun s => (f (fst s), snd s).

Definition on_self (f : BehaviorFile -> BehaviorFile) : St -> St :=
  fun s => (fst s, f (snd s)).

(** [log.warning(msg)] *)
Definition warning (msg : string) : M unit :=
  modify (on_process (with_log (fun l => l ++ [msg]))).

(** Reading an attribute of [self] that is bound to a wrapper; on [None]
    the attribute access that follows raises [AttributeError]. *)
Definition attr (a : Attr) : M ref :=
  let! o := gets (fun s => getattr a (snd s)) in unwrap AttributeError o.

(** [BehaviorFile._OCnext] *)
Definition _OCnext : M string :=
  modify (on_self bump_counter) ;;
  let! c := gets (fun s => object_counter (snd s)) in
  ret (format_tag c).

(** The header every wrapper constructor starts with:
    [ET.SubElement(BehaviorFileObj.data, 'hkobject')], then
    [self.tag = BehaviorFileObj._OCnext()] and the attributes and fields
    of the element. *)
Definition new_hkobject (body : Body) : M ref :=
  let! r := gets (fun s => length (data (fst s))) in
  let! tag := _OCnext in
  modify (on_process (with_data
            (fun d => d ++ [ {| obj_name := tag; obj_body := body |} ]))) ;;
  ret r.

(** Following a reference. *)
Definition deref (r : ref) : M hkobject :=
  let! o := gets (fun s => data (fst s) !! r) in unwrap AttributeError o.

(** [obj.tag] *)
Definition tag_of (r : ref) : M string :=
  let! o := deref r in ret (obj_name o).

(** A method that mutates its own element: [f] is the method on the
    fields of its class, and is undefined on the other classes. *)
Definition update (r : ref) (f : Body -> option Body) : M unit :=
  let! o := deref r in
  let! b := unwrap AttributeError (f (obj_body o)) in
  modify (on_process (with_data
            (fun d => <[ r := {| obj_name := obj_name o; obj_body := b |} ]> d))).

(** [obj.__class__.__name__ == c], and [isinstance] for these classes,
    none of which has a subclass. *)
Definition has_class (c : string) (r : ref) : M bool :=
  let! o := deref r in ret (String.eqb (class_name (obj_body o)) c).

(** Iterating [for x in l: body]. *)
Fixpoint for_each {A} (l : list A) (body : A -> M unit) : M unit :=
  match l with
  | [] => ret tt
  | x :: l' => body x ;; for_each l' body
  end.

(** ** The wrapper classes *)

Definition recursion_limit : nat := 1000.
Arguments recursion_limit : simpl never.

Module hkbBehaviorGraphData.

Definition __init__ : M ref :=
  let! vvs := attr A_hkbVariableValueSet in
  let! vvs_tag := tag_of vvs in
  let! sd := attr A_hkbBehaviorGraphStringData in
  let! sd_tag := tag_of sd in
  new_hkobject (GraphData 0 [] vvs_tag sd_tag).

Definition add_event (self : ref) (flags : Z) : M unit :=
  update self (fun b =>
    match b with
    | GraphData n infos v s => Some (GraphData (S n) (infos ++ [flags]) v s)
    | _ => None
    end).

End hkbBehaviorGraphData.

Module hkbVariableValueSet.

Definition __init__ : M ref := new_hkobject VariableValueSet.

End hkbVariableValueSet.

Module hkbBehaviorGraphStringData.

Definition __init__ : M ref := new_hkobject (StringData 0 []).

Definition add_event (self : ref) (event_name : string) : M unit :=
  let! l := gets (fun s => event_name_list (fst s)) in
  (if existsb (String.eqb event_name) l then raise TypeError else ret tt) ;;
  update self (fun b =>
    match b with
    | StringData n names => Some (StringData (S n) (names ++ [event_name]))
    | _ => None
    end) ;;
  modify (on_process (with_event_name_list (fun l => l ++ [event_name]))) ;;
  warning ("created new event " ++ event_name).

(** The index at which the [for ... in range] loop breaks. *)
Fixpoint first_index (event : string) (l : list string) (i : nat)
  : option nat :=
  match l with
  | [] => None
  | x :: l' => if String.eqb x event then Some i
               else first_index event l' (S i)
  end.

Definition get_eventID (event : string) : M nat :=
  let! l := gets (fun s => event_name_list (fst s)) in
  unwrap TypeError (first_index event l 0).

(** The method calls itself after adding the event; [fuel] is the depth
    of calls left. *)
Fixpoint getOrCreateEventID_rec (fuel : nat) (self : ref)
  (event_name : string) : M nat :=
  match fuel with
  | O => raise RecursionError
  | S fuel' =>
      let! l := gets (fun s => event_name_list (fst s)) in
      if existsb (String.eqb event_name) l then get_eventID event_name
      else
        add_event self event_name ;;
        let! gd := attr A_hkbBehaviorGraphData in
        hkbBehaviorGraphData.add_event gd 0%Z ;;
        getOrCreateEventID_rec fuel' self event_name
  end.

Definition getOrCreateEventID (self : ref) (event_name : string) : M nat :=
  getOrCreateEventID_rec recursion_limit self event_name.

End hkbBehaviorGraphStringData.

(** [BehaviorFileObj.hkbBehaviorGraphStringData.getOrCreateEventID(
      BehaviorFileObj=BehaviorFileObj, event_name=event)] *)
Definition getOrCreateEventID (event_name : string) : M nat :=
  let! sd := attr A_hkbBehaviorGraphStringData in
  hkbBehaviorGraphStringData.getOrCreateEventID sd event_name.

Module hkbBlendingTransitionEffect.

Definition __init__ (name : string) : M ref :=
  new_hkobject (BlendingTransitionEffect name).

End hkbBlendingTransitionEffect.

Module hkbStateMachineTransitionInfoArray.

Definition __init__ : M ref := new_hkobject (TransitionInfoArray 0 []).

Definition add_transition (self : ref) (eventIdIdx toStateIdIdx : nat)
  (transitionStr conditionStr : string) (wildcard : bool) : M unit :=
  update self (fun b =>
    match b with
    | TransitionInfoArray n ts =>
        Some (TransitionInfoArray (S n)
                (ts ++ [ {| t_transition := transitionStr;
                            t_condition := conditionStr;
                            t_eventId := eventIdIdx;
                            t_toStateId := toStateIdIdx;
                            t_flags :=
                              if wildcard
                              then "FLAG_IS_LOCAL_WILDCARD|FLAG_DISABLE_CONDITION"
                              else "FLAG_DISABLE_CONDITION" |} ]))
    | _ => None
    end).

End hkbStateMachineTransitionInfoArray.

Module hkbClipGenerator.

(** [triggers] is only ever passed as a string (its default ["null"]). *)
Definition __init__ (name anim_path triggers : string) (looping : bool)
  : M ref :=
  new_hkobject (ClipGenerator name anim_path triggers looping).

Definition set_trigger (self trigger : ref) : M unit :=
  let! c := has_class "hkbClipTriggerArray" trigger in
  assert c ;;
  let! tag := tag_of trigger in
  update self (fun b =>
    match b with
    | ClipGenerator n a _ l => Some (ClipGenerator n a tag l)
    | _ => None
    end).

End hkbClipGenerator.

Module BGSGamebryoSequenceGenerator.

Definition __init__ (nifAnimName : string) : M ref :=
  new_hkobject (GamebryoSequenceGenerator nifAnimName).

End BGSGamebryoSequenceGenerator.

Module hkbClipTriggerArray.

Definition __init__ : M ref := new_hkobject (ClipTriggerArray 0 []).

(** The new [triggers] child is appended first (l.954);
    [float(localTime)] may then raise (l.958), which leaves the child
    unfinished and [num_elements] as it was (l.990 is not reached).
    The time of a finished child is kept as the double that l.958 prints
    with six decimals. *)
Definition add_trigger (self : ref) (localTime : PyNum) (EventID : nat)
  (relativeToEndOfClip : bool) : M unit :=
  update self (fun b =>
    match b with
    | ClipTriggerArray n ts => Some (ClipTriggerArray n (ts ++ [Unfinished]))
    | _ => None
    end) ;;
  let! t := unwrap OverflowError (to_float localTime) in
  update self (fun b =>
    match b with
    | ClipTriggerArray n ts =>
        Some (ClipTriggerArray (S n)
                (removelast ts
                 ++ [ Finished
                        {| tr_localTime := t;
                           tr_eventId := EventID;
                           tr_relativeToEndOfClip := relativeToEndOfClip |} ]))
    | _ => None
    end).

End hkbClipTriggerArray.

Module hkbStateMachineEventPropertyArray.

Definition __init__ (events : NotifyArg) : M ref :=
  let events := match events with
                | NList l => l
                | NStr s => [s]
                end in
  let! self := new_hkobject (EventPropertyArray (length events) []) in
  for_each events (fun event_name =>
    let! eventID := getOrCreateEventID event_name in
    update self (fun b =>
      match b with
      | EventPropertyArray n ids => Some (EventPropertyArray n (ids ++ [eventID]))
      | _ => None
      end)) ;;
  ret self.

End hkbStateMachineEventPropertyArray.

(** The text of a field that holds ["null"] or the tag of a wrapper. *)
Definition tag_or_null (o : option ref) : M string :=
  match o with
  | Some r => tag_of r
  | None => ret "null"
  end.

Module hkbStateMachineStateInfo.

(** [enterNotifyEvents] and [exitNotifyEvents] are [None] for the string
    ["null"], the only string [add_state] passes. *)
Definition __init__ (generator transitions : ref) (name : string)
  (state_ID : nat) (enterNotifyEvents exitNotifyEvents : option ref)
  : M ref :=
  let! g1 := has_class "hkbClipGenerator" generator in
  let! g2 := has_class "BGSGamebryoSequenceGenerator" generator in
  assert (g1 || g2) ;;
  let! t := has_class "hkbStateMachineTransitionInfoArray" transitions in
  assert t ;;
  for_each (option_list exitNotifyEvents ++ option_list enterNotifyEvents)
    (fun r =>
       let! c := has_class "hkbStateMachineEventPropertyArray" r in
       assert c) ;;
  let! enter_text := tag_or_null enterNotifyEvents in
  let! exit_text := tag_or_null exitNotifyEvents in
  let! transitions_tag := tag_of transitions in
  let! generator_tag := tag_of generator in
  new_hkobject (StateInfo enter_text exit_text transitions_tag generator_tag
                  name state_ID None).

Definition stateIdx (self : ref) : M nat :=
  let! o := deref self in
  match obj_body o with
  | StateInfo _ _ _ _ _ idx _ => ret idx
  | _ => raise AttributeError
  end.

Definition getOrCreateClipTriggerArray (self : ref) : M ref :=
  let! o := deref self in
  match obj_body o with
  | StateInfo _ _ _ _ _ _ (Some r) => ret r
  | StateInfo _ _ _ _ _ _ None =>
      let! r := hkbClipTriggerArray.__init__ in
      update self (fun b =>
        match b with
        | StateInfo en ex t g n i _ => Some (StateInfo en ex t g n i (Some r))
        | _ => None
        end) ;;
      ret r
  | _ => raise AttributeError
  end.

End hkbStateMachineStateInfo.

Module hkbStateMachine.

Definition __init__ (name : string) (startStateIdIdx : nat) : M ref :=
  let! w := gets (fun s => wildcardtransitions (snd s)) in
  let! wildcard_text := tag_or_null w in
  new_hkobject (StateMachine name startStateIdIdx 0 [] wildcard_text).

Definition add_state (self state : ref) : M unit :=
  let! c := has_class "hkbStateMachineStateInfo" state in
  assert c ;;
  let! tag := tag_of state in
  modify (on_process (with_sm_list (fun l => l ++ [tag]))) ;;
  let! l := gets (fun s => hkbStateMachine_list_of_states (fst s)) in
  update self (fun b =>
    match b with
    | StateMachine nm st n _ w => Some (StateMachine nm st (S n) l w)
    | _ => None
    end).

End hkbStateMachine.

Module hkbBehaviorGraph.

(** The element is appended and gets its tag before the state machine
    and the graph data of the builder are read. *)
Definition __init__ (name : string) : M ref :=
  let! self := new_hkobject (BehaviorGraph (name ++ ".hkb") None None) in
  let! sm := attr A_hkbStateMachineObj in
  let! sm_tag := tag_of sm in
  update self (fun b =>
    match b with
    | BehaviorGraph n _ d => Some (BehaviorGraph n (Some sm_tag) d)
    | _ => None
    end) ;;
  let! gd := attr A_hkbBehaviorGraphData in
  let! gd_tag := tag_of gd in
  update self (fun b =>
    match b with
    | BehaviorGraph n r _ => Some (BehaviorGraph n r (Some gd_tag))
    | _ => None
    end) ;;
  ret self.

End hkbBehaviorGraph.

(** ** The builder: the methods of [BehaviorFile] *)

(** [BehaviorFile.__init__] *)
Definition __init__ : M unit :=
  let! sd := hkbBehaviorGraphStringData.__init__ in
  modify (on_self (setattr A_hkbBehaviorGraphStringData sd)) ;;
  let! vvs := hkbVariableValueSet.__init__ in
  modify (on_self (setattr A_hkbVariableValueSet vvs)) ;;
  let! gd := hkbBehaviorGraphData.__init__ in
  modify (on_self (setattr A_hkbBehaviorGraphData gd)) ;;
  let! be := hkbBlendingTransitionEffect.__init__ "ZeroDuration" in
  modify (on_self (setattr A_blend_effect be)).

(** The loop

      [for stateInfo, stateGenerator, stateTransitions, stateName in l:]
      [    if stateName == x: break]

    run with the loop variables bound as [bound] says ([None]: not bound
    yet).  It returns the binding of the loop variables after the loop and
    whether the loop was left by [break]; when it was not, the [else]
    branch of the loop runs. *)
Fixpoint for_break (x : string) (l : list StateEntry)
  (bound : option StateEntry) : option StateEntry * bool :=
  match l with
  | [] => (bound, false)
  | e :: l' => if String.eqb (stateName e) x then (Some e, true)
               else for_break x l' (Some e)
  end.

(** [events == "null"] *)
Definition is_null (events : NotifyArg) : bool :=
  match events with
  | NStr s => String.eqb s "null"
  | NList _ => false
  end.

(** The array built for an [enterNotifyEvents] or [exitNotifyEvents]
    argument that is not ["null"]. *)
Definition notify_array (events : NotifyArg) : M (option ref) :=
  if is_null events then ret None
  else let! r := hkbStateMachineEventPropertyArray.__init__ events in
       ret (Some r).

Definition add_state (name animation_path : string)
  (looping gamebryoanim : bool) (enterNotifyEvents exitNotifyEvents : NotifyArg)
  : M unit :=
  if negb gamebryoanim && String.eqb animation_path "placeholder" then
    warning "If adding a .hkx animation state, the animation_path argument must be passed: 'animations\<your anim name.hkx>"
  else
    let! l := gets (fun s => list_of_states (fst s)) in
    if existsb (fun e => String.eqb (stateName e) name) l then
      warning ("a state with name " ++ name
               ++ " already in project, chose a unique name")
    else
      let! transitions := hkbStateMachineTransitionInfoArray.__init__ in
      let! generator :=
        (if negb gamebryoanim
         then hkbClipGenerator.__init__ name animation_path "null" looping
         else BGSGamebryoSequenceGenerator.__init__ name) in
      let! enter_eventPropArray := notify_array enterNotifyEvents in
      let! exit_eventPropArray := notify_array exitNotifyEvents in
      let! n := gets (fun s => nStates (snd s)) in
      let! state := hkbStateMachineStateInfo.__init__ generator transitions
                      name n enter_eventPropArray exit_eventPropArray in
      modify (on_self bump_nStates) ;;
      modify (on_process (with_list_of_states (fun l =>
        l ++ [ {| stateInfo := state; stateGenerator := generator;
                  stateTransitions := transitions; stateName := name |} ]))) ;;
      let! idx := hkbStateMachineStateInfo.stateIdx state in
      warning ("added state " ++ name ++ " with state ID " ++ str idx
               ++ " to project").

Definition add_clip_trigger (state event : string)
  (relativeToEndOfClip : bool) (localTime : PyNum) : M unit :=
  let! l := gets (fun s => list_of_states (fst s)) in
  let found := for_break state l None in
  (if snd found then ret tt
   else warning ("add_clip_trigger error, state " ++ state ++ " doesnt exist")) ;;
  let! e := unwrap UnboundLocalError (fst found) in
  let! g := has_class "BGSGamebryoSequenceGenerator" (stateGenerator e) in
  if g then raise TypeError
  else
    let! clip_trigger :=
      hkbStateMachineStateInfo.getOrCreateClipTriggerArray (stateInfo e) in
    let! event_ID := getOrCreateEventID event in
    hkbClipTriggerArray.add_trigger clip_trigger localTime event_ID
      relativeToEndOfClip ;;
    hkbClipGenerator.set_trigger (stateGenerator e) clip_trigger.

Definition connect_states (state1 state2 event : string) : M unit :=
  assert (negb (String.eqb state1 state2)) ;;
  let! l := gets (fun s => list_of_states (fst s)) in
  let found1 := for_break state1 l None in
  (if snd found1 then ret tt
   else warning ("connect_states error, state1 " ++ state1 ++ " doesnt exist")) ;;
  let found2 := for_break state2 l None in
  (if snd found2 then ret tt
   else warning ("connect_states error, state2 " ++ state2 ++ " doesnt exist")) ;;
  let! eventIndex := getOrCreateEventID event in
  let! e1 := unwrap UnboundLocalError (fst found1) in
  let! e2 := unwrap UnboundLocalError (fst found2) in
  let! toStateIdIdx := hkbStateMachineStateInfo.stateIdx (stateInfo e2) in
  let! be := attr A_blend_effect in
  let! transitionStr := tag_of be in
  hkbStateMachineTransitionInfoArray.add_transition (stateTransitions e1)
    eventIndex toStateIdIdx transitionStr "null" false ;;
  warning ("added a transition from " ++ state1 ++ " to " ++ state2
           ++ " (ID " ++ str toStateIdIdx ++ ") with event " ++ event).

Definition getOrCreatewildcardtransitions : M ref :=
  let! w := gets (fun s => wildcardtransitions (snd s)) in
  match w with
  | Some r => ret r
  | None =>
      let! r := hkbStateMachineTransitionInfoArray.__init__ in
      modify (on_self (setattr A_wildcardtransitions r)) ;;
      ret r
  end.

Definition add_wildcard (stateStr event : string) : M unit :=
  let! l := gets (fun s => list_of_states (fst s)) in
  let found := for_break stateStr l None in
  if snd found then
    let! e := unwrap UnboundLocalError (fst found) in
    let! eventIndex := getOrCreateEventID event in
    let! wildcardtransitionsOBJ := getOrCreatewildcardtransitions in
    let! toStateIdIdx := hkbStateMachineStateInfo.stateIdx (stateInfo e) in
    let! be := attr A_blend_effect in
    let! transitionStr := tag_of be in
    hkbStateMachineTransitionInfoArray.add_transition wildcardtransitionsOBJ
      eventIndex toStateIdIdx transitionStr "null" true ;;
    warning ("Added wildcard transition to state " ++ stateStr
             ++ " with event " ++ event)
  else
    warning ("Add_wildcard error, state " ++ stateStr
             ++ " doesnt exist, create it first").

Definition __finalize : M unit :=
  let! sm := hkbStateMachine.__init__ "defaultNameBehavior" 0 in
  modify (on_self (setattr A_hkbStateMachineObj sm)) ;;
  let! l := gets (fun s => list_of_states (fst s)) in
  for_each l (fun e =>
    let! sm := attr A_hkbStateMachineObj in
    hkbStateMachine.add_state sm (stateInfo e)) ;;
  let! bg := hkbBehaviorGraph.__init__ "defaultNameBehavior" in
  modify (on_self (setattr A_hkbBehaviorGraphObj bg)) ;;
  let! bg := attr A_hkbBehaviorGraphObj in
  let! variant := tag_of bg in
  modify (on_process (with_data (fun d =>
    d ++ [ {| obj_name := format_tag root_index;
              obj_body := RootLevelContainer variant |} ]))).

(** A path with a NUL character. *)
Fixpoint has_nul (s : string) : bool :=
  match s with
  | EmptyString => false
  | String c s' => Ascii.eqb c Ascii.zero || has_nul s'
  end.

(** What [open(filepath, 'wb')] answers: a path with a NUL character
    raises [ValueError] and the empty path [FileNotFoundError], which is
    an [OSError]; for another path, [opened] is the answer of the
    operating system, which opens the file or makes [open] raise an
    [OSError]. *)
Definition open_result (filepath : string) (opened : bool) : Result unit :=
  if has_nul filepath then Raise ValueError
  else if String.eqb filepath "" then Raise OSError
  else if opened then Ok tt
  else Raise OSError.

(** [prettify_and_print(self.hkpackfile, filepath)]: the file, once opened,
    receives the rendering of [hkpackfile], that is of the data section as
    it is at that moment. *)
Definition prettify_and_print (filepath : string) (opened : bool) : M unit :=
  match open_result filepath opened with
  | Ok _ =>
      modify (on_process (fun p =>
        with_files (fun f => f ++ [(filepath, data p)]) p))
  | Raise e => raise e
  end.

(** [export]: [__finalize], then [prettify_and_print]; when the file cannot
    be opened, the call raises with the document finalized and no file
    written. *)
Definition export (filepath : string) (opened : bool) : M unit :=
  __finalize ;;
  prettify_and_print filepath opened.

(** ** Sessions *)

(** [BehaviorFile()]: a new instance, starting from the class attributes,
    in the process as it is. *)
Definition new_BehaviorFile (p : Process) : St * Result unit :=
  __init__ (p, class_attributes).

(** The calls of the builder API. *)
Inductive Op :=
| Add_state (name animation_path : string) (looping gamebryoanim : bool)
            (enterNotifyEvents exitNotifyEvents : NotifyArg)
| Add_clip_trigger (state event : string) (relativeToEndOfClip : bool)
                   (localTime : PyNum)
| Connect_states (state1 state2 event : string)
| Add_wildcard (stateStr event : string)
| Export (filepath : string) (opened : bool).

Definition exec (o : Op) : M unit :=
  match o with
  | Add_state n a l g en ex => add_state n a l g en ex
  | Add_clip_trigger s e r t => add_clip_trigger s e r t
  | Connect_states s1 s2 e => connect_states s1 s2 e
  | Add_wildcard s e => add_wildcard s e
  | Export f opened => export f opened
  end.

Definition is_mutation (o : Op) : bool :=
  match o with
  | Export _ _ => false
  | _ => true
  end.

(** Running calls one after the other; a call that raises leaves its
    partial effects and the session goes on (the caller caught it). *)
Fixpoint run (ops : list Op) (s : St) : St :=
  match ops with
  | [] => s
  | o :: ops' => run ops' (fst (exec o s))
  end.

(** The first builder of a process: the process has just imported the
    module and this [BehaviorFile()] is the first one it creates. *)
Definition initial : St := fst (new_BehaviorFile fresh_process).

(** What the first builder of a process can reach through its API, as
    long as the process creates no other [BehaviorFile]: the class-level
    lists then hold what this builder put there and nothing else. *)
Definition reachable (s : St) : Prop := exists ops, s = run ops initial.

(** What the first builder of a process can reach before it is
    exported. *)
Definition built (s : St) : Prop :=
  exists ops, forallb is_mutation ops = true /\ s = run ops initial.

Example initial_tags :
  map obj_name (data (fst initial)) = ["#0052"; "#0053"; "#0054"; "#0055"].
Proof. reflexivity. Qed.

(** ** Reasoning about builder code *)

(** [wp m Q s]: running [m] in [s] ends, with a result [r] (returned or
    raised) and in a state [s'], such that [Q r s']. *)
Definition wp {A} (m : M A) (Q : Result A -> St -> Prop) (s : St) : Prop :=
  Q (snd (m s)) (fst (m s)).

Lemma wp_ret {A} (a : A) Q s : Q (Ok a) s -> wp (ret a) Q s.
Proof. exact id. Qed.

Lemma wp_raise {A} e (Q : Result A -> St -> Prop) s :
  Q (Raise e) s -> wp (raise e) Q s.
Proof. exact id. Qed.

Lemma wp_bind {A B} (m : M A) (k : A -> M B) Q s :
  wp m (fun r s' => match r with
                    | Ok a => wp (k a) Q s'
                    | Raise e => Q (Raise e) s'
                    end) s ->
  wp (bind m k) Q s.
Proof. unfold wp, bind. destruct (m s) as [s' [a|e]]; exact id. Qed.

Lemma wp_mono {A} (m : M A) (Q Q' : Result A -> St -> Prop) s :
  wp m Q s -> (forall r s', Q r s' -> Q' r s') -> wp m Q' s.
Proof. unfold wp. auto. Qed.

Lemma wp_gets {A} (f : St -> A) Q s : Q (Ok (f s)) s -> wp (gets f) Q s.
Proof. exact id. Qed.

Lemma wp_modify (f : St -> St) Q s : Q (Ok tt) (f s) -> wp (modify f) Q s.
Proof. exact id. Qed.

Lemma wp_unwrap {A} e (o : option A) Q s :
  (forall a, o = Some a -> Q (Ok a) s) -> (o = None -> Q (Raise e) s) ->
  wp (unwrap e o) Q s.
Proof. destruct o; unfold wp; simpl; auto. Qed.

Lemma wp_assert (c : bool) Q s :
  (c = true -> Q (Ok tt) s) -> (c = false -> Q (Raise AssertionError) s) ->
  wp (assert c) Q s.
Proof. destruct c; unfold wp; simpl; auto. Qed.

Lemma wp_attr a Q s :
  (forall r, getattr a (snd s) = Some r -> Q (Ok r) s) ->
  (getattr a (snd s) = None -> Q (Raise AttributeError) s) ->
  wp (attr a) Q s.
Proof.
  intros H1 H2. unfold attr. apply wp_bind, wp_gets, wp_unwrap; auto.
Qed.

Lemma wp_deref r Q s :
  (forall o, data (fst s) !! r = Some o -> Q (Ok o) s) ->
  (data (fst s) !! r = None -> Q (Raise AttributeError) s) ->
  wp (deref r) Q s.
Proof.
  intros H1 H2. unfold deref. apply wp_bind, wp_gets, wp_unwrap; auto.
Qed.

Lemma wp_tag_of r Q s :
  (forall o, data (fst s) !! r = Some o -> Q (Ok (obj_name o)) s) ->
  (data (fst s) !! r = None -> Q (Raise AttributeError) s) ->
  wp (tag_of r) Q s.
Proof.
  intros H1 H2. unfold tag_of. apply wp_bind, wp_deref; auto.
Qed.

Lemma wp_has_class c r Q s :
  (forall o, data (fst s) !! r = Some o ->
             Q (Ok (String.eqb (class_name (obj_body o)) c)) s) ->
  (data (fst s) !! r = None -> Q (Raise AttributeError) s) ->
  wp (has_class c r) Q s.
Proof.
  intros H1 H2. unfold has_class. apply wp_bind, wp_deref; auto.
Qed.

Lemma wp_tag_or_null o Q s :
  (forall t, match o with
             | Some r => exists ob, data (fst s) !! r = Some ob /\ t = obj_name ob
             | None => t = "null"
             end -> Q (Ok t) s) ->
  Q (Raise AttributeError) s ->
  wp (tag_or_null o) Q s.
Proof.
  intros H1 H2. destruct o as [r|]; simpl.
  - apply wp_tag_of; eauto.
  - apply wp_ret; auto.
Qed.

(** What [update] does to the store. *)
Definition put (r : ref) (b : Body) (s : St) : St :=
  on_process (with_data (fun d =>
    match d !! r with
    | Some o => <[ r := {| obj_name := obj_name o; obj_body := b |} ]> d
    | None => d
    end)) s.

Lemma wp_update r f Q s :
  (forall o b, data (fst s) !! r = Some o -> f (obj_body o) = Some b ->
               Q (Ok tt) (put r b s)) ->
  ((forall o, data (fst s) !! r = Some o -> f (obj_body o) = None) ->
   Q (Raise AttributeError) s) ->
  wp (update r f) Q s.
Proof.
  intros H1 H2. unfold update. apply wp_bind, wp_deref.
  - intros o Ho. apply wp_bind, wp_unwrap.
    + intros b Hb. apply wp_modify.
      specialize (H1 o b Ho Hb). unfold put, on_process, with_data in *.
      simpl in *. rewrite Ho in H1. exact H1.
    + intros Hb. apply H2. intros o' Ho'. congruence.
  - intros Hn. apply H2. intros o' Ho'. congruence.
Qed.

(** What [new_hkobject] does to the state. *)
Definition alloc (body : Body) (s : St) : St :=
  (with_data (fun d => d ++ [ {| obj_name := format_tag (S (object_counter (snd s)));
                                 obj_body := body |} ]) (fst s),
   bump_counter (snd s)).

Lemma new_hkobject_eq body s :
  new_hkobject body s = (alloc body s, Ok (length (data (fst s)))).
Proof. destruct s as [p b]. reflexivity. Qed.

Lemma wp_new_hkobject body Q s :
  Q (Ok (length (data (fst s)))) (alloc body s) ->
  wp (new_hkobject body) Q s.
Proof. unfold wp. rewrite new_hkobject_eq. exact id. Qed.

Lemma wp_warning msg Q s :
  Q (Ok tt) (on_process (with_log (fun l => l ++ [msg])) s) ->
  wp (warning msg) Q s.
Proof. exact id. Qed.

Lemma wp_for_each {A} (I : St -> Prop) (l : list A) (body : A -> M unit)
  (Q : Result unit -> St -> Prop) s :
  I s ->
  (forall x s0, In x l -> I s0 -> wp (body x) (fun _ s1 => I s1) s0) ->
  (forall r s', I s' -> Q r s') ->
  wp (for_each l body) Q s.
Proof.
  intros HI Hbody HQ. revert s HI.
  induction l as [|x l IH]; intros s HI; simpl.
  - apply wp_ret. auto.
  - apply wp_bind. eapply wp_mono.
    + apply Hbody; [left; reflexivity | exact HI].
    + intros [[]|e] s1 H1; simpl; [|auto].
      apply IH; [|exact H1].
      intros y s0 Hy. apply Hbody. right. exact Hy.
Qed.

(** [m] keeps [I], whether it returns or raises. *)
Definition preserves {A} (I : St -> Prop) (m : M A) : Prop :=
  forall s, I s -> I (fst (m s)).

Lemma wp_preserves {A} (I : St -> Prop) (m : M A) Q s :
  preserves I m -> I s -> (forall r s', I s' -> Q r s') -> wp m Q s.
Proof. unfold preserves, wp. auto. Qed.

Lemma preserves_wp {A} (I : St -> Prop) (m : M A) :
  (forall s, I s -> wp m (fun _ s' => I s') s) -> preserves I m.
Proof. exact id. Qed.

(** Stepping through builder code: [wp_read] passes a step that leaves the
    state alone, [wp_write] one that changes it. *)
Ltac wp_read :=
  lazymatch goal with
  | |- wp (bind _ _) _ _ => apply wp_bind
  | |- wp (ret _) _ _ => apply wp_ret
  | |- wp (raise _) _ _ => apply wp_raise
  | |- wp (gets _) _ _ => apply wp_gets
  | |- wp (unwrap _ _) _ _ => apply wp_unwrap; [intros ? ? | intros ?]
  | |- wp (assert _) _ _ => apply wp_assert; intros ?
  | |- wp (attr _) _ _ => apply wp_attr; [intros ? ? | intros ?]
  | |- wp (deref _) _ _ => apply wp_deref; [intros ? ? | intros ?]
  | |- wp (tag_of _) _ _ => apply wp_tag_of; [intros ? ? | intros ?]
  | |- wp (has_class _ _) _ _ => apply wp_has_class; [intros ? ? | intros ?]
  | |- wp (tag_or_null _) _ _ => apply wp_tag_or_null; [intros ? ? | ]
  | |- wp (if ?c then _ else _) _ _ => destruct c eqn:?
  | |- wp (match ?x with _ => _ end) _ _ => destruct x eqn:?
  end.

Ltac wp_write :=
  lazymatch goal with
  | |- wp (modify _) _ _ => apply wp_modify
  | |- wp (warning _) _ _ => apply wp_warning
  | |- wp (new_hkobject _) _ _ => apply wp_new_hkobject
  | |- wp (update _ _) _ _ => apply wp_update; [intros ? ? ? ? | intros ?]
  end.

Ltac head_of t :=
  lazymatch t with
  | ?f _ => head_of f
  | _ => t
  end.

(** Proving [wp m Q s] from [I s], where [Q] follows from [I].  [known]
    closes [preserves I c] for a call [c] it knows a lemma for; a call it
    does not know is unfolded.  [establish] proves [I] of the state after
    a write from [I] before it and from what was read, and [Q] at the
    end.  The tactic stops at a write it cannot pass. *)
Ltac wp_keep I known establish :=
  repeat (cbv beta iota;
    lazymatch goal with
    | |- match ?r with Ok _ => _ | Raise _ => _ end => destruct r
    | |- wp (for_each _ _) _ _ =>
        eapply (wp_for_each I); [ eassumption | intros ? ? _ ? | intros ? ? ? ]
    | |- wp ?m _ ?s =>
        first
          [ wp_read
          | wp_write;
            lazymatch goal with
            | |- context [wp _ _ ?s'] =>
                let H := fresh "HI" in
                assert (H : I s') by (first [ assumption | establish ]);
                revert H; generalize s'; intros ? H
            | |- _ => idtac
            end
          | eapply (wp_preserves I);
            [ solve [ known ] | eassumption | intros [?|?] ? ? ]
          | let h := head_of m in
            lazymatch h with
            | @modify => fail
            | @update => fail
            | @new_hkobject => fail
            | @warning => fail
            | _ => unfold h
            end ]
    | |- _ => first [ assumption | establish ]
    end).

(** ** The tag allocator *)

(** The tags issued so far are those of 52, 53, ... up to the counter. *)
Definition issued_ok (b : BehaviorFile) : Prop :=
  exists n, object_counter b = 51 + n /\
            issued b = map format_tag (seq 52 n).

Definition IssuedInv (s : St) : Prop := issued_ok (snd s).

Lemma issued_ok_bump_counter b : issued_ok b -> issued_ok (bump_counter b).
Proof.
  intros (n & Hc & Hi). exists (S n). split.
  - simpl. lia.
  - cbn [bump_counter issued object_counter].
    rewrite Hi, Hc, seq_S, map_app. reflexivity.
Qed.

Lemma issued_ok_bump_nStates b : issued_ok b -> issued_ok (bump_nStates b).
Proof. exact id. Qed.

Lemma issued_ok_setattr a r b : issued_ok b -> issued_ok (setattr a r b).
Proof. exact id. Qed.

Ltac issued_establish :=
  first [ apply issued_ok_bump_counter; assumption
        | apply issued_ok_bump_nStates; assumption
        | apply issued_ok_setattr; assumption ].

Lemma IssuedInv_getOrCreateEventID_rec fuel self ev :
  preserves IssuedInv
    (hkbBehaviorGraphStringData.getOrCreateEventID_rec fuel self ev).
Proof.
  revert self ev. induction fuel as [|fuel IH]; intros self ev;
    apply preserves_wp; intros s HI; simpl.
  - apply wp_raise. exact HI.
  - wp_keep IssuedInv ltac:(apply IH) issued_establish.
Qed.


Lemma IssuedInv_exec o : preserves IssuedInv (exec o).
Proof.
  apply preserves_wp. intros s HI.
  destruct o; simpl;
    wp_keep IssuedInv ltac:(apply IssuedInv_getOrCreateEventID_rec)
      issued_establish.
Qed.

Lemma IssuedInv_initial : IssuedInv initial.
Proof. exists 4. split; reflexivity. Qed.

Lemma run_app ops1 ops2 s : run (ops1 ++ ops2) s = run ops2 (run ops1 s).
Proof. revert s. induction ops1 as [|o ops1 IH]; intros s; simpl; auto. Qed.

(** Induction over sessions, last call last. *)
Lemma reachable_ind' (P : St -> Prop) :
  P initial ->
  (forall s o, reachable s -> P s -> P (fst (exec o s))) ->
  forall s, reachable s -> P s.
Proof.
  intros H0 Hstep s [ops ->].
  induction ops as [|o ops IH] using rev_ind; [exact H0|].
  rewrite run_app. simpl. apply Hstep; [exists ops; reflexivity | exact IH].
Qed.

Lemma reachable_step s o : reachable s -> reachable (fst (exec o s)).
Proof.
  intros [ops ->]. exists (ops ++ [o]). rewrite run_app. reflexivity.
Qed.

Lemma built_ind' (P : St -> Prop) :
  P initial ->
  (forall s o, built s -> is_mutation o = true -> P s -> P (fst (exec o s))) ->
  forall s, built s -> P s.
Proof.
  intros H0 Hstep s (ops & Hm & ->).
  induction ops as [|o ops IH] using rev_ind; [exact H0|].
  rewrite forallb_app in Hm. apply andb_prop in Hm as [Hm1 Hm2].
  simpl in Hm2. rewrite andb_true_r in Hm2.
  rewrite run_app. simpl. apply Hstep; auto.
  exists ops. auto.
Qed.

Lemma built_reachable s : built s -> reachable s.
Proof. intros (ops & _ & ->). exists ops. reflexivity. Qed.

Lemma reachable_issued s : reachable s -> IssuedInv s.
Proof.
  apply reachable_ind'; [exact IssuedInv_initial|].
  intros s0 o _ H. apply IssuedInv_exec. exact H.
Qed.

(** The order of tags: the order of the numbers they are the rendering
    of. *)
Definition tag_lt (t t' : string) : Prop :=
  exists n n', parse_tag t = Some n /\ parse_tag t' = Some n' /\ n < n'.

Lemma lookup_map_format_seq (a n i : nat) (t : string) :
  map format_tag (seq a n) !! i = Some t -> t = format_tag (a + i) /\ i < n.
Proof.
  rewrite list_lookup_fmap. intros H.
  destruct (seq a n !! i) as [k|] eqn:Hk; [|discriminate].
  apply lookup_seq in Hk as [-> Hlt]. simpl in H. split; [congruence|lia].
Qed.

Lemma NoDup_map_format_seq (a n : nat) : NoDup (map format_tag (seq a n)).
Proof.
  apply NoDup_fmap_2; [|apply NoDup_seq].
  intros x y. apply format_tag_inj.
Qed.

(** C2: in every state a builder can reach, the tags its allocator has
    issued, in the order of the calls, are strictly increasing and pairwise
    distinct, and the next call of [_OCnext] returns a tag strictly greater
    than every one of them. *)
Theorem tags_strictly_increasing (s : St) :
  reachable s ->
  (forall i j t t', i < j -> issued (snd s) !! i = Some t ->
                    issued (snd s) !! j = Some t' -> tag_lt t t') /\
  NoDup (issued (snd s)) /\
  exists t, snd (_OCnext s) = Ok t /\
            issued (snd (fst (_OCnext s))) = issued (snd s) ++ [t] /\
            forall t0, t0 ∈ issued (snd s) -> tag_lt t0 t.
Proof.
  intros Hr. destruct (reachable_issued s Hr) as (n & Hc & Hi).
  split; [|split].
  - intros i j t t' Hij Ht Ht'. rewrite Hi in Ht, Ht'.
    apply lookup_map_format_seq in Ht as [-> _].
    apply lookup_map_format_seq in Ht' as [-> _].
    exists (52 + i), (52 + j). rewrite !parse_format_tag.
    split; [reflexivity|]. split; [reflexivity|lia].
  - rewrite Hi. apply NoDup_map_format_seq.
  - exists (format_tag (S (object_counter (snd s)))).
    destruct s as [p b]. split; [reflexivity|]. split; [reflexivity|].
    intros t0 Ht0. simpl in *. rewrite Hi in Ht0.
    apply list_elem_of_lookup in Ht0 as [i Ht0].
    apply lookup_map_format_seq in Ht0 as [-> Hlt].
    exists (52 + i), (S (object_counter b)). rewrite !parse_format_tag.
    split; [reflexivity|]. split; [reflexivity|lia].
Qed.

Lemma tags_strictly_increasing_witness :
  let s := run [Add_state "Idle" "anim/idle.anim" true false (NStr "null")
                  (NStr "null");
                Connect_states "Idle" "Walk" "StartWalk"] initial in
  issued (snd s) = ["#0052"; "#0053"; "#0054"; "#0055"; "#0056"; "#0057";
                    "#0058"] /\
  NoDup (issued (snd s)).
Proof.
  split; [reflexivity|].
  apply (tags_strictly_increasing
           (run [Add_state "Idle" "anim/idle.anim" true false (NStr "null")
                   (NStr "null");
                 Connect_states "Idle" "Walk" "StartWalk"] initial)).
  eexists. reflexivity.
Defined.

(** ** How the store evolves *)

Lemma put_data r b s o :
  data (fst s) !! r = Some o ->
  data (fst (put r b s)) =
  <[ r := {| obj_name := obj_name o; obj_body := b |} ]> (data (fst s)).
Proof. intros H. unfold put. simpl. rewrite H. reflexivity. Qed.

(** [keeps P s s']: the objects of [s] whose fields satisfy [P] are the
    same in [s']. *)
Definition keeps (P : Body -> Prop) (s s' : St) : Prop :=
  forall r o, data (fst s) !! r = Some o -> P (obj_body o) ->
              data (fst s') !! r = Some o.

Lemma keeps_refl P s : keeps P s s.
Proof. intros r o H _. exact H. Qed.

Lemma keeps_trans P s1 s2 s3 : keeps P s1 s2 -> keeps P s2 s3 -> keeps P s1 s3.
Proof. intros H1 H2 r o H HP. apply H2; [apply H1|]; assumption. Qed.

Lemma keeps_same P s s' : data (fst s') = data (fst s) -> keeps P s s'.
Proof. intros E r o H _. rewrite E. exact H. Qed.

Lemma keeps_app P s s' l : data (fst s') = data (fst s) ++ l -> keeps P s s'.
Proof. intros E r o H _. rewrite E. apply lookup_app_l_Some. exact H. Qed.

Lemma keeps_alloc P b s : keeps P s (alloc b s).
Proof. eapply keeps_app. reflexivity. Qed.

Lemma keeps_put P r b s o :
  data (fst s) !! r = Some o -> ~ P (obj_body o) -> keeps P s (put r b s).
Proof.
  intros Ho Hn r' o' Ho' HP. rewrite (put_data _ _ _ _ Ho).
  destruct (decide (r = r')) as [->|Hne].
  - rewrite Ho in Ho'. injection Ho' as ->. contradiction.
  - rewrite list_lookup_insert_ne; assumption.
Qed.

(** The fields of an object that no method changes. *)
Definition immutable_part (b : Body) : Body :=
  match b with
  | StringData _ _ => StringData 0 []
  | GraphData _ _ v s => GraphData 0 [] v s
  | TransitionInfoArray _ _ => TransitionInfoArray 0 []
  | ClipGenerator n a _ l => ClipGenerator n a "" l
  | StateInfo en ex t g n i _ => StateInfo en ex t g n i None
  | EventPropertyArray n _ => EventPropertyArray n []
  | ClipTriggerArray _ _ => ClipTriggerArray 0 []
  | StateMachine nm st _ _ w => StateMachine nm st 0 [] w
  | BehaviorGraph n _ _ => BehaviorGraph n None None
  | b => b
  end.

Lemma class_name_immutable_part b :
  class_name (immutable_part b) = class_name b.
Proof. destruct b; reflexivity. Qed.

(** [ext s s']: every object of [s] is still there in [s'], under the same
    tag and with the same unchanging fields, and the state list has only
    grown at its end. *)
Definition ext (s s' : St) : Prop :=
  (forall r o, data (fst s) !! r = Some o ->
     exists o', data (fst s') !! r = Some o' /\ obj_name o' = obj_name o /\
                immutable_part (obj_body o') = immutable_part (obj_body o)) /\
  list_of_states (fst s) `prefix_of` list_of_states (fst s').

Lemma ext_refl s : ext s s.
Proof. split; [eauto | reflexivity]. Qed.

Lemma ext_trans s1 s2 s3 : ext s1 s2 -> ext s2 s3 -> ext s1 s3.
Proof.
  intros [H1 P1] [H2 P2]. split; [|etrans; eassumption].
  intros r o Ho. destruct (H1 r o Ho) as (o1 & Ho1 & Hn1 & Hi1).
  destruct (H2 r o1 Ho1) as (o2 & Ho2 & Hn2 & Hi2).
  exists o2. split; [exact Ho2|]. split; congruence.
Qed.

Lemma ext_same s s' :
  data (fst s') = data (fst s) ->
  list_of_states (fst s) `prefix_of` list_of_states (fst s') -> ext s s'.
Proof. intros E HP. split; [|exact HP]. intros r o Ho. rewrite E. eauto. Qed.

Lemma ext_app s s' l :
  data (fst s') = data (fst s) ++ l ->
  list_of_states (fst s') = list_of_states (fst s) -> ext s s'.
Proof.
  intros E EL. split; [|rewrite EL; reflexivity].
  intros r o Ho. rewrite E. exists o. split; [|auto].
  apply lookup_app_l_Some. exact Ho.
Qed.

Lemma ext_alloc b s : ext s (alloc b s).
Proof. eapply ext_app; reflexivity. Qed.

Lemma ext_put r b s o :
  data (fst s) !! r = Some o ->
  immutable_part b = immutable_part (obj_body o) -> ext s (put r b s).
Proof.
  intros Ho Hb. split; [|reflexivity].
  intros r' o' Ho'. rewrite (put_data _ _ _ _ Ho).
  destruct (decide (r = r')) as [->|Hne].
  - rewrite Ho in Ho'. injection Ho' as ->.
    eexists. split; [apply list_lookup_insert_eq; eapply lookup_lt_Some, Ho|].
    split; [reflexivity | exact Hb].
  - exists o'. rewrite list_lookup_insert_ne by assumption. auto.
Qed.

(** Closing [immutable_part b = immutable_part (obj_body o)] or
    [~ P (obj_body o)] from the equation [f (obj_body o) = Some b] of a
    method [f]. *)
Ltac by_method :=
  try (intros ?);
  match goal with
  | Hb : context [obj_body ?o] |- _ =>
      lazymatch type of Hb with
      | _ = Some _ =>
          destruct (obj_body o); simpl in *;
          try discriminate; try contradiction;
          try (injection Hb as <-); try reflexivity; try tauto
      end
  end.

Ltac ext_establish :=
  eapply ext_trans; [ eassumption | ];
  first [ apply ext_alloc
        | eapply ext_app; reflexivity
        | eapply ext_put; [ eassumption | by_method ]
        | apply ext_same; [ reflexivity | try reflexivity; apply prefix_app_r; reflexivity ] ].

Lemma ext_getOrCreateEventID_rec s0 fuel self ev :
  preserves (ext s0)
    (hkbBehaviorGraphStringData.getOrCreateEventID_rec fuel self ev).
Proof.
  revert self ev. induction fuel as [|fuel IH]; intros self ev;
    apply preserves_wp; intros s HI; simpl.
  - apply wp_raise. exact HI.
  - wp_keep (ext s0) ltac:(apply IH) ext_establish.
Qed.

Lemma ext_exec s0 o : preserves (ext s0) (exec o).
Proof.
  apply preserves_wp. intros s HI.
  destruct o; simpl;
    wp_keep (ext s0) ltac:(apply ext_getOrCreateEventID_rec) ext_establish.
Qed.

Lemma ext_run ops s : ext s (run ops s).
Proof.
  revert s. induction ops as [|o ops IH]; intros s; simpl.
  - apply ext_refl.
  - eapply ext_trans; [|apply IH]. apply ext_exec, ext_refl.
Qed.

(** ** The event tables *)

Lemma existsb_eqb_elem_of (x : string) (l : list string) :
  existsb (String.eqb x) l = true <-> x ∈ l.
Proof.
  rewrite existsb_exists, list_elem_of_In. split.
  - intros (y & Hy & He). apply String.eqb_eq in He. subst. exact Hy.
  - intros H. exists x. split; [exact H | apply String.eqb_refl].
Qed.

Lemma first_index_None (x : string) (l : list string) (i : nat) :
  hkbBehaviorGraphStringData.first_index x l i = None <-> x ∉ l.
Proof.
  revert i. induction l as [|y l IH]; intros i; simpl.
  - split; [intros _; apply not_elem_of_nil | reflexivity].
  - rewrite not_elem_of_cons. destruct (String.eqb_spec y x) as [->|Hne].
    + split; [discriminate | intros [H _]; contradiction].
    + rewrite IH. split; [intros H; split; [congruence | exact H] | tauto].
Qed.

Lemma first_index_Some (x : string) (l : list string) (i k : nat) :
  hkbBehaviorGraphStringData.first_index x l i = Some k ->
  i <= k /\ l !! (k - i) = Some x /\
  forall j, j < k - i -> l !! j <> Some x.
Proof.
  revert i. induction l as [|y l IH]; intros i; simpl; [discriminate|].
  destruct (String.eqb_spec y x) as [->|Hne].
  - intros [= <-]. rewrite Nat.sub_diag. split; [lia|]. split; [reflexivity|].
    intros j Hj. lia.
  - intros H. apply IH in H as (Hle & Hk & Hmin).
    replace (k - i) with (S (k - S i)) by lia.
    split; [lia|]. split; [exact Hk|].
    intros [|j] Hj; simpl; [congruence|]. apply Hmin. lia.
Qed.

Lemma first_index_app_new (x : string) (l : list string) (i : nat) :
  x ∉ l -> hkbBehaviorGraphStringData.first_index x (l ++ [x]) i = Some (i + length l).
Proof.
  revert i. induction l as [|y l IH]; intros i Hn; simpl.
  - rewrite String.eqb_refl. f_equal. lia.
  - apply not_elem_of_cons in Hn as [Hne Hn].
    destruct (String.eqb_spec y x) as [->|_]; [congruence|].
    rewrite IH by exact Hn. f_equal. lia.
Qed.

(** [event_tables s names infos]: the [eventNames] of the builder's
    string data are [names], its [eventInfos] carry the flags [infos], and
    each [numelements] is the number of children. *)
Definition event_tables (s : St) (names : list string) (infos : list Z)
  : Prop :=
  exists sd gd tsd tgd v t,
    hkbBehaviorGraphStringData (snd s) = Some sd /\
    hkbBehaviorGraphData (snd s) = Some gd /\
    data (fst s) !! sd
      = Some {| obj_name := tsd;
                obj_body := StringData (length names) names |} /\
    data (fst s) !! gd
      = Some {| obj_name := tgd;
                obj_body := GraphData (length infos) infos v t |}.

(** The tables go together, and the serialized names are the names
    looked up. *)
Definition EvInv (s : St) : Prop :=
  exists names infos,
    event_tables s names infos /\ length names = length infos /\
    event_name_list (fst s) = names.

Definition is_event_table (b : Body) : Prop :=
  match b with
  | StringData _ _ | GraphData _ _ _ _ => True
  | _ => False
  end.

Lemma event_tables_frame s s' names infos :
  event_tables s names infos ->
  hkbBehaviorGraphStringData (snd s') = hkbBehaviorGraphStringData (snd s) ->
  hkbBehaviorGraphData (snd s') = hkbBehaviorGraphData (snd s) ->
  keeps is_event_table s s' ->
  event_tables s' names infos.
Proof.
  intros (sd & gd & tsd & tgd & v & t & Hsd & Hgd & Ho1 & Ho2) E1 E2 Hk.
  exists sd, gd, tsd, tgd, v, t.
  rewrite E1, E2. split; [exact Hsd|]. split; [exact Hgd|].
  split; (apply Hk; [assumption | exact I]).
Qed.

Lemma EvInv_frame s s' :
  EvInv s ->
  hkbBehaviorGraphStringData (snd s') = hkbBehaviorGraphStringData (snd s) ->
  hkbBehaviorGraphData (snd s') = hkbBehaviorGraphData (snd s) ->
  event_name_list (fst s') = event_name_list (fst s) ->
  keeps is_event_table s s' ->
  EvInv s'.
Proof.
  intros (names & infos & Ht & Hl & He) E1 E2 E3 Hk.
  exists names, infos. split; [|split; [exact Hl | congruence]].
  eapply event_tables_frame; eassumption.
Qed.

(** What a first registration of [ev] does to the state. *)
Lemma wp_getOrCreateEventID_rec fuel sd ev Q s names infos :
  event_tables s names infos -> length names = length infos ->
  event_name_list (fst s) = names ->
  hkbBehaviorGraphStringData (snd s) = Some sd ->
  (forall i, hkbBehaviorGraphStringData.first_index ev names 0 = Some i -> Q (Ok i) s) ->
  (forall s', ev ∉ names ->
              event_tables s' (names ++ [ev]) (infos ++ [0%Z]) ->
              event_name_list (fst s') = names ++ [ev] ->
              snd s' = snd s ->
              keeps (fun b => ~ is_event_table b) s s' ->
              ext s s' ->
              list_of_states (fst s') = list_of_states (fst s) ->
              Q (Ok (length names)) s') ->
  wp (hkbBehaviorGraphStringData.getOrCreateEventID_rec (S (S fuel)) sd ev) Q s.
Proof.
  intros (sd' & gd & tsd & tgd & v & t & Hsd & Hgd & Ho1 & Ho2) Hl He Hsd'
    Hold Hnew.
  assert (sd' = sd) as -> by congruence.
  cbn [hkbBehaviorGraphStringData.getOrCreateEventID_rec].
  apply wp_bind, wp_gets. rewrite He.
  destruct (existsb (String.eqb ev) names) eqn:Hex.
  - unfold hkbBehaviorGraphStringData.get_eventID. apply wp_bind, wp_gets. rewrite He.
    apply wp_unwrap; [exact Hold|].
    intros Hn. apply first_index_None in Hn.
    apply existsb_eqb_elem_of in Hex. contradiction.
  - assert (Hnotin : ev ∉ names).
    { intros Hin. apply existsb_eqb_elem_of in Hin. congruence. }
    apply wp_bind. unfold hkbBehaviorGraphStringData.add_event.
    apply wp_bind, wp_gets. rewrite He, Hex.
    apply wp_bind, wp_ret. apply wp_bind, wp_update.
    2:{ intros Hnone. specialize (Hnone _ Ho1). discriminate. }
    intros o b Ho Hb. rewrite Ho1 in Ho. injection Ho as <-.
    simpl in Hb. injection Hb as <-.
    apply wp_bind, wp_modify, wp_warning. cbv beta iota.
    apply wp_bind, wp_attr; cbn [snd on_process put];
      [|intros Hn; simpl in Hn; congruence].
    intros gd' Hgd'. simpl in Hgd'. assert (gd' = gd) as -> by congruence.
    assert (Hne : sd <> gd).
    { intros ->. rewrite Ho1 in Ho2. discriminate. }
    apply wp_bind. unfold hkbBehaviorGraphData.add_event.
    set (s1 := on_process _ (on_process _ (put sd _ s))).
    assert (Hd1 : data (fst s1) =
                  <[ sd := {| obj_name := tsd;
                              obj_body := StringData (S (length names))
                                            (names ++ [ev]) |} ]>
                    (data (fst s))).
    { unfold s1. simpl. rewrite Ho1. reflexivity. }
    assert (Hg1 : data (fst s1) !! gd
                  = Some {| obj_name := tgd;
                            obj_body := GraphData (length infos) infos v t |}).
    { rewrite Hd1, list_lookup_insert_ne by exact Hne. exact Ho2. }
    apply wp_update.
    2:{ intros Hnone. specialize (Hnone _ Hg1). discriminate. }
    intros o b Ho Hb. rewrite Hg1 in Ho. injection Ho as <-.
    simpl in Hb. injection Hb as <-.
    cbv beta iota. cbn [hkbBehaviorGraphStringData.getOrCreateEventID_rec].
    set (s2 := put gd _ s1).
    assert (Hd2 : data (fst s2) =
                  <[ gd := {| obj_name := tgd;
                              obj_body := GraphData (S (length infos))
                                            (infos ++ [0%Z]) v t |} ]>
                    (data (fst s1))).
    { unfold s2. rewrite (put_data _ _ _ _ Hg1). reflexivity. }
    assert (He2 : event_name_list (fst s2) = names ++ [ev]).
    { unfold s2, s1. simpl. rewrite He. reflexivity. }
    apply wp_bind, wp_gets. rewrite He2.
    replace (existsb (String.eqb ev) (names ++ [ev])) with true.
    2:{ symmetry. apply existsb_eqb_elem_of, elem_of_app. right.
        apply list_elem_of_singleton. reflexivity. }
    unfold hkbBehaviorGraphStringData.get_eventID. apply wp_bind, wp_gets. rewrite He2.
    rewrite first_index_app_new by exact Hnotin. simpl.
    apply wp_ret. apply Hnew.
    + exact Hnotin.
    + exists sd, gd, tsd, tgd, v, t.
      split; [exact Hsd|]. split; [exact Hgd|].
      rewrite Hd2, Hd1. split.
      * rewrite list_lookup_insert_ne by congruence.
        rewrite list_lookup_insert_eq by (eapply lookup_lt_Some, Ho1).
        rewrite length_app, Nat.add_1_r. reflexivity.
      * rewrite list_lookup_insert_eq
          by (rewrite length_insert; eapply lookup_lt_Some, Ho2).
        rewrite length_app, Nat.add_1_r. reflexivity.
    + exact He2.
    + reflexivity.
    + intros r o Ho HP. rewrite Hd2, Hd1.
      rewrite !list_lookup_insert_ne; [exact Ho | |].
      * intros <-. rewrite Ho1 in Ho. injection Ho as <-. apply HP. exact I.
      * intros <-. rewrite Ho2 in Ho. injection Ho as <-. apply HP. exact I.
    + split; [|reflexivity].
      intros r o Ho. rewrite Hd2, Hd1.
      destruct (decide (r = gd)) as [->|Hr1].
      { rewrite list_lookup_insert_eq
          by (rewrite length_insert; eapply lookup_lt_Some, Ho2).
        rewrite Ho2 in Ho. injection Ho as <-. eauto. }
      rewrite list_lookup_insert_ne by congruence.
      destruct (decide (r = sd)) as [->|Hr2].
      { rewrite list_lookup_insert_eq by (eapply lookup_lt_Some, Ho1).
        rewrite Ho1 in Ho. injection Ho as <-. eauto. }
      rewrite list_lookup_insert_ne by congruence. eauto.
    + reflexivity.
Qed.


Lemma wp_getOrCreateEventID ev Q s names infos :
  event_tables s names infos -> length names = length infos ->
  event_name_list (fst s) = names ->
  (forall i, hkbBehaviorGraphStringData.first_index ev names 0 = Some i -> Q (Ok i) s) ->
  (forall s', ev ∉ names ->
              event_tables s' (names ++ [ev]) (infos ++ [0%Z]) ->
              event_name_list (fst s') = names ++ [ev] ->
              snd s' = snd s ->
              keeps (fun b => ~ is_event_table b) s s' ->
              ext s s' ->
              list_of_states (fst s') = list_of_states (fst s) ->
              Q (Ok (length names)) s') ->
  wp (getOrCreateEventID ev) Q s.
Proof.
  intros Ht Hl He Hold Hnew.
  unfold getOrCreateEventID.
  pose proof Ht as (sd & gd & tsd & tgd & v & t & Hsd & _).
  apply wp_bind, wp_attr; [|intros Hn; simpl in Hn; congruence].
  intros sd' Hsd'. simpl in Hsd'. assert (sd' = sd) as -> by congruence.
  unfold hkbBehaviorGraphStringData.getOrCreateEventID. change recursion_limit with (S (S 998)).
  eapply wp_getOrCreateEventID_rec; eassumption.
Qed.

Lemma EvInv_getOrCreateEventID ev :
  preserves EvInv (getOrCreateEventID ev).
Proof.
  apply preserves_wp. intros s (names & infos & Ht & Hl & He).
  eapply wp_getOrCreateEventID; try eassumption.
  - intros i _. exists names, infos. auto.
  - intros s' _ Ht' He' _ _ _ _. exists (names ++ [ev]), (infos ++ [0%Z]).
    split; [exact Ht'|]. split; [|exact He'].
    rewrite !length_app. simpl. lia.
Qed.

Ltac keeps_step :=
  first [ apply keeps_alloc
        | eapply keeps_app; reflexivity
        | eapply keeps_put; [ eassumption | by_method ]
        | apply keeps_same; reflexivity ].

Ltac EvInv_establish :=
  eapply EvInv_frame;
  [ eassumption | reflexivity | reflexivity | reflexivity | keeps_step ].

Lemma EvInv_exec o : preserves EvInv (exec o).
Proof.
  apply preserves_wp. intros s HI.
  destruct o; simpl;
    wp_keep EvInv ltac:(apply EvInv_getOrCreateEventID) EvInv_establish.
Qed.

Lemma EvInv_initial : EvInv initial.
Proof.
  exists [], []. split; [|split; reflexivity].
  exists 0, 2, "#0052", "#0054", "#0053", "#0052". repeat split.
Qed.

Lemma reachable_EvInv s : reachable s -> EvInv s.
Proof.
  apply reachable_ind'; [exact EvInv_initial|].
  intros s0 o _ H. apply EvInv_exec. exact H.
Qed.

(** A sequence of registrations, one after the other. *)
Definition register_all (evs : list string) (s : St) : St :=
  fold_left (fun s ev => fst (getOrCreateEventID ev s)) evs s.

Lemma EvInv_register_all evs s : EvInv s -> EvInv (register_all evs s).
Proof.
  revert s. induction evs as [|ev evs IH]; intros s H; simpl; [exact H|].
  apply IH, EvInv_getOrCreateEventID, H.
Qed.

Lemma wp_eq {A} (m : M A) (s s' : St) (r : Result A) :
  wp m (fun r0 s0 => r0 = r /\ s0 = s') s -> m s = (s', r).
Proof. unfold wp. destruct (m s) as [s0 r0]. simpl. intros [-> ->]. reflexivity. Qed.

(** The outcome of a registration in a state whose tables are paired. *)
Lemma getOrCreateEventID_outcome ev s names infos :
  event_tables s names infos -> length names = length infos ->
  event_name_list (fst s) = names ->
  exists id names1 infos1,
    snd (getOrCreateEventID ev s) = Ok id /\
    event_tables (fst (getOrCreateEventID ev s)) names1 infos1 /\
    length names1 = length infos1 /\
    event_name_list (fst (fst (getOrCreateEventID ev s))) = names1 /\
    hkbBehaviorGraphStringData.first_index ev names1 0 = Some id /\
    (ev ∈ names -> fst (getOrCreateEventID ev s) = s) /\
    (ev ∉ names -> id = length names /\ names1 = names ++ [ev] /\
                   infos1 = infos ++ [0%Z]).
Proof.
  intros Ht Hl He.
  change (wp (getOrCreateEventID ev)
            (fun r s' => exists id names1 infos1,
               r = Ok id /\ event_tables s' names1 infos1 /\
               length names1 = length infos1 /\
               event_name_list (fst s') = names1 /\
               hkbBehaviorGraphStringData.first_index ev names1 0 = Some id /\
               (ev ∈ names -> s' = s) /\
               (ev ∉ names -> id = length names /\ names1 = names ++ [ev] /\
                              infos1 = infos ++ [0%Z])) s).
  eapply wp_getOrCreateEventID; try eassumption.
  - intros i Hi. exists i, names, infos.
    split; [reflexivity|]. split; [exact Ht|]. split; [exact Hl|].
    split; [exact He|]. split; [exact Hi|]. split; [reflexivity|].
    intros Hn. apply first_index_None with (i := 0) in Hn. congruence.
  - intros s' Hn Ht' He' _ _ _ _.
    exists (length names), (names ++ [ev]), (infos ++ [0%Z]).
    split; [reflexivity|]. split; [exact Ht'|].
    split; [rewrite !length_app; simpl; lia|]. split; [exact He'|].
    split; [apply (first_index_app_new ev names 0 Hn)|].
    split; [intros Hin; contradiction | auto].
Qed.

(** C1: after any session of one builder, and after any sequence of
    registrations through [getOrCreateEventID] from there, the event-name
    table and the event-metadata table have the same length (each with a
    [numelements] equal to it); one more registration leaves them so, and
    registering the same name again returns the same id and changes
    nothing. *)
Theorem event_tables_stay_paired (s : St) (evs : list string) (ev : string) :
  reachable s ->
  let s1 := register_all evs s in
  let s2 := fst (getOrCreateEventID ev s1) in
  (exists names infos,
     event_tables s1 names infos /\ length names = length infos) /\
  (exists names infos,
     event_tables s2 names infos /\ length names = length infos) /\
  exists id, snd (getOrCreateEventID ev s1) = Ok id /\
             getOrCreateEventID ev s2 = (s2, Ok id).
Proof.
  intros Hr s1 s2.
  destruct (EvInv_register_all evs s (reachable_EvInv s Hr))
    as (names & infos & Ht & Hl & He). fold s1 in Ht, He.
  destruct (getOrCreateEventID_outcome ev s1 names infos Ht Hl He)
    as (id & names1 & infos1 & Hid & Ht1 & Hl1 & He1 & Hf & _ & _).
  fold s2 in Ht1, He1.
  split; [eauto|]. split; [eauto|].
  exists id. split; [exact Hid|].
  destruct (getOrCreateEventID_outcome ev s2 names1 infos1 Ht1 Hl1 He1)
    as (id' & names2 & infos2 & Hid' & _ & _ & He2 & Hf' & Hsame & _).
  apply first_index_Some in Hf as (_ & Hk & Hmin).
  rewrite Nat.sub_0_r in *.
  assert (Hin : ev ∈ names1) by (eapply list_elem_of_lookup_2, Hk).
  specialize (Hsame Hin). rewrite Hsame in He2.
  assert (names2 = names1) as -> by congruence.
  destruct (getOrCreateEventID ev s2) as [s3 r3]. simpl in *. subst s3 r3.
  f_equal. f_equal.
  apply first_index_Some in Hf' as (_ & Hk' & Hmin').
  rewrite Nat.sub_0_r in *.
  destruct (Nat.lt_trichotomy id id') as [H|[H|H]]; [|exact (eq_sym H)|].
  - exfalso. exact (Hmin' id H Hk).
  - exfalso. exact (Hmin id' H Hk').
Qed.

Lemma event_tables_stay_paired_witness :
  reachable initial /\
  exists id,
    getOrCreateEventID "StartWalk"
      (fst (getOrCreateEventID "StartWalk" initial))
    = (fst (getOrCreateEventID "StartWalk" initial), Ok id).
Proof.
  assert (Hr : reachable initial) by (exists []; reflexivity).
  split; [exact Hr|].
  destruct (event_tables_stay_paired initial [] "StartWalk" Hr)
    as (_ & _ & id & _ & H).
  exists id. exact H.
Defined.

(** For the first builder of a process (no other [BehaviorFile] has been
    created in it), event ids are dense and start at 0: in every state the
    builder can reach through its API, [getOrCreateEventID] returns the
    index of the name in the serialized [eventNames] list; for a name not
    registered before, that is the number of events registered before the
    call, and the name is appended at the end of the list. *)
Theorem event_ids_dense (s : St) (ev : string) :
  reachable s ->
  exists names infos id names1 infos1,
    event_tables s names infos /\
    snd (getOrCreateEventID ev s) = Ok id /\
    event_tables (fst (getOrCreateEventID ev s)) names1 infos1 /\
    names1 !! id = Some ev /\
    (ev ∉ names -> id = length names /\ names1 = names ++ [ev]).
Proof.
  intros Hr.
  destruct (reachable_EvInv s Hr) as (names & infos & Ht & Hl & He).
  destruct (getOrCreateEventID_outcome ev s names infos Ht Hl He)
    as (id & names1 & infos1 & Hid & Ht1 & _ & _ & Hf & _ & Hnew).
  exists names, infos, id, names1, infos1.
  split; [exact Ht|]. split; [exact Hid|]. split; [exact Ht1|].
  apply first_index_Some in Hf as (_ & Hk & _). rewrite Nat.sub_0_r in Hk.
  split; [exact Hk|].
  intros Hn. destruct (Hnew Hn) as (-> & -> & _). auto.
Qed.

Lemma event_ids_dense_witness :
  reachable initial /\
  exists names infos id names1 infos1,
    event_tables initial names infos /\
    snd (getOrCreateEventID "StartWalk" initial) = Ok id /\
    event_tables (fst (getOrCreateEventID "StartWalk" initial)) names1 infos1 /\
    names1 !! id = Some "StartWalk" /\
    ("StartWalk" ∉ names -> id = length names /\ names1 = names ++ ["StartWalk"]).
Proof.
  assert (Hr : reachable initial) by (exists []; reflexivity).
  split; [exact Hr|].
  exact (event_ids_dense initial "StartWalk" Hr).
Defined.

(** The scenario of the specification: two states connected both ways
    register two events, with ids 0 and 1. *)
Example ids_of_two_events :
  let s := run [Add_state "Idle" "anim/idle.anim" true false (NStr "null")
                  (NStr "null");
                Add_state "Walk" "anim/walk.anim" true false (NStr "null")
                  (NStr "null");
                Connect_states "Idle" "Walk" "StartWalk";
                Connect_states "Walk" "Idle" "StopWalk"] initial in
  event_name_list (fst s) = ["StartWalk"; "StopWalk"] /\
  snd (getOrCreateEventID "StartWalk" s) = Ok 0 /\
  snd (getOrCreateEventID "StopWalk" s) = Ok 1.
Proof. repeat split. Qed.

(** ** Calls that name a state that does not exist *)

(** A builder with the one state ["A"]. *)
Definition one_state : St :=
  run [Add_state "A" "animations\a.hkx" false false (NStr "null")
         (NStr "null")] initial.

(** A builder with the states ["A"] and ["B"]. *)
Definition two_states : St :=
  run [Add_state "A" "animations\a.hkx" false false (NStr "null")
         (NStr "null");
       Add_state "B" "animations\b.hkx" false false (NStr "null")
         (NStr "null")] initial.

(** C3: [connect_states] with a name that is not registered warns and goes
    on.  With no state at all it registers the event and then raises on
    the unbound loop variable; with ["B"] missing it adds to ["A"] a
    transition to the last state of the list, ["A"] itself; with ["X"]
    missing as the source it adds the transition to the table of the last
    state, ["B"]. *)
Theorem connect_states_unknown_state_goes_on :
  (snd (connect_states "A" "B" "go" initial) = Raise UnboundLocalError /\
   event_name_list (fst (fst (connect_states "A" "B" "go" initial))) = ["go"])
  /\
  (snd (connect_states "A" "B" "go" one_state) = Ok tt /\
   event_name_list (fst (fst (connect_states "A" "B" "go" one_state)))
   = ["go"] /\
   data (fst (fst (connect_states "A" "B" "go" one_state))) !! 4
   = Some {| obj_name := "#0056";
             obj_body := TransitionInfoArray 1
               [ {| t_transition := "#0055"; t_condition := "null";
                    t_eventId := 0; t_toStateId := 0;
                    t_flags := "FLAG_DISABLE_CONDITION" |} ] |} /\
   data (fst one_state) !! 4
   = Some {| obj_name := "#0056"; obj_body := TransitionInfoArray 0 [] |})
  /\
  (snd (connect_states "X" "A" "go" two_states) = Ok tt /\
   map stateTransitions (list_of_states (fst two_states)) = [4; 7] /\
   data (fst (fst (connect_states "X" "A" "go" two_states))) !! 7
   = Some {| obj_name := "#0059";
             obj_body := TransitionInfoArray 1
               [ {| t_transition := "#0055"; t_condition := "null";
                    t_eventId := 0; t_toStateId := 0;
                    t_flags := "FLAG_DISABLE_CONDITION" |} ] |}).
Proof. vm_compute. repeat split. Qed.

(** C8: [add_clip_trigger] for a state that is not registered warns and
    goes on with the last state of the list: it returns normally, creates
    a trigger table for ["A"], registers the event and adds the trigger.
    Only with no state at all does it raise, on the unbound loop
    variable. *)
Theorem add_clip_trigger_unknown_state_goes_on :
  snd (add_clip_trigger "B" "ev" false (PyInt 0) initial)
  = Raise UnboundLocalError /\
  snd (add_clip_trigger "B" "ev" false (PyInt 0) one_state) = Ok tt /\
  event_name_list (fst (fst (add_clip_trigger "B" "ev" false (PyInt 0)
                               one_state))) = ["ev"] /\
  data (fst (fst (add_clip_trigger "B" "ev" false (PyInt 0) one_state))) !! 7
  = Some {| obj_name := "#0059";
            obj_body := ClipTriggerArray 1
              [ Finished {| tr_localTime := S754_zero false; tr_eventId := 0;
                            tr_relativeToEndOfClip := false |} ] |} /\
  data (fst (fst (add_clip_trigger "B" "ev" false (PyInt 0) one_state))) !! 5
  = Some {| obj_name := "#0057";
            obj_body := ClipGenerator "A" "animations\a.hkx" "#0059" false |} /\
  length (data (fst one_state)) = 7.
Proof. vm_compute. repeat split. Qed.

(** ** Two builders in one process *)

(** The process and the first builder after [b1 = BehaviorFile()]. *)
Definition first_builder : St := fst (new_BehaviorFile fresh_process).

(** The process and the second builder after [b2 = BehaviorFile()]. *)
Definition second_builder : St := fst (new_BehaviorFile (fst first_builder)).

(** The process and the first builder after
    [b1.add_state("A", "animations\a.hkx")], called once [b2] exists. *)
Definition first_builder_adds : St :=
  fst (add_state "A" "animations\a.hkx" false false (NStr "null") (NStr "null")
         (fst second_builder, snd first_builder)).

(** C5: the state list and the document are attributes of the class,
    shared by all builders.  Creating [b2] appends to the document [b1]
    writes, with the tags [b1] has used; a state added through [b1] is in
    the state list [b2] reads, so that [b2] cannot add a state of that
    name.  Only the counters are per builder. *)
Theorem builders_share_class_attributes :
  map obj_name (data (fst first_builder))
  = ["#0052"; "#0053"; "#0054"; "#0055"] /\
  map obj_name (data (fst second_builder))
  = ["#0052"; "#0053"; "#0054"; "#0055"; "#0052"; "#0053"; "#0054"; "#0055"] /\
  list_of_states (fst second_builder) = [] /\
  map stateName (list_of_states (fst first_builder_adds)) = ["A"] /\
  length (data (fst first_builder_adds)) = 11 /\
  list_of_states
    (fst (fst (add_state "A" "animations\other.hkx" false false (NStr "null")
                 (NStr "null") (fst first_builder_adds, snd second_builder))))
  = list_of_states (fst first_builder_adds) /\
  object_counter (snd second_builder) = 55 /\
  object_counter (snd first_builder_adds) = 58.
Proof. vm_compute. repeat split. Qed.

(** ** The state list *)

Definition names_of (s : St) : list string :=
  map stateName (list_of_states (fst s)).

(** [add_state] registers: the animation path is given or the state is a
    legacy one, and no state has the name yet. *)
Definition registers (name animation_path : string) (gamebryoanim : bool)
  (s : St) : bool :=
  negb (negb gamebryoanim && String.eqb animation_path "placeholder")
  && negb (existsb (fun e => String.eqb (stateName e) name)
             (list_of_states (fst s))).

Lemma existsb_stateName name l :
  existsb (fun e => String.eqb (stateName e) name) l = true
  <-> name ∈ map stateName l.
Proof.
  rewrite existsb_exists, list_elem_of_fmap. split.
  - intros (e & He & Hn). apply String.eqb_eq in Hn.
    exists e. rewrite <- list_elem_of_In in He. auto.
  - intros (e & -> & He). exists e. rewrite <- list_elem_of_In.
    split; [exact He | apply String.eqb_refl].
Qed.

Definition list_is (L : list StateEntry) (s : St) : Prop :=
  list_of_states (fst s) = L.

Lemma list_is_getOrCreateEventID_rec L fuel self ev :
  preserves (list_is L)
    (hkbBehaviorGraphStringData.getOrCreateEventID_rec fuel self ev).
Proof.
  revert self ev. induction fuel as [|fuel IH]; intros self ev;
    apply preserves_wp; intros s HI; simpl.
  - apply wp_raise. exact HI.
  - wp_keep (list_is L) ltac:(apply IH) fail.
Qed.

(** What [add_state] does to the state list: nothing, or one entry of the
    new name at its end, and this only when the name was not there. *)
Lemma add_state_list name path looping g en ex s :
  wp (add_state name path looping g en ex)
    (fun _ s' =>
       list_of_states (fst s') = list_of_states (fst s) \/
       (registers name path g s = true /\
        exists e, stateName e = name /\
                  list_of_states (fst s') = list_of_states (fst s) ++ [e])) s.
Proof.
  unfold add_state, registers.
  remember (list_of_states (fst s)) as L eqn:EL.
  assert (HI : list_is L s) by (symmetry; exact EL).
  wp_keep (list_is L) ltac:(apply list_is_getOrCreateEventID_rec)
    ltac:(left; assumption).
  all: apply wp_modify; cbv beta iota.
  all: lazymatch goal with
       | HI : list_is ?L0 ?s1 |- context [wp _ _ (on_process
                (with_list_of_states (fun l => l ++ [?e])) ?s1)] =>
           let H2 := fresh "HL" in
           let s2 := fresh "s" in
           assert (H2 : list_is (L0 ++ [e])
                          (on_process (with_list_of_states
                                         (fun l => l ++ [e])) s1))
             by (unfold list_is in *; simpl; rewrite HI; reflexivity);
           revert H2;
           generalize (on_process (with_list_of_states (fun l => l ++ [e])) s1);
           intros s2 H2;
           wp_keep (list_is (L0 ++ [e])) fail
             ltac:(right; split;
                   [ subst L0;
                     repeat match goal with
                            | H : _ = false |- _ => rewrite H
                            end; reflexivity
                   | eexists; split; [ | eassumption ]; reflexivity ])
       end.
Qed.

Lemma list_is_other_calls L o :
  match o with Add_state _ _ _ _ _ _ => False | _ => True end ->
  preserves (list_is L) (exec o).
Proof.
  intros Ho. apply preserves_wp. intros s HI.
  destruct o; [contradiction| | | |]; simpl;
    wp_keep (list_is L) ltac:(apply list_is_getOrCreateEventID_rec) fail.
Qed.

(** The effect of any call on the state list. *)
Lemma exec_list o s :
  list_of_states (fst (fst (exec o s))) = list_of_states (fst s) \/
  exists name path looping g en ex e,
    o = Add_state name path looping g en ex /\
    registers name path g s = true /\ stateName e = name /\
    list_of_states (fst (fst (exec o s))) = list_of_states (fst s) ++ [e].
Proof.
  destruct o as [name path looping g en ex| | | |].
  { destruct (add_state_list name path looping g en ex s)
      as [H|(Hr & e & He & H)]; [left; exact H|].
    right. exists name, path, looping, g, en, ex, e. auto. }
  all: left; refine (list_is_other_calls _ _ _ s eq_refl); exact I.
Qed.

(** State names are unique. *)
Definition NoDupNames (s : St) : Prop := NoDup (names_of s).

Lemma registers_fresh name path g s :
  registers name path g s = true -> name ∉ names_of s.
Proof.
  unfold registers. intros H. apply andb_prop in H as [_ H].
  apply negb_true_iff in H. intros Hin.
  apply existsb_stateName in Hin. congruence.
Qed.

Lemma NoDupNames_exec o : preserves NoDupNames (exec o).
Proof.
  intros s H. unfold NoDupNames, names_of in *.
  destruct (exec_list o s)
    as [->|(name & path & looping & g & en & ex & e & -> & Hr & He & ->)];
    [exact H|].
  rewrite map_app. simpl. apply NoDup_app. split; [exact H|].
  split; [|apply NoDup_singleton].
  intros x Hx Hx'. apply list_elem_of_singleton in Hx'. subst x.
  rewrite He in Hx. exact (registers_fresh _ _ _ _ Hr Hx).
Qed.

Lemma reachable_NoDupNames s : reachable s -> NoDupNames s.
Proof.
  apply reachable_ind'; [apply NoDup_nil_2|].
  intros s0 o _ H. apply NoDupNames_exec. exact H.
Qed.

(** ** What [add_state] builds *)

(** The classes whose objects [add_state] may change: the event tables
    and the event lists of states. *)
Definition add_state_may_change (b : Body) : Prop :=
  match b with
  | StringData _ _ | GraphData _ _ _ _ | EventPropertyArray _ _ => True
  | _ => False
  end.

(** [frame s s']: from [s] to [s'] only objects of those classes have
    changed, and the state list, the state counter and the attributes bound
    to wrappers are the same. *)
Definition frame (s s' : St) : Prop :=
  ext s s' /\
  keeps (fun b => ~ add_state_may_change b) s s' /\
  list_of_states (fst s') = list_of_states (fst s) /\
  nStates (snd s') = nStates (snd s) /\
  forall a, getattr a (snd s') = getattr a (snd s).

Lemma frame_refl s : frame s s.
Proof.
  split; [apply ext_refl|]. split; [apply keeps_refl|]. auto.
Qed.

Lemma frame_trans s1 s2 s3 : frame s1 s2 -> frame s2 s3 -> frame s1 s3.
Proof.
  intros (E1 & K1 & L1 & N1 & A1) (E2 & K2 & L2 & N2 & A2).
  split; [eapply ext_trans; eassumption|].
  split; [eapply keeps_trans; eassumption|].
  split; [congruence|]. split; [congruence|].
  intros a. rewrite A2. apply A1.
Qed.

Lemma frame_alloc b s : frame s (alloc b s).
Proof.
  split; [apply ext_alloc|]. split; [apply keeps_alloc|].
  split; [reflexivity|]. split; [reflexivity|]. intros []; reflexivity.
Qed.

Lemma frame_put r b s o :
  data (fst s) !! r = Some o ->
  immutable_part b = immutable_part (obj_body o) ->
  add_state_may_change (obj_body o) ->
  frame s (put r b s).
Proof.
  intros Ho Hi Hc.
  split; [eapply ext_put; eassumption|].
  split; [eapply keeps_put; [eassumption | tauto]|].
  split; [reflexivity|]. split; [reflexivity|]. intros []; reflexivity.
Qed.

Lemma frame_same s s' :
  data (fst s') = data (fst s) ->
  list_of_states (fst s') = list_of_states (fst s) ->
  nStates (snd s') = nStates (snd s) ->
  (forall a, getattr a (snd s') = getattr a (snd s)) ->
  frame s s'.
Proof.
  intros D L N A.
  split; [apply ext_same; [exact D | rewrite L; reflexivity]|].
  split; [apply keeps_same, D|]. auto.
Qed.

Ltac frame_establish :=
  eapply frame_trans; [ eassumption | ];
  first [ apply frame_alloc
        | eapply frame_put; [ eassumption | by_method | by_method ]
        | apply frame_same; [ reflexivity | reflexivity | reflexivity
                            | intros []; reflexivity ] ].

Lemma frame_getOrCreateEventID_rec s0 fuel self ev :
  preserves (frame s0)
    (hkbBehaviorGraphStringData.getOrCreateEventID_rec fuel self ev).
Proof.
  revert self ev. induction fuel as [|fuel IH]; intros self ev;
    apply preserves_wp; intros s HI; simpl.
  - apply wp_raise. exact HI.
  - wp_keep (frame s0) ltac:(apply IH) frame_establish.
Qed.

Lemma frame_notify_array s0 events :
  preserves (frame s0) (notify_array events).
Proof.
  apply preserves_wp. intros s HI. unfold notify_array.
  wp_keep (frame s0) ltac:(apply frame_getOrCreateEventID_rec)
    frame_establish.
Qed.

Definition class_at (s : St) (r : ref) (c : string) : Prop :=
  exists o, data (fst s) !! r = Some o /\ class_name (obj_body o) = c.

Lemma class_at_ext s s' r c : ext s s' -> class_at s r c -> class_at s' r c.
Proof.
  intros [He _] (o & Ho & Hc). destruct (He r o Ho) as (o' & Ho' & _ & Hi).
  exists o'. split; [exact Ho'|].
  rewrite <- Hc.
  rewrite <- (class_name_immutable_part (obj_body o')).
  rewrite <- (class_name_immutable_part (obj_body o)).
  f_equal. exact Hi.
Qed.

Lemma wp_for_each_ok {A} (I : St -> Prop) (l : list A) (body : A -> M unit)
  (Q : Result unit -> St -> Prop) s :
  I s ->
  (forall x s0, In x l -> I s0 ->
                wp (body x) (fun r s1 => r = Ok tt /\ I s1) s0) ->
  (forall s', I s' -> Q (Ok tt) s') ->
  wp (for_each l body) Q s.
Proof.
  intros HI Hbody HQ. revert s HI.
  induction l as [|x l IH]; intros s HI; simpl.
  - apply wp_ret. auto.
  - apply wp_bind. eapply wp_mono.
    + apply Hbody; [left; reflexivity | exact HI].
    + intros r s1 [-> H1]. apply IH; [|exact H1].
      intros y s0 Hy. apply Hbody. right. exact Hy.
Qed.

Lemma wp_and {A} (m : M A) (Q1 Q2 : Result A -> St -> Prop) s :
  wp m Q1 s -> wp m Q2 s -> wp m (fun r s' => Q1 r s' /\ Q2 r s') s.
Proof. unfold wp. auto. Qed.

Lemma getOrCreateEventID_ok ev s :
  EvInv s ->
  wp (getOrCreateEventID ev)
    (fun r s' => (exists id, r = Ok id) /\ EvInv s' /\ ext s s') s.
Proof.
  intros (names & infos & Ht & Hl & He).
  eapply wp_getOrCreateEventID; try eassumption.
  - intros i _. split; [eauto|]. split; [|apply ext_refl].
    exists names, infos. auto.
  - intros s' _ Ht' He' _ _ Hext _. split; [eauto|]. split; [|exact Hext].
    exists (names ++ [ev]), (infos ++ [0%Z]).
    split; [exact Ht'|]. split; [|exact He'].
    rewrite !length_app. simpl. lia.
Qed.

Lemma class_at_alloc b s :
  class_at (alloc b s) (length (data (fst s))) (class_name b).
Proof.
  exists {| obj_name := format_tag (S (object_counter (snd s)));
            obj_body := b |}.
  split; [|reflexivity]. simpl. apply list_lookup_middle. reflexivity.
Qed.

Lemma notify_array_ok events s :
  EvInv s ->
  wp (notify_array events)
    (fun r s' =>
       exists o, r = Ok o /\ EvInv s' /\
                 forall ref, o = Some ref ->
                   class_at s' ref "hkbStateMachineEventPropertyArray") s.
Proof.
  intros HI. unfold notify_array.
  destruct (is_null events).
  { apply wp_ret. exists None. split; [reflexivity|]. split; [exact HI|].
    discriminate. }
  unfold hkbStateMachineEventPropertyArray.__init__.
  apply wp_bind, wp_bind, wp_new_hkobject. cbv beta iota.
  set (self := length (data (fst s))).
  set (evs := match events with NList l => l | NStr s0 => [s0] end).
  apply wp_bind.
  apply (wp_for_each_ok
           (fun s' => EvInv s' /\
                      class_at s' self "hkbStateMachineEventPropertyArray")).
  - split; [EvInv_establish | apply class_at_alloc].
  - intros ev s0 _ [HE HC]. apply wp_bind.
    eapply wp_mono; [apply getOrCreateEventID_ok, HE|].
    intros r s1 Hpost. destruct Hpost as ((id & Hr) & HE1 & Hext). subst r.
    cbv beta iota.
    destruct (class_at_ext _ _ _ _ Hext HC) as (o & Ho & Hc).
    apply wp_update.
    + intros o' b Ho' Hb. rewrite Ho in Ho'. injection Ho' as <-.
      split; [reflexivity|]. split; [EvInv_establish|].
      exists {| obj_name := obj_name o; obj_body := b |}.
      rewrite (put_data _ _ _ _ Ho).
      split; [apply list_lookup_insert_eq; eapply lookup_lt_Some, Ho|].
      destruct (obj_body o); simpl in *; try discriminate.
      injection Hb as <-. reflexivity.
    + intros Hn. specialize (Hn o Ho).
      destruct (obj_body o); simpl in *; discriminate.
  - intros s' [HE HC]. apply wp_ret. exists (Some self).
    split; [reflexivity|]. split; [exact HE|].
    intros ref [= <-]. exact HC.
Qed.

Lemma wp_deref_known r o Q s :
  data (fst s) !! r = Some o -> Q (Ok o) s -> wp (deref r) Q s.
Proof.
  intros Ho HQ. apply wp_deref; [|congruence].
  intros o' Ho'. rewrite Ho in Ho'. injection Ho' as <-. exact HQ.
Qed.

Lemma wp_tag_of_known r o Q s :
  data (fst s) !! r = Some o -> Q (Ok (obj_name o)) s -> wp (tag_of r) Q s.
Proof.
  intros Ho HQ. unfold tag_of. apply wp_bind. eapply wp_deref_known; eauto.
Qed.

Lemma wp_has_class_known c r o Q s :
  data (fst s) !! r = Some o ->
  Q (Ok (String.eqb (class_name (obj_body o)) c)) s ->
  wp (has_class c r) Q s.
Proof.
  intros Ho HQ. unfold has_class. apply wp_bind. eapply wp_deref_known; eauto.
Qed.

Lemma wp_tag_or_null_ok o Q s :
  (forall r, o = Some r -> exists ob, data (fst s) !! r = Some ob) ->
  (forall t, match o with
             | Some r => exists ob, data (fst s) !! r = Some ob /\ t = obj_name ob
             | None => t = "null"
             end -> Q (Ok t) s) ->
  wp (tag_or_null o) Q s.
Proof.
  intros Hs HQ. destruct o as [r|]; simpl.
  - destruct (Hs r eq_refl) as (ob & Hob).
    eapply wp_tag_of_known; [exact Hob|]. apply HQ. eauto.
  - apply wp_ret. apply HQ. reflexivity.
Qed.

(** What [add_state] appends when it registers. *)
Definition registered (name path : string) (looping g : bool) (s s' : St)
  : Prop :=
  exists e tt tg ts en_t ex_t,
    list_of_states (fst s') = list_of_states (fst s) ++ [e] /\
    stateName e = name /\
    stateTransitions e = length (data (fst s)) /\
    stateGenerator e = S (length (data (fst s))) /\
    S (length (data (fst s))) < stateInfo e < length (data (fst s')) /\
    data (fst s') !! stateTransitions e
    = Some {| obj_name := tt; obj_body := TransitionInfoArray 0 [] |} /\
    data (fst s') !! stateGenerator e
    = Some {| obj_name := tg;
              obj_body := if g then GamebryoSequenceGenerator name
                          else ClipGenerator name path "null" looping |} /\
    data (fst s') !! stateInfo e
    = Some {| obj_name := ts;
              obj_body := StateInfo en_t ex_t tt tg name (nStates (snd s))
                            None |} /\
    nStates (snd s') = S (nStates (snd s)).

Lemma add_state_ok name path looping g en ex s :
  EvInv s ->
  wp (add_state name path looping g en ex)
    (fun r s' => r = Ok tt /\
                 (registers name path g s = true ->
                  registered name path looping g s s')) s.
Proof.
  intros HE. unfold add_state, registers.
  destruct (negb g && String.eqb path "placeholder") eqn:Hp.
  { apply wp_warning. split; [reflexivity | discriminate]. }
  apply wp_bind, wp_gets. cbv beta iota.
  destruct (existsb _ (list_of_states (fst s))) eqn:Hex.
  { apply wp_warning. split; [reflexivity | discriminate]. }
  apply wp_bind. unfold hkbStateMachineTransitionInfoArray.__init__.
  apply wp_new_hkobject. cbv beta iota.
  set (s1 := alloc (TransitionInfoArray 0 []) s).
  assert (HE1 : EvInv s1) by (unfold s1; EvInv_establish).
  apply wp_bind.
  set (G := if g then GamebryoSequenceGenerator name
            else ClipGenerator name path "null" looping).
  replace (if negb g then hkbClipGenerator.__init__ name path "null" looping
           else BGSGamebryoSequenceGenerator.__init__ name)
    with (new_hkobject G) by (unfold G; destruct g; reflexivity).
  apply wp_new_hkobject. cbv beta iota.
  set (s2 := alloc G s1).
  assert (HE2 : EvInv s2) by (unfold s2; EvInv_establish).
  replace (length (data (fst s1))) with (S (length (data (fst s))))
    by (unfold s1; simpl; rewrite length_app; simpl; lia).
  set (rt := length (data (fst s))).
  assert (Ht2 : data (fst s2) !! rt
                = Some {| obj_name := format_tag (S (object_counter (snd s)));
                          obj_body := TransitionInfoArray 0 [] |}).
  { unfold s2, s1. simpl. rewrite <- app_assoc. apply list_lookup_middle.
    reflexivity. }
  assert (Hg2 : data (fst s2) !! S rt
                = Some {| obj_name :=
                            format_tag (S (S (object_counter (snd s))));
                          obj_body := G |}).
  { unfold s2, s1. simpl. apply list_lookup_middle.
    rewrite length_app. simpl. unfold rt. lia. }
  apply wp_bind.
  eapply wp_mono;
    [ refine (wp_and _ _ (fun _ s' => frame s2 s') s2 _ _);
      [ apply notify_array_ok, HE2
      | exact (frame_notify_array s2 en s2 (frame_refl s2)) ] | ].
  intros r s3 [(o_en & Hr3 & HE3 & Hty_en) Hf3]. subst r. cbv beta iota.
  apply wp_bind.
  eapply wp_mono;
    [ refine (wp_and _ _ (fun _ s' => frame s3 s') s3 _ _);
      [ apply notify_array_ok, HE3
      | exact (frame_notify_array s3 ex s3 (frame_refl s3)) ] | ].
  intros r s4 [(o_ex & Hr4 & HE4 & Hty_ex) Hf4]. subst r. cbv beta iota.
  pose proof (frame_trans _ _ _ Hf3 Hf4) as Hf24.
  destruct Hf24 as (Hext24 & Hk24 & Hl24 & Hn24 & Ha24).
  assert (Ht4 := Hk24 _ _ Ht2 (fun H => H)).
  assert (Hg4 : data (fst s4) !! S rt
                = Some {| obj_name :=
                            format_tag (S (S (object_counter (snd s))));
                          obj_body := G |}).
  { apply Hk24; [exact Hg2|]. unfold G. destruct g; exact (fun H => H). }
  apply wp_bind, wp_gets. cbv beta iota.
  apply wp_bind. unfold hkbStateMachineStateInfo.__init__.
  apply wp_bind. eapply wp_has_class_known; [exact Hg4|]. cbv beta iota.
  apply wp_bind. eapply wp_has_class_known; [exact Hg4|]. cbv beta iota.
  apply wp_bind, wp_assert;
    [intros _ | unfold G; destruct g; discriminate]. cbv beta iota.
  apply wp_bind. eapply wp_has_class_known; [exact Ht4|]. cbv beta iota.
  apply wp_bind, wp_assert; [intros _ | discriminate]. cbv beta iota.
  assert (Hty4 : forall r, o_en = Some r ->
                   class_at s4 r "hkbStateMachineEventPropertyArray").
  { intros r Hr. eapply class_at_ext; [apply Hf4 | apply Hty_en, Hr]. }
  apply wp_bind.
  apply (wp_for_each_ok (fun s' => s' = s4)); [reflexivity| |].
  { intros r s0 Hin ->.
    assert (Hc : class_at s4 r "hkbStateMachineEventPropertyArray").
    { apply in_app_or in Hin as [Hin|Hin].
      - apply Hty_ex. destruct o_ex; simpl in Hin; [|contradiction].
        destruct Hin as [->|[]]. reflexivity.
      - apply Hty4. destruct o_en; simpl in Hin; [|contradiction].
        destruct Hin as [->|[]]. reflexivity. }
    destruct Hc as (o & Ho & Hc).
    apply wp_bind. eapply wp_has_class_known; [exact Ho|]. cbv beta iota.
    rewrite Hc. apply wp_assert; [auto | discriminate]. }
  intros s' ->.
  apply wp_bind, wp_tag_or_null_ok.
  { intros r Hr. destruct (Hty4 r Hr) as (o & Ho & _). eauto. }
  intros en_t _. cbv beta iota.
  apply wp_bind, wp_tag_or_null_ok.
  { intros r Hr. destruct (Hty_ex r Hr) as (o & Ho & _). eauto. }
  intros ex_t _. cbv beta iota.
  apply wp_bind. eapply wp_tag_of_known; [exact Ht4|]. cbv beta iota.
  apply wp_bind. eapply wp_tag_of_known; [exact Hg4|]. cbv beta iota.
  apply wp_new_hkobject. cbv beta iota.
  apply wp_bind, wp_modify. cbv beta iota.
  apply wp_bind, wp_modify. cbv beta iota.
  apply wp_bind. unfold hkbStateMachineStateInfo.stateIdx.
  apply wp_bind. eapply wp_deref_known.
  { simpl. apply list_lookup_middle. reflexivity. }
  cbv beta iota. simpl obj_body. cbv beta iota. apply wp_ret.
  apply wp_warning.
  split; [reflexivity|]. intros _.
  eexists _, _, _, _, en_t, ex_t. simpl.
  assert (Hlen : S rt < length (data (fst s4))).
  { eapply lookup_lt_Some, Hg4. }
  split; [rewrite Hl24; reflexivity|]. split; [reflexivity|].
  split; [reflexivity|]. split; [reflexivity|].
  split; [rewrite length_app; simpl; fold rt; lia|].
  split; [apply lookup_app_l_Some, Ht4|].
  split; [apply lookup_app_l_Some, Hg4|].
  split; [|rewrite Hn24; reflexivity].
  rewrite list_lookup_middle by reflexivity.
  rewrite Hn24. reflexivity.
Qed.

(** ** The element counts *)

(** The finished entries among the children of a [triggers] array. *)
Fixpoint finished_triggers (l : list TriggerObj) : list Trigger :=
  match l with
  | [] => []
  | Finished t :: l' => t :: finished_triggers l'
  | Unfinished :: l' => finished_triggers l'
  end.

Lemma finished_triggers_app l l' :
  finished_triggers (l ++ l') = finished_triggers l ++ finished_triggers l'.
Proof.
  induction l as [|[t|] l IH]; simpl; [reflexivity | f_equal; exact IH | exact IH].
Qed.

(** The element count written next to a transition table is the number of
    its children; the one next to a trigger table is the number of its
    finished children. *)
Definition body_counts_ok (b : Body) : Prop :=
  match b with
  | TransitionInfoArray n ts => n = length ts
  | ClipTriggerArray n ts => n = length (finished_triggers ts)
  | _ => True
  end.

Definition CountsInv (s : St) : Prop :=
  forall r o, data (fst s) !! r = Some o -> body_counts_ok (obj_body o).

Lemma CountsInv_app s s' b t :
  CountsInv s -> body_counts_ok b ->
  data (fst s') = data (fst s) ++ [ {| obj_name := t; obj_body := b |} ] ->
  CountsInv s'.
Proof.
  intros H Hb E r o Ho. rewrite E in Ho.
  apply lookup_app_Some in Ho as [Ho|[_ Ho]]; [eapply H, Ho|].
  apply list_lookup_singleton_Some in Ho as [_ <-]. exact Hb.
Qed.

Lemma CountsInv_put s r o b :
  CountsInv s -> data (fst s) !! r = Some o -> body_counts_ok b ->
  CountsInv (put r b s).
Proof.
  intros H Ho Hb r' o' Ho'. rewrite (put_data _ _ _ _ Ho) in Ho'.
  destruct (decide (r = r')) as [->|Hne].
  - rewrite list_lookup_insert_eq in Ho' by (eapply lookup_lt_Some, Ho).
    injection Ho' as <-. exact Hb.
  - rewrite list_lookup_insert_ne in Ho' by exact Hne. eapply H, Ho'.
Qed.

(** Closing [body_counts_ok b] from the equation of the method that made
    [b] and from the count of the object it was applied to. *)
Ltac counts_by_method :=
  match goal with
  | H : CountsInv ?s, Ho : data (fst ?s) !! _ = Some ?o,
    Hb : context [obj_body ?o] |- _ =>
      lazymatch type of Hb with
      | _ = Some _ =>
          let Hc := fresh "Hc" in
          pose proof (H _ _ Ho) as Hc;
          destruct (obj_body o); simpl in *; try discriminate;
          injection Hb as <-; simpl;
          rewrite ?length_app; simpl; try lia; try exact I
      end
  end.

Lemma CountsInv_same s s' :
  CountsInv s -> data (fst s') = data (fst s) -> CountsInv s'.
Proof. intros H E r o. rewrite E. apply H. Qed.

Ltac CountsInv_establish :=
  first [ eapply CountsInv_same; [ eassumption | reflexivity ]
        | eapply CountsInv_app;
          [ eassumption | | reflexivity ]; first [ exact I | reflexivity ]
        | eapply CountsInv_put; [ eassumption | eassumption
                                | counts_by_method ] ].

Lemma CountsInv_add_trigger self lt id rel :
  preserves CountsInv (hkbClipTriggerArray.add_trigger self lt id rel).
Proof.
  apply preserves_wp. intros s HI. unfold hkbClipTriggerArray.add_trigger.
  apply wp_bind, wp_update; [|intros _; exact HI].
  intros o b Ho Hb. cbv beta iota.
  pose proof (HI _ _ Ho) as Hc.
  destruct (obj_body o) as [| | | | | | | | |n ts| | |] eqn:Eo;
    try discriminate.
  injection Hb as <-. simpl in Hc.
  assert (H1 : CountsInv (put self (ClipTriggerArray n (ts ++ [Unfinished])) s)).
  { eapply CountsInv_put; [exact HI | exact Ho |]. simpl.
    rewrite finished_triggers_app. simpl. rewrite app_nil_r. exact Hc. }
  assert (Ho1 : data (fst (put self (ClipTriggerArray n (ts ++ [Unfinished])) s))
                  !! self
                = Some {| obj_name := obj_name o;
                          obj_body := ClipTriggerArray n (ts ++ [Unfinished]) |}).
  { rewrite (put_data _ _ _ _ Ho). apply list_lookup_insert_eq.
    eapply lookup_lt_Some, Ho. }
  apply wp_bind, wp_unwrap; [intros t Ht | intros _; exact H1].
  cbv beta iota.
  apply wp_update; [|intros _; exact H1].
  intros o' b' Ho' Hb'. rewrite Ho1 in Ho'. injection Ho' as <-.
  simpl in Hb'. injection Hb' as <-.
  eapply CountsInv_put; [exact H1 | exact Ho1 |]. simpl.
  rewrite removelast_last, finished_triggers_app. simpl.
  rewrite length_app. simpl. lia.
Qed.

Lemma CountsInv_getOrCreateEventID_rec fuel self ev :
  preserves CountsInv
    (hkbBehaviorGraphStringData.getOrCreateEventID_rec fuel self ev).
Proof.
  revert self ev. induction fuel as [|fuel IH]; intros self ev;
    apply preserves_wp; intros s HI; simpl.
  - apply wp_raise. exact HI.
  - wp_keep CountsInv ltac:(apply IH) CountsInv_establish.
Qed.

Lemma CountsInv_exec o : preserves CountsInv (exec o).
Proof.
  apply preserves_wp. intros s HI.
  destruct o; simpl;
    wp_keep CountsInv
      ltac:(first [ apply CountsInv_getOrCreateEventID_rec
                  | apply CountsInv_add_trigger ])
      CountsInv_establish.
Qed.

Lemma CountsInv_initial : CountsInv initial.
Proof.
  intros r o Ho. do 4 (destruct r as [|r]; [injection Ho as <-; exact I|]).
  discriminate.
Qed.

(** ** The wrappers a builder holds *)

(** The four wrappers made by [__init__] stay bound to the attributes. *)
Definition HandlesInv (s : St) : Prop :=
  hkbBehaviorGraphStringData (snd s) = Some 0 /\
  hkbVariableValueSet (snd s) = Some 1 /\
  hkbBehaviorGraphData (snd s) = Some 2 /\
  blend_effect (snd s) = Some 3.

Ltac Handles_establish :=
  idtac;
  match goal with
  | H : HandlesInv _ |- _ => unfold HandlesInv in *; simpl; exact H
  end.

Lemma HandlesInv_getOrCreateEventID_rec fuel self ev :
  preserves HandlesInv
    (hkbBehaviorGraphStringData.getOrCreateEventID_rec fuel self ev).
Proof.
  revert self ev. induction fuel as [|fuel IH]; intros self ev;
    apply preserves_wp; intros s HI; simpl.
  - apply wp_raise. exact HI.
  - wp_keep HandlesInv ltac:(apply IH) Handles_establish.
Qed.

Lemma HandlesInv_exec o : preserves HandlesInv (exec o).
Proof.
  apply preserves_wp. intros s HI.
  destruct o; simpl;
    wp_keep HandlesInv ltac:(apply HandlesInv_getOrCreateEventID_rec)
      Handles_establish.
Qed.

Lemma reachable_HandlesInv s : reachable s -> HandlesInv s.
Proof.
  apply reachable_ind'; [repeat split|].
  intros s0 o _ H. apply HandlesInv_exec. exact H.
Qed.

(** The state counter moves only in [add_state]. *)
Definition nStates_is (n : nat) (s : St) : Prop := nStates (snd s) = n.

Ltac nStates_establish :=
  idtac;
  match goal with
  | H : nStates_is _ _ |- _ => unfold nStates_is in *; simpl; exact H
  end.

Lemma nStates_is_getOrCreateEventID_rec n fuel self ev :
  preserves (nStates_is n)
    (hkbBehaviorGraphStringData.getOrCreateEventID_rec fuel self ev).
Proof.
  revert self ev. induction fuel as [|fuel IH]; intros self ev;
    apply preserves_wp; intros s HI; simpl.
  - apply wp_raise. exact HI.
  - wp_keep (nStates_is n) ltac:(apply IH) nStates_establish.
Qed.

Lemma nStates_is_other_calls n o :
  match o with Add_state _ _ _ _ _ _ => False | _ => True end ->
  preserves (nStates_is n) (exec o).
Proof.
  intros Ho. apply preserves_wp. intros s HI.
  destruct o; [contradiction| | | |]; simpl;
    wp_keep (nStates_is n) ltac:(apply nStates_is_getOrCreateEventID_rec)
      nStates_establish.
Qed.

(** [add_state] that does not register only warns. *)
Lemma add_state_rejected name path looping g en ex s :
  registers name path g s = false ->
  exists msg,
    add_state name path looping g en ex s
    = (on_process (with_log (fun l => l ++ [msg])) s, Ok tt).
Proof.
  unfold registers, add_state. intros H.
  destruct (negb g && String.eqb path "placeholder") eqn:Hp.
  { eexists. reflexivity. }
  simpl in H. apply negb_false_iff in H.
  unfold bind, gets. simpl. rewrite H. eexists. reflexivity.
Qed.

(** ** The tables made on demand *)

Ltac ext_step :=
  first [ apply ext_alloc
        | eapply ext_app; reflexivity
        | eapply ext_put; [ eassumption | by_method ]
        | apply ext_same;
          [ reflexivity | try reflexivity; apply prefix_app_r; reflexivity ] ].

Lemma ext_length s s' :
  ext s s' -> length (data (fst s)) <= length (data (fst s')).
Proof.
  intros [He _].
  destruct (data (fst s) !! (length (data (fst s)) - 1)) as [o|] eqn:E.
  - destruct (He _ _ E) as (o' & Ho' & _).
    apply lookup_lt_Some in Ho'. lia.
  - apply lookup_ge_None in E. lia.
Qed.

(** The trigger table a state holds, if any. *)
Definition clip_of (b : Body) : option nat :=
  match b with
  | StateInfo _ _ _ _ _ _ c => c
  | _ => None
  end.

(** The trigger table of a state is a trigger table. *)
Definition ClipInv (s : St) : Prop :=
  forall r o c, data (fst s) !! r = Some o -> clip_of (obj_body o) = Some c ->
                class_at s c "hkbClipTriggerArray".

Lemma ClipInv_same s s' :
  ClipInv s -> data (fst s') = data (fst s) -> ClipInv s'.
Proof.
  intros H E r o c Ho Hc. rewrite E in Ho.
  destruct (H r o c Ho Hc) as (oc & Hoc & Hk). exists oc. rewrite E. auto.
Qed.

Lemma ClipInv_app s s' o :
  ClipInv s -> data (fst s') = data (fst s) ++ [o] ->
  clip_of (obj_body o) = None -> ClipInv s'.
Proof.
  intros H E Hn r o' c Ho Hc. rewrite E in Ho.
  assert (Hold : forall c, class_at s c "hkbClipTriggerArray" ->
                           class_at s' c "hkbClipTriggerArray").
  { intros c0 (oc & Hoc & Hk). exists oc. rewrite E.
    split; [apply lookup_app_l_Some, Hoc | exact Hk]. }
  apply lookup_app_Some in Ho as [Ho|[_ Ho]].
  - apply Hold. eapply H; eassumption.
  - apply list_lookup_singleton_Some in Ho as [_ <-]. congruence.
Qed.

Lemma ClipInv_put r b s o :
  ClipInv s -> data (fst s) !! r = Some o ->
  immutable_part b = immutable_part (obj_body o) ->
  (forall c, clip_of b = Some c ->
             clip_of (obj_body o) = Some c \/
             class_at s c "hkbClipTriggerArray") ->
  ClipInv (put r b s).
Proof.
  intros H Ho Hi Hb r' o' c Ho' Hc.
  pose proof (ext_put _ _ _ _ Ho Hi) as Hext.
  rewrite (put_data _ _ _ _ Ho) in Ho'.
  eapply class_at_ext; [exact Hext|].
  destruct (decide (r = r')) as [->|Hne].
  - rewrite list_lookup_insert_eq in Ho' by (eapply lookup_lt_Some, Ho).
    injection Ho' as <-. simpl in Hc.
    destruct (Hb c Hc) as [Hold|Hnew]; [|exact Hnew].
    eapply H; eassumption.
  - rewrite list_lookup_insert_ne in Ho' by exact Hne.
    eapply H; eassumption.
Qed.

Ltac clip_by_method :=
  let c := fresh "c" in
  let Hc := fresh "Hc" in
  intros c Hc; left;
  match goal with
  | Hb : context [obj_body ?o] |- _ =>
      lazymatch type of Hb with
      | _ = Some _ =>
          destruct (obj_body o); simpl in *; try discriminate;
          injection Hb as <-; simpl in Hc; first [ discriminate | exact Hc ]
      end
  end.

Ltac ClipInv_establish :=
  first [ eapply ClipInv_same; [ eassumption | reflexivity ]
        | eapply ClipInv_app; [ eassumption | reflexivity | reflexivity ]
        | eapply ClipInv_put;
          [ eassumption | eassumption | by_method | clip_by_method ] ].

Lemma ClipInv_getOrCreateClipTriggerArray self :
  preserves ClipInv (hkbStateMachineStateInfo.getOrCreateClipTriggerArray self).
Proof.
  apply preserves_wp. intros s HI.
  unfold hkbStateMachineStateInfo.getOrCreateClipTriggerArray.
  apply wp_bind, wp_deref; [|intros _; exact HI].
  intros o Ho.
  destruct (obj_body o) as [| | | | | | |? ? ? ? ? ? [c|]| | | | |] eqn:Eo;
    try (apply wp_raise; exact HI).
  { apply wp_ret; exact HI. }
  unfold hkbClipTriggerArray.__init__.
  apply wp_bind, wp_new_hkobject. cbv beta iota.
  assert (HI1 : ClipInv (alloc (ClipTriggerArray 0 []) s)).
  { eapply ClipInv_app; [exact HI | reflexivity | reflexivity]. }
  apply wp_bind, wp_update.
  - intros o' b Ho' Hb. cbv beta iota. apply wp_ret.
    eapply ClipInv_put; [exact HI1 | exact Ho' | by_method |].
    intros c Hc. right.
    destruct (obj_body o'); simpl in Hb; try discriminate.
    injection Hb as <-. simpl in Hc. injection Hc as <-.
    apply class_at_alloc.
  - intros _. exact HI1.
Qed.

Lemma ClipInv_getOrCreateEventID_rec fuel self ev :
  preserves ClipInv
    (hkbBehaviorGraphStringData.getOrCreateEventID_rec fuel self ev).
Proof.
  revert self ev. induction fuel as [|fuel IH]; intros self ev;
    apply preserves_wp; intros s HI; simpl.
  - apply wp_raise. exact HI.
  - wp_keep ClipInv ltac:(apply IH) ClipInv_establish.
Qed.

Lemma ClipInv_exec o : preserves ClipInv (exec o).
Proof.
  apply preserves_wp. intros s HI.
  destruct o; simpl;
    wp_keep ClipInv
      ltac:(first [ apply ClipInv_getOrCreateEventID_rec
                  | apply ClipInv_getOrCreateClipTriggerArray ])
      ClipInv_establish.
Qed.

Lemma ClipInv_initial : ClipInv initial.
Proof.
  intros r o c Ho Hc.
  do 4 (destruct r as [|r]; [injection Ho as <-; discriminate|]).
  discriminate.
Qed.

Lemma reachable_ClipInv s : reachable s -> ClipInv s.
Proof.
  apply reachable_ind'; [apply ClipInv_initial|].
  intros s0 o _ H. apply ClipInv_exec. exact H.
Qed.

(** The transition tables are in the document; the wildcard table, once
    made, is a transition table and belongs to no state. *)
Definition WildInv (s : St) : Prop :=
  (forall e, e ∈ list_of_states (fst s) ->
             stateTransitions e < length (data (fst s))) /\
  forall w, wildcardtransitions (snd s) = Some w ->
            class_at s w "hkbStateMachineTransitionInfoArray" /\
            w ∉ map stateTransitions (list_of_states (fst s)).

Lemma WildInv_step s s' :
  WildInv s -> ext s s' ->
  list_of_states (fst s') = list_of_states (fst s) ->
  wildcardtransitions (snd s') = wildcardtransitions (snd s) ->
  WildInv s'.
Proof.
  intros [Hb Hw] Hext EL EW. split.
  - intros e He. rewrite EL in He. specialize (Hb e He).
    pose proof (ext_length _ _ Hext). lia.
  - intros w Hw'. rewrite EW in Hw'. destruct (Hw w Hw') as [Hc Hn].
    split; [eapply class_at_ext; eassumption|]. rewrite EL. exact Hn.
Qed.

Ltac WildInv_establish :=
  eapply WildInv_step; [ eassumption | ext_step | reflexivity | reflexivity ].

Lemma WildInv_getOrCreatewildcardtransitions :
  preserves WildInv getOrCreatewildcardtransitions.
Proof.
  apply preserves_wp. intros s HI. unfold getOrCreatewildcardtransitions.
  apply wp_bind, wp_gets. cbv beta iota.
  destruct (wildcardtransitions (snd s)) as [w|] eqn:Ew;
    [apply wp_ret; exact HI|].
  unfold hkbStateMachineTransitionInfoArray.__init__.
  apply wp_bind, wp_new_hkobject. cbv beta iota.
  apply wp_bind, wp_modify. cbv beta iota. apply wp_ret.
  destruct HI as [Hb Hw]. split.
  - intros e He. simpl in *. specialize (Hb e He).
    rewrite length_app. simpl. lia.
  - intros w Hw'. simpl in Hw'. injection Hw' as <-. split.
    + destruct (class_at_alloc (TransitionInfoArray 0 []) s) as (o & Ho & Hc).
      exists o. split; [exact Ho | exact Hc].
    + simpl. intros Hin. apply list_elem_of_fmap in Hin as (e & He1 & He2).
      specialize (Hb e He2). lia.
Qed.

Lemma WildInv_getOrCreateEventID_rec fuel self ev :
  preserves WildInv
    (hkbBehaviorGraphStringData.getOrCreateEventID_rec fuel self ev).
Proof.
  revert self ev. induction fuel as [|fuel IH]; intros self ev;
    apply preserves_wp; intros s HI; simpl.
  - apply wp_raise. exact HI.
  - wp_keep WildInv ltac:(apply IH) WildInv_establish.
Qed.

Lemma WildInv_other_calls o :
  match o with Add_state _ _ _ _ _ _ => False | _ => True end ->
  preserves WildInv (exec o).
Proof.
  intros Ho. apply preserves_wp. intros s HI.
  destruct o; [contradiction| | | |]; simpl;
    wp_keep WildInv
      ltac:(first [ apply WildInv_getOrCreateEventID_rec
                  | apply WildInv_getOrCreatewildcardtransitions ])
      WildInv_establish.
Qed.

(** [add_state] leaves the wildcard table alone. *)
Definition wild_is (w : option nat) (s : St) : Prop :=
  wildcardtransitions (snd s) = w.

Ltac wild_establish :=
  idtac;
  match goal with
  | H : wild_is _ _ |- _ => unfold wild_is in *; simpl; exact H
  end.

Lemma wild_is_getOrCreateEventID_rec w fuel self ev :
  preserves (wild_is w)
    (hkbBehaviorGraphStringData.getOrCreateEventID_rec fuel self ev).
Proof.
  revert self ev. induction fuel as [|fuel IH]; intros self ev;
    apply preserves_wp; intros s HI; simpl.
  - apply wp_raise. exact HI.
  - wp_keep (wild_is w) ltac:(apply IH) wild_establish.
Qed.

Lemma wild_is_other_calls w o :
  match o with Add_wildcard _ _ => False | _ => True end ->
  preserves (wild_is w) (exec o).
Proof.
  intros Ho. apply preserves_wp. intros s HI.
  destruct o; [| | |contradiction|]; simpl;
    wp_keep (wild_is w) ltac:(apply wild_is_getOrCreateEventID_rec)
      wild_establish.
Qed.

(** ** What holds of every state a builder reaches *)

(** [imm_at s r t b]: the object at [r] has the tag [t] and the unchanging
    fields [b]. *)
Definition imm_at (s : St) (r : nat) (t : string) (b : Body) : Prop :=
  exists o, data (fst s) !! r = Some o /\ obj_name o = t /\
            immutable_part (obj_body o) = b.

Lemma imm_at_ext s s' r t b : ext s s' -> imm_at s r t b -> imm_at s' r t b.
Proof.
  intros [He _] (o & Ho & Hn & Hi).
  destruct (He r o Ho) as (o' & Ho' & Hn' & Hi').
  exists o'. split; [exact Ho'|]. split; congruence.
Qed.

Lemma imm_at_lookup s r t b :
  data (fst s) !! r = Some {| obj_name := t; obj_body := b |} ->
  imm_at s r t (immutable_part b).
Proof. intros H. eexists. split; [exact H|]. split; reflexivity. Qed.

Definition generator_of (name : string) (b : Body) : Prop :=
  match b with
  | ClipGenerator n _ _ _ => n = name
  | GamebryoSequenceGenerator n => n = name
  | _ => False
  end.

(** The entry [e] at position [i] of the state list: its state object
    carries the name and the index [i], and names the tags of the entry's
    generator and transition table. *)
Definition entry_ok (s : St) (i : nat) (e : StateEntry) : Prop :=
  exists ts tt tg en ex G,
    imm_at s (stateInfo e) ts (StateInfo en ex tt tg (stateName e) i None) /\
    imm_at s (stateTransitions e) tt (TransitionInfoArray 0 []) /\
    imm_at s (stateGenerator e) tg G /\ generator_of (stateName e) G.

Lemma entry_ok_ext s s' i e : ext s s' -> entry_ok s i e -> entry_ok s' i e.
Proof.
  intros Hext (ts & tt & tg & en & ex & G & H1 & H2 & H3 & H4).
  exists ts, tt, tg, en, ex, G.
  split; [eapply imm_at_ext; eassumption|].
  split; [eapply imm_at_ext; eassumption|].
  split; [eapply imm_at_ext; eassumption|exact H4].
Qed.

Definition StatesInv (s : St) : Prop :=
  nStates (snd s) = length (list_of_states (fst s)) /\
  forall i e, list_of_states (fst s) !! i = Some e -> entry_ok s i e.

Definition Inv (s : St) : Prop :=
  EvInv s /\ HandlesInv s /\ CountsInv s /\ ClipInv s /\ WildInv s /\
  StatesInv s.

Lemma add_state_registered name path looping g en ex s :
  EvInv s -> registers name path g s = true ->
  registered name path looping g s
    (fst (add_state name path looping g en ex s)).
Proof.
  intros HE Hr.
  destruct (add_state_ok name path looping g en ex s HE) as [_ H].
  exact (H Hr).
Qed.

Lemma StatesInv_exec o s :
  EvInv s -> StatesInv s -> StatesInv (fst (exec o s)).
Proof.
  intros HE [Hn Hes].
  pose proof (ext_exec s o s (ext_refl s)) as Hext.
  assert (Hsame : list_of_states (fst (fst (exec o s)))
                  = list_of_states (fst s) ->
                  nStates (snd (fst (exec o s))) = nStates (snd s) ->
                  StatesInv (fst (exec o s))).
  { intros EL EN. split; [congruence|].
    intros i e He. rewrite EL in He.
    eapply entry_ok_ext; [exact Hext | apply Hes, He]. }
  destruct o as [name path looping g en ex| | | |].
  2-5: apply Hsame;
    [ refine (list_is_other_calls _ _ _ s eq_refl); exact I
    | refine (nStates_is_other_calls _ _ _ s eq_refl); exact I ].
  destruct (registers name path g s) eqn:Hr.
  - pose proof (add_state_registered name path looping g en ex s HE Hr)
      as (e & tt & tg & ts & en_t & ex_t & EL & Hname & Htr & Hgen & Hsi
          & Lt & Lg & Ls & EN).
    simpl in Hext |- *. split.
    + rewrite EL, EN, length_app. simpl. lia.
    + intros i e' He'. rewrite EL in He'.
      apply lookup_app_Some in He' as [He'|[Hge He']].
      * eapply entry_ok_ext; [exact Hext | apply Hes, He'].
      * apply list_lookup_singleton_Some in He' as [Hi <-].
        assert (i = nStates (snd s)) as -> by lia.
        exists ts, tt, tg, en_t, ex_t,
          (immutable_part (if g then GamebryoSequenceGenerator name
                           else ClipGenerator name path "null" looping)).
        rewrite Hname.
        split; [exact (imm_at_lookup _ _ _ _ Ls)|].
        split; [exact (imm_at_lookup _ _ _ _ Lt)|].
        split; [exact (imm_at_lookup _ _ _ _ Lg)|].
        destruct g; reflexivity.
  - destruct (add_state_rejected name path looping g en ex s Hr) as [msg E].
    apply Hsame; simpl; rewrite E; reflexivity.
Qed.

Lemma wild_is_add_state w name path looping g en ex :
  preserves (wild_is w) (add_state name path looping g en ex).
Proof.
  exact (wild_is_other_calls w (Add_state name path looping g en ex) I).
Qed.

Lemma WildInv_exec o s :
  EvInv s -> WildInv s -> WildInv (fst (exec o s)).
Proof.
  intros HE HW.
  destruct o as [name path looping g en ex| | | |].
  2-5: refine (WildInv_other_calls _ _ s HW); exact I.
  simpl.
  destruct (registers name path g s) eqn:Hr.
  - pose proof (ext_exec s (Add_state name path looping g en ex) s
                  (ext_refl s)) as Hext.
    pose proof (wild_is_add_state _ name path looping g en ex s eq_refl)
      as Hw.
    pose proof (add_state_registered name path looping g en ex s HE Hr)
      as (e & tt & tg & ts & en_t & ex_t & EL & Hname & Htr & Hgen & Hsi
          & Lt & Lg & Ls & EN).
    simpl in Hext. unfold wild_is in Hw. destruct HW as [Hb Hwild]. split.
    + intros e' He'. rewrite EL in He'.
      apply elem_of_app in He' as [He'|He'].
      * specialize (Hb e' He'). pose proof (ext_length _ _ Hext). lia.
      * apply list_elem_of_singleton in He'. subst e'.
        eapply lookup_lt_Some, Lt.
    + intros w Hw'. rewrite Hw in Hw'. destruct (Hwild w Hw') as [Hc Hn].
      split; [eapply class_at_ext; eassumption|].
      rewrite EL, map_app. simpl. intros Hin.
      apply elem_of_app in Hin as [Hin|Hin]; [contradiction|].
      apply list_elem_of_singleton in Hin.
      destruct Hc as (o & Ho & _). apply lookup_lt_Some in Ho. lia.
  - destruct (add_state_rejected name path looping g en ex s Hr) as [msg E].
    rewrite E. simpl.
    eapply WildInv_step; [exact HW | | reflexivity | reflexivity].
    apply ext_same; reflexivity.
Qed.

Lemma Inv_exec o s : Inv s -> Inv (fst (exec o s)).
Proof.
  intros (HE & HH & HC & HCl & HW & HS).
  split; [apply EvInv_exec, HE|].
  split; [apply HandlesInv_exec, HH|].
  split; [apply CountsInv_exec, HC|].
  split; [apply ClipInv_exec, HCl|].
  split; [apply WildInv_exec; assumption|].
  apply StatesInv_exec; assumption.
Qed.

Lemma Inv_initial : Inv initial.
Proof.
  split; [apply EvInv_initial|].
  split; [repeat split|].
  split; [apply CountsInv_initial|].
  split; [apply ClipInv_initial|].
  split; [|split; [reflexivity | intros i e He; discriminate]].
  split; [intros e He; inversion He | intros w Hw; discriminate].
Qed.

Lemma reachable_Inv s : reachable s -> Inv s.
Proof.
  apply reachable_ind'; [apply Inv_initial|].
  intros s0 o _ H. apply Inv_exec. exact H.
Qed.

(** ** The loop that looks a state up *)

Lemma for_break_hit x l bound :
  x ∈ map stateName l ->
  exists i e, for_break x l bound = (Some e, true) /\ l !! i = Some e /\
              stateName e = x /\
              forall j e', j < i -> l !! j = Some e' -> stateName e' <> x.
Proof.
  revert bound. induction l as [|e l IH]; intros bound Hin; simpl in *.
  { inversion Hin. }
  destruct (String.eqb (stateName e) x) eqn:E.
  - apply String.eqb_eq in E. exists 0, e.
    split; [reflexivity|]. split; [reflexivity|]. split; [exact E|].
    intros j e' Hj. lia.
  - apply String.eqb_neq in E.
    apply elem_of_cons in Hin as [Hin|Hin]; [congruence|].
    destruct (IH (Some e) Hin) as (i & e0 & H1 & H2 & H3 & H4).
    exists (S i), e0. split; [exact H1|]. split; [exact H2|].
    split; [exact H3|].
    intros [|j] e' Hj He'; simpl in He'.
    + injection He' as <-. exact E.
    + eapply H4; [|exact He']. lia.
Qed.

Lemma for_break_miss x l bound :
  x ∉ map stateName l ->
  for_break x l bound = (match last l with Some e => Some e | None => bound end,
                         false).
Proof.
  revert bound. induction l as [|e l IH]; intros bound Hn; simpl in *.
  { reflexivity. }
  apply not_elem_of_cons in Hn as [Hne Hn].
  destruct (String.eqb (stateName e) x) eqn:E.
  { apply String.eqb_eq in E. congruence. }
  rewrite (IH (Some e) Hn). destruct l as [|e' l']; [reflexivity|].
  change (last (e :: e' :: l')) with (last (e' :: l')).
  destruct (last (e' :: l')) eqn:El; [reflexivity|].
  apply last_None in El. discriminate.
Qed.

(** With unique names the entry of a name is the one the loop stops at. *)
Lemma for_break_entry x l i e bound :
  NoDup (map stateName l) -> l !! i = Some e -> stateName e = x ->
  for_break x l bound = (Some e, true).
Proof.
  intros Hnd Hi Hx.
  assert (Hin : x ∈ map stateName l).
  { apply list_elem_of_fmap. exists e. split; [auto|].
    eapply list_elem_of_lookup_2, Hi. }
  destruct (for_break_hit x l bound Hin) as (i' & e' & H1 & H2 & H3 & _).
  rewrite H1. f_equal. f_equal.
  assert (i = i').
  { apply (NoDup_lookup _ i i' x Hnd); rewrite list_lookup_fmap.
    - rewrite Hi. simpl. congruence.
    - rewrite H2. simpl. congruence. }
  subst i'. congruence.
Qed.

(** ** States that differ in the log only *)

Definition quiet (s s' : St) : Prop :=
  data (fst s') = data (fst s) /\
  list_of_states (fst s') = list_of_states (fst s) /\
  event_name_list (fst s') = event_name_list (fst s) /\
  hkbStateMachine_list_of_states (fst s')
  = hkbStateMachine_list_of_states (fst s) /\
  files (fst s') = files (fst s) /\
  snd s' = snd s.

Lemma quiet_refl s : quiet s s.
Proof. repeat split. Qed.

Lemma quiet_warning msg s :
  quiet s (on_process (with_log (fun l => l ++ [msg])) s).
Proof. repeat split. Qed.

Lemma quiet_trans s1 s2 s3 : quiet s1 s2 -> quiet s2 s3 -> quiet s1 s3.
Proof.
  intros (A1 & A2 & A3 & A4 & A5 & A6) (B1 & B2 & B3 & B4 & B5 & B6).
  repeat split; congruence.
Qed.

Lemma wp_warn_unless (c : bool) msg Q s :
  (forall s', quiet s s' -> Q (Ok tt) s') ->
  wp (if c then ret tt else warning msg) Q s.
Proof.
  intros H. destruct c.
  - apply wp_ret, H, quiet_refl.
  - apply wp_warning, H, quiet_warning.
Qed.

Lemma quiet_ext s s' : quiet s s' -> ext s s'.
Proof.
  intros (D & L & _). apply ext_same; [exact D | rewrite L; reflexivity].
Qed.

Lemma Inv_quiet s s' : Inv s -> quiet s s' -> Inv s'.
Proof.
  intros (HE & HH & HC & HCl & HW & [Hn Hes]) Hq.
  pose proof (quiet_ext _ _ Hq) as Hext.
  destruct Hq as (D & L & E & _ & _ & B).
  split.
  { eapply EvInv_frame; [exact HE | | | exact E | apply keeps_same, D];
      rewrite B; reflexivity. }
  split; [unfold HandlesInv; rewrite B; exact HH|].
  split; [eapply CountsInv_same; eassumption|].
  split; [eapply ClipInv_same; eassumption|].
  split.
  { eapply WildInv_step; [exact HW | exact Hext | exact L |].
    rewrite B. reflexivity. }
  split; [rewrite B, L; exact Hn|].
  intros i e He. rewrite L in He.
  eapply entry_ok_ext; [exact Hext | apply Hes, He].
Qed.

(** ** What registering an event does *)

Definition tags_are (N : list string) (s : St) : Prop :=
  map obj_name (data (fst s)) = N.

Lemma put_names r b s :
  map obj_name (data (fst (put r b s))) = map obj_name (data (fst s)).
Proof.
  unfold put. simpl. destruct (data (fst s) !! r) as [o|] eqn:Ho;
    [|reflexivity].
  rewrite list_fmap_insert. simpl. apply list_insert_id.
  rewrite list_lookup_fmap, Ho. reflexivity.
Qed.

Ltac tags_establish :=
  idtac;
  match goal with
  | H : tags_are _ _ |- _ =>
      unfold tags_are in *; first [ rewrite put_names; exact H | exact H ]
  end.

Lemma tags_are_getOrCreateEventID_rec N fuel self ev :
  preserves (tags_are N)
    (hkbBehaviorGraphStringData.getOrCreateEventID_rec fuel self ev).
Proof.
  revert self ev. induction fuel as [|fuel IH]; intros self ev;
    apply preserves_wp; intros s HI; simpl.
  - apply wp_raise. exact HI.
  - wp_keep (tags_are N) ltac:(apply IH) tags_establish.
Qed.

Lemma tags_are_getOrCreateEventID N ev :
  preserves (tags_are N) (getOrCreateEventID ev).
Proof.
  apply preserves_wp. intros s HI. unfold getOrCreateEventID.
  wp_keep (tags_are N) ltac:(apply tags_are_getOrCreateEventID_rec)
    tags_establish.
Qed.

Lemma getOrCreateEventID_spec ev s :
  EvInv s ->
  wp (getOrCreateEventID ev)
    (fun r s' =>
       exists id,
         r = Ok id /\
         hkbBehaviorGraphStringData.first_index ev (event_name_list (fst s')) 0
         = Some id /\
         EvInv s' /\ snd s' = snd s /\
         keeps (fun b => ~ is_event_table b) s s' /\ ext s s' /\
         list_of_states (fst s') = list_of_states (fst s)) s.
Proof.
  intros (names & infos & Ht & Hl & He).
  eapply wp_getOrCreateEventID; try eassumption.
  - intros i Hi. exists i. split; [reflexivity|].
    split; [rewrite He; exact Hi|].
    split; [exists names, infos; auto|]. split; [reflexivity|].
    split; [apply keeps_refl|]. split; [apply ext_refl | reflexivity].
  - intros s' Hn Ht' He' Hs Hk Hext HL. exists (length names).
    split; [reflexivity|].
    split; [rewrite He'; apply first_index_app_new, Hn|].
    split; [|auto].
    exists (names ++ [ev]), (infos ++ [0%Z]).
    split; [exact Ht'|]. split; [|exact He'].
    rewrite !length_app. simpl. lia.
Qed.

(** ** What [connect_states] adds *)

(** The transitions of the table at [r]. *)
Definition transitions_at (s : St) (r : nat) : list Transition :=
  match data (fst s) !! r with
  | Some o => match obj_body o with
              | TransitionInfoArray _ ts => ts
              | _ => []
              end
  | None => []
  end.

Lemma imm_StateInfo b en ex t g n i :
  immutable_part b = StateInfo en ex t g n i None ->
  exists c, b = StateInfo en ex t g n i c.
Proof. destruct b; simpl; intros H; try discriminate. injection H as -> -> -> -> -> ->. eauto. Qed.

Lemma imm_TransitionInfoArray b :
  immutable_part b = TransitionInfoArray 0 [] ->
  exists n ts, b = TransitionInfoArray n ts.
Proof. destruct b; simpl; intros H; try discriminate. eauto. Qed.

Lemma reachable_blend s :
  reachable s -> imm_at s 3 "#0055" (BlendingTransitionEffect "ZeroDuration").
Proof.
  intros [ops ->]. eapply imm_at_ext; [apply ext_run|].
  eexists. split; [reflexivity|]. split; reflexivity.
Qed.

Lemma for_break_in x l bound e :
  fst (for_break x l bound) = Some e -> e ∈ l \/ bound = Some e.
Proof.
  revert bound. induction l as [|e0 l IH]; intros bound H; simpl in *.
  { right. exact H. }
  destruct (String.eqb (stateName e0) x).
  - simpl in H. injection H as <-. left. apply elem_of_cons. auto.
  - destruct (IH _ H) as [Hin|[= ->]]; left; apply elem_of_cons; auto.
Qed.

Lemma connect_states_core a b ev s e1 e2 j :
  reachable s -> a <> b ->
  fst (for_break a (list_of_states (fst s)) None) = Some e1 ->
  fst (for_break b (list_of_states (fst s)) None) = Some e2 ->
  list_of_states (fst s) !! j = Some e2 ->
  wp (connect_states a b ev)
    (fun r s' =>
       r = Ok tt /\
       exists id,
         hkbBehaviorGraphStringData.first_index ev (event_name_list (fst s')) 0
         = Some id /\
         transitions_at s' (stateTransitions e1)
         = transitions_at s (stateTransitions e1)
           ++ [ {| t_transition := "#0055"; t_condition := "null";
                   t_eventId := id; t_toStateId := j;
                   t_flags := "FLAG_DISABLE_CONDITION" |} ] /\
         (forall r o, r <> stateTransitions e1 ->
                      data (fst s) !! r = Some o ->
                      ~ is_event_table (obj_body o) ->
                      data (fst s') !! r = Some o) /\
         map obj_name (data (fst s')) = map obj_name (data (fst s)) /\
         list_of_states (fst s') = list_of_states (fst s) /\
         snd s' = snd s) s.
Proof.
  intros Hr Hab H1 H2 Hj.
  pose proof (reachable_Inv s Hr) as HI.
  pose proof (reachable_blend s Hr) as Hblend.
  destruct (for_break_in _ _ _ _ H1) as [Hin1|?]; [|discriminate].
  apply list_elem_of_lookup in Hin1 as [i1 Hi1].
  unfold connect_states.
  apply wp_bind, wp_assert;
    [intros _
    |intros Hf; apply negb_false_iff, String.eqb_eq in Hf; contradiction].
  cbv beta iota. apply wp_bind, wp_gets. cbv beta iota zeta.
  apply wp_bind, wp_warn_unless. intros sA HqA. cbv beta iota.
  apply wp_bind, wp_warn_unless. intros sB HqB. cbv beta iota.
  pose proof (quiet_trans _ _ _ HqA HqB) as Hq. clear HqA HqB sA.
  pose proof (Inv_quiet _ _ HI Hq) as HIB.
  destruct Hq as (DB & LB & EB & _ & _ & BB).
  apply wp_bind.
  eapply wp_mono;
    [ refine (wp_and _ _ (fun _ s' => tags_are _ s') sB _ _);
      [ apply getOrCreateEventID_spec, HIB
      | exact (tags_are_getOrCreateEventID _ ev sB eq_refl) ] | ].
  intros r sC [(id & Hr' & Hid & HEC & BC & HkC & HextC & LC) HtagsC].
  subst r. cbv beta iota. rewrite H1, H2.
  apply wp_bind, wp_ret. apply wp_bind, wp_ret.
  destruct HI as (_ & HH & _ & _ & _ & [_ Hes]).
  (* the target state *)
  destruct (Hes j e2 Hj)
    as (ts2 & tt2 & tg2 & en2 & ex2 & G2 & (o2 & Ho2 & _ & Hb2) & _).
  apply imm_StateInfo in Hb2 as [c2 Hb2].
  assert (Ho2C : data (fst sC) !! stateInfo e2 = Some o2).
  { apply HkC; [rewrite DB; exact Ho2|]. rewrite Hb2. exact (fun H => H). }
  apply wp_bind. unfold hkbStateMachineStateInfo.stateIdx.
  apply wp_bind. eapply wp_deref_known; [exact Ho2C|]. cbv beta iota.
  rewrite Hb2. apply wp_ret.
  (* the blend effect *)
  destruct Hblend as (o3 & Ho3 & Hn3 & Hb3).
  assert (Ho3C : data (fst sC) !! 3 = Some o3).
  { apply HkC; [rewrite DB; exact Ho3|].
    destruct (obj_body o3); try discriminate. exact (fun H => H). }
  apply wp_bind, wp_attr;
    [|rewrite BC, BB; destruct HH as (_ & _ & _ & Hbe); simpl;
      rewrite Hbe; discriminate].
  intros be Hbe. rewrite BC, BB in Hbe. destruct HH as (_ & _ & _ & Hbe').
  simpl in Hbe. rewrite Hbe' in Hbe. injection Hbe as <-.
  apply wp_bind. eapply wp_tag_of_known; [exact Ho3C|]. cbv beta iota.
  rewrite Hn3.
  (* the table of the source state *)
  destruct (Hes i1 e1 Hi1)
    as (ts1 & tt1 & tg1 & en1 & ex1 & G1 & _ & (o1 & Ho1 & _ & Hb1) & _).
  apply imm_TransitionInfoArray in Hb1 as (n1 & trs1 & Hb1).
  assert (Ho1C : data (fst sC) !! stateTransitions e1 = Some o1).
  { apply HkC; [rewrite DB; exact Ho1|]. rewrite Hb1. exact (fun H => H). }
  apply wp_bind.
  unfold hkbStateMachineTransitionInfoArray.add_transition.
  apply wp_update.
  2:{ intros Hn. specialize (Hn o1 Ho1C). rewrite Hb1 in Hn. discriminate. }
  intros o b0 Ho Hb0. rewrite Ho1C in Ho. injection Ho as <-.
  rewrite Hb1 in Hb0. injection Hb0 as <-.
  cbv beta iota. apply wp_warning.
  split; [reflexivity|]. exists id.
  split; [exact Hid|].
  split.
  { unfold transitions_at. simpl. rewrite Ho1C, Ho1, Hb1.
    rewrite list_lookup_insert_eq by (eapply lookup_lt_Some, Ho1C).
    reflexivity. }
  split.
  { intros r o Hne Ho Hne'. simpl. rewrite Ho1C.
    rewrite list_lookup_insert_ne by congruence.
    apply HkC; [rewrite DB; exact Ho | exact Hne']. }
  split.
  { transitivity (map obj_name (data (fst (put (stateTransitions e1)
        (TransitionInfoArray (S n1) (trs1 ++ [ {|
           t_transition := "#0055"; t_condition := "null";
           t_eventId := id; t_toStateId := j;
           t_flags := "FLAG_DISABLE_CONDITION" |} ])) sC)))).
    - reflexivity.
    - rewrite put_names. unfold tags_are in HtagsC. rewrite HtagsC, DB.
      reflexivity. }
  split; [simpl; rewrite LC, LB; reflexivity|].
  simpl. rewrite BC, BB. reflexivity.
Qed.

(** ** What [add_wildcard] adds *)

Lemma class_TransitionInfoArray b :
  class_name b = "hkbStateMachineTransitionInfoArray" ->
  exists n ts, b = TransitionInfoArray n ts.
Proof. destruct b; simpl; intros H; try discriminate. eauto. Qed.

Lemma add_wildcard_core x ev s e j :
  reachable s ->
  for_break x (list_of_states (fst s)) None = (Some e, true) ->
  list_of_states (fst s) !! j = Some e ->
  wp (add_wildcard x ev)
    (fun r s' =>
       r = Ok tt /\
       exists w id,
         wildcardtransitions (snd s') = Some w /\
         match wildcardtransitions (snd s) with
         | Some w0 =>
             w = w0 /\
             map obj_name (data (fst s')) = map obj_name (data (fst s)) /\
             object_counter (snd s') = object_counter (snd s)
         | None =>
             w = length (data (fst s)) /\
             map obj_name (data (fst s'))
             = map obj_name (data (fst s))
               ++ [format_tag (S (object_counter (snd s)))] /\
             object_counter (snd s') = S (object_counter (snd s))
         end /\
         hkbBehaviorGraphStringData.first_index ev (event_name_list (fst s')) 0
         = Some id /\
         transitions_at s' w
         = transitions_at s w
           ++ [ {| t_transition := "#0055"; t_condition := "null";
                   t_eventId := id; t_toStateId := j;
                   t_flags :=
                     "FLAG_IS_LOCAL_WILDCARD|FLAG_DISABLE_CONDITION" |} ] /\
         (w ∉ map stateTransitions (list_of_states (fst s))) /\
         (forall r o, r <> w -> data (fst s) !! r = Some o ->
                      ~ is_event_table (obj_body o) ->
                      data (fst s') !! r = Some o) /\
         list_of_states (fst s') = list_of_states (fst s)) s.
Proof.
  intros Hr Hf Hj.
  pose proof (reachable_Inv s Hr) as HI.
  pose proof (reachable_blend s Hr) as Hblend.
  unfold add_wildcard.
  apply wp_bind, wp_gets. cbv beta iota zeta. rewrite Hf.
  cbn [fst snd]. apply wp_bind, wp_ret.
  apply wp_bind.
  eapply wp_mono;
    [ refine (wp_and _ _ (fun _ s' => tags_are _ s') s _ _);
      [ apply getOrCreateEventID_spec, HI
      | exact (tags_are_getOrCreateEventID _ ev s eq_refl) ] | ].
  intros r sC [(id & Hr' & Hid & HEC & BC & HkC & HextC & LC) HtagsC].
  subst r. cbv beta iota. unfold tags_are in HtagsC.
  destruct HI as (_ & HH & _ & _ & [Hbelow HW] & [_ Hes]).
  assert (HlenC : length (data (fst sC)) = length (data (fst s))).
  { rewrite <- (length_map obj_name), HtagsC, length_map. reflexivity. }
  (* the wildcard table *)
  apply wp_bind.
  apply wp_mono with
    (Q := fun r sW =>
       exists w tag n,
         r = Ok w /\
         wildcardtransitions (snd sW) = Some w /\
         data (fst sW) !! w
         = Some {| obj_name := tag;
                   obj_body := TransitionInfoArray n (transitions_at s w) |} /\
         (forall r o, r <> w -> data (fst sC) !! r = Some o ->
                      data (fst sW) !! r = Some o) /\
         blend_effect (snd sW) = blend_effect (snd s) /\
         list_of_states (fst sW) = list_of_states (fst s) /\
         event_name_list (fst sW) = event_name_list (fst sC) /\
         (w ∉ map stateTransitions (list_of_states (fst s))) /\
         match wildcardtransitions (snd s) with
         | Some w0 =>
             w = w0 /\
             map obj_name (data (fst sW)) = map obj_name (data (fst s)) /\
             object_counter (snd sW) = object_counter (snd s)
         | None =>
             w = length (data (fst s)) /\
             map obj_name (data (fst sW))
             = map obj_name (data (fst s))
               ++ [format_tag (S (object_counter (snd s)))] /\
             object_counter (snd sW) = S (object_counter (snd s))
         end).
  { unfold getOrCreatewildcardtransitions.
    apply wp_bind, wp_gets. cbv beta iota. rewrite BC.
    destruct (wildcardtransitions (snd s)) as [w|] eqn:Ew.
    - apply wp_ret. destruct (HW w eq_refl) as [(o & Ho & Hc) Hn].
      apply class_TransitionInfoArray in Hc as (n & ts & Hb).
      exists w, (obj_name o), n. split; [reflexivity|].
      split; [rewrite BC; exact Ew|].
      split.
      { unfold transitions_at. rewrite Ho, Hb.
        replace {| obj_name := obj_name o;
                   obj_body := TransitionInfoArray n ts |} with o
          by (destruct o; simpl in *; congruence).
        apply HkC; [exact Ho|]. rewrite Hb. exact (fun H => H). }
      split; [auto|]. split; [rewrite BC; reflexivity|].
      split; [exact LC|]. split; [reflexivity|]. split; [exact Hn|].
      split; [reflexivity|]. split; [exact HtagsC|].
      rewrite BC. reflexivity.
    - unfold hkbStateMachineTransitionInfoArray.__init__.
      apply wp_bind, wp_new_hkobject. cbv beta iota.
      apply wp_bind, wp_modify. cbv beta iota. apply wp_ret.
      rewrite HlenC.
      exists (length (data (fst s))),
        (format_tag (S (object_counter (snd sC)))), 0.
      split; [reflexivity|]. split; [reflexivity|].
      split.
      { simpl. unfold transitions_at.
        rewrite (proj2 (lookup_ge_None (data (fst s)) _)) by lia.
        apply list_lookup_middle. symmetry. exact HlenC. }
      split.
      { intros r o _ Ho. simpl. apply lookup_app_l_Some, Ho. }
      split; [simpl; rewrite BC; reflexivity|].
      split; [exact LC|]. split; [reflexivity|].
      split.
      { intros Hin. apply list_elem_of_fmap in Hin as (e' & He1 & He2).
        specialize (Hbelow e' He2). lia. }
      split; [reflexivity|].
      split; [simpl; rewrite map_app, HtagsC, BC; reflexivity|].
      simpl. rewrite BC. reflexivity. }
  intros r sW (w & tagw & nw & -> & HwW & HoW & HkW & HbW & LW & EW & Hnotin
               & Hcase).
  cbv beta iota.
  (* the target state *)
  destruct (Hes j e Hj)
    as (ts2 & tt2 & tg2 & en2 & ex2 & G2 & (o2 & Ho2 & _ & Hb2) & _).
  apply imm_StateInfo in Hb2 as [c2 Hb2].
  assert (Hne2 : stateInfo e <> w).
  { intros Heq. destruct (wildcardtransitions (snd s)) as [w0|] eqn:Ew.
    - destruct Hcase as (-> & _). destruct (HW w0 eq_refl) as [(o & Ho & Hc) _].
      rewrite Heq in Ho2. rewrite Ho in Ho2. injection Ho2 as ->.
      rewrite Hb2 in Hc. discriminate.
    - destruct Hcase as (-> & _). apply lookup_lt_Some in Ho2. lia. }
  assert (Ho2W : data (fst sW) !! stateInfo e = Some o2).
  { apply HkW; [exact Hne2|]. apply HkC; [exact Ho2|].
    rewrite Hb2. exact (fun H => H). }
  apply wp_bind. unfold hkbStateMachineStateInfo.stateIdx.
  apply wp_bind. eapply wp_deref_known; [exact Ho2W|]. cbv beta iota.
  rewrite Hb2. apply wp_ret.
  (* the blend effect *)
  destruct Hblend as (o3 & Ho3 & Hn3 & Hb3).
  assert (Hne3 : 3 <> w).
  { intros Heq. destruct (wildcardtransitions (snd s)) as [w0|] eqn:Ew.
    - destruct Hcase as (-> & _). destruct (HW w0 eq_refl) as [(o & Ho & Hc) _].
      rewrite <- Heq in Ho. rewrite Ho in Ho3. injection Ho3 as ->.
      destruct (obj_body o3); discriminate.
    - destruct Hcase as (-> & _). apply lookup_lt_Some in Ho3. lia. }
  assert (Ho3W : data (fst sW) !! 3 = Some o3).
  { apply HkW; [exact Hne3|]. apply HkC; [exact Ho3|].
    destruct (obj_body o3); try discriminate. exact (fun H => H). }
  destruct HH as (_ & _ & _ & Hbe').
  apply wp_bind, wp_attr;
    [|simpl; rewrite HbW, Hbe'; discriminate].
  intros be Hbe. simpl in Hbe. rewrite HbW, Hbe' in Hbe. injection Hbe as <-.
  apply wp_bind. eapply wp_tag_of_known; [exact Ho3W|]. cbv beta iota.
  rewrite Hn3.
  apply wp_bind.
  unfold hkbStateMachineTransitionInfoArray.add_transition.
  apply wp_update.
  2:{ intros Hn. specialize (Hn _ HoW). discriminate. }
  intros o b0 Ho Hb0. rewrite HoW in Ho. injection Ho as <-.
  simpl in Hb0. injection Hb0 as <-.
  cbv beta iota. apply wp_warning.
  split; [reflexivity|]. exists w, id.
  split; [exact HwW|].
  split.
  { destruct (wildcardtransitions (snd s)); destruct Hcase as (E1 & E2 & E3);
      (split; [exact E1|]); (split; [|exact E3]);
      rewrite <- E2; simpl; rewrite HoW;
      rewrite list_fmap_insert; simpl; apply list_insert_id;
      rewrite list_lookup_fmap, HoW; reflexivity. }
  split; [simpl; rewrite EW; exact Hid|].
  split.
  { unfold transitions_at at 1. simpl. rewrite HoW.
    rewrite list_lookup_insert_eq by (eapply lookup_lt_Some, HoW).
    reflexivity. }
  split; [exact Hnotin|].
  split.
  { intros r o Hne Ho Hne'. simpl. rewrite HoW.
    rewrite list_lookup_insert_ne by congruence.
    apply HkW; [exact Hne|]. apply HkC; [exact Ho | exact Hne']. }
  simpl. exact LW.
Qed.

(** ** What [add_clip_trigger] adds *)

(** The children of the trigger table at [r]. *)
Definition triggers_at (s : St) (r : nat) : list TriggerObj :=
  match data (fst s) !! r with
  | Some o => match obj_body o with
              | ClipTriggerArray _ ts => ts
              | _ => []
              end
  | None => []
  end.

(** The trigger table of the state object at [r]. *)
Definition clip_at (s : St) (r : nat) : option nat :=
  match data (fst s) !! r with
  | Some o => clip_of (obj_body o)
  | None => None
  end.

Lemma class_ClipTriggerArray b :
  class_name b = "hkbClipTriggerArray" -> exists n ts, b = ClipTriggerArray n ts.
Proof. destruct b; simpl; intros H; try discriminate. eauto. Qed.

Lemma hkobject_eta o : {| obj_name := obj_name o; obj_body := obj_body o |} = o.
Proof. destruct o. reflexivity. Qed.

Lemma put_put r b1 b2 s o :
  data (fst s) !! r = Some o -> put r b2 (put r b1 s) = put r b2 s.
Proof.
  intros Ho. destruct s as [p bf]. unfold put, on_process, with_data.
  simpl in *. rewrite Ho.
  rewrite list_lookup_insert_eq by (eapply lookup_lt_Some, Ho). simpl.
  rewrite list_insert_insert_eq. reflexivity.
Qed.

(** [add_trigger] on a trigger table: the entry is appended and counted,
    or, when [float(localTime)] overflows, an unfinished child is left and
    the count is as it was. *)
Lemma wp_add_trigger self lt id rel Q s tag n ts :
  data (fst s) !! self
  = Some {| obj_name := tag; obj_body := ClipTriggerArray n ts |} ->
  match to_float lt with
  | Some v =>
      Q (Ok tt)
        (put self
           (ClipTriggerArray (S n)
              (ts ++ [ Finished {| tr_localTime := v; tr_eventId := id;
                                   tr_relativeToEndOfClip := rel |} ])) s)
  | None =>
      Q (Raise OverflowError)
        (put self (ClipTriggerArray n (ts ++ [Unfinished])) s)
  end ->
  wp (hkbClipTriggerArray.add_trigger self lt id rel) Q s.
Proof.
  intros Ho HQ. unfold hkbClipTriggerArray.add_trigger.
  apply wp_bind, wp_update.
  2:{ intros Hn. specialize (Hn _ Ho). discriminate. }
  intros o b Ho' Hb. rewrite Ho in Ho'. injection Ho' as <-.
  simpl in Hb. injection Hb as <-. cbv beta iota.
  assert (Ho1 : data (fst (put self (ClipTriggerArray n (ts ++ [Unfinished])) s))
                  !! self
                = Some {| obj_name := tag;
                          obj_body := ClipTriggerArray n (ts ++ [Unfinished]) |}).
  { rewrite (put_data _ _ _ _ Ho). apply list_lookup_insert_eq.
    eapply lookup_lt_Some, Ho. }
  destruct (to_float lt) as [v|].
  - apply wp_bind, wp_ret. apply wp_update.
    2:{ intros Hn. specialize (Hn _ Ho1). discriminate. }
    intros o b Ho' Hb. rewrite Ho1 in Ho'. injection Ho' as <-.
    simpl in Hb. injection Hb as <-.
    rewrite removelast_last, (put_put _ _ _ _ _ Ho). exact HQ.
  - apply wp_bind, wp_raise. exact HQ.
Qed.

(** What [add_clip_trigger] has done to the state of the entry [e] when
    it has gone as far as [add_trigger]: [c] is the state's trigger table,
    the one it had or a new one, made as the next object of the document
    and under the next tag; [id] is the id of the event; [tagc] is the tag
    of the table.  The other objects, the event tables apart, are as they
    were. *)
Definition trigger_table_ready (e : StateEntry) (ev : string) (c id : nat)
  (tagc : string) (s s' : St) : Prop :=
  match clip_at s (stateInfo e) with
  | Some c0 =>
      c = c0 /\
      map obj_name (data (fst s')) = map obj_name (data (fst s)) /\
      object_counter (snd s') = object_counter (snd s)
  | None =>
      c = length (data (fst s)) /\
      map obj_name (data (fst s'))
      = map obj_name (data (fst s))
        ++ [format_tag (S (object_counter (snd s)))] /\
      object_counter (snd s') = S (object_counter (snd s))
  end /\
  clip_at s' (stateInfo e) = Some c /\
  hkbBehaviorGraphStringData.first_index ev (event_name_list (fst s')) 0
  = Some id /\
  (exists oc, data (fst s') !! c = Some oc /\ obj_name oc = tagc) /\
  (forall r o, r <> c -> r <> stateInfo e -> r <> stateGenerator e ->
               data (fst s) !! r = Some o ->
               ~ is_event_table (obj_body o) ->
               data (fst s') !! r = Some o) /\
  list_of_states (fst s') = list_of_states (fst s).

Lemma add_clip_trigger_core x ev rel lt s e i og n a t l :
  reachable s ->
  fst (for_break x (list_of_states (fst s)) None) = Some e ->
  list_of_states (fst s) !! i = Some e ->
  data (fst s) !! stateGenerator e = Some og ->
  obj_body og = ClipGenerator n a t l ->
  wp (add_clip_trigger x ev rel lt)
    (fun r s' =>
       exists c id tagc,
         trigger_table_ready e ev c id tagc s s' /\
         match to_float lt with
         | Some v =>
             r = Ok tt /\
             triggers_at s' c
             = triggers_at s c
               ++ [ Finished {| tr_localTime := v; tr_eventId := id;
                                tr_relativeToEndOfClip := rel |} ] /\
             data (fst s') !! stateGenerator e
             = Some {| obj_name := obj_name og;
                       obj_body := ClipGenerator n a tagc l |}
         | None =>
             r = Raise OverflowError /\
             triggers_at s' c = triggers_at s c ++ [Unfinished] /\
             data (fst s') !! stateGenerator e = Some og
         end) s.
Proof.
  intros Hr Hf Hi Hog Hbg.
  pose proof (reachable_Inv s Hr) as HI.
  unfold add_clip_trigger.
  apply wp_bind, wp_gets. cbv beta iota zeta.
  apply wp_bind, wp_warn_unless. intros sA Hq. cbv beta iota.
  pose proof (Inv_quiet _ _ HI Hq) as HIA.
  destruct Hq as (DA & LA & EA & _ & _ & BA).
  rewrite Hf. apply wp_bind, wp_ret.
  apply wp_bind. eapply wp_has_class_known; [rewrite DA; exact Hog|].
  cbv beta iota. rewrite Hbg. cbn [class_name String.eqb Ascii.eqb Bool.eqb].
  destruct HI as (_ & _ & _ & HCl & _ & [_ Hes]).
  destruct HIA as (HEA & _ & _ & _ & _ & _).
  destruct (Hes i e Hi)
    as (ts2 & tt2 & tg2 & en2 & ex2 & G2 & (o2 & Ho2 & Hn2 & Hb2) & _).
  apply imm_StateInfo in Hb2 as [c2 Hb2].
  assert (Hne_sg : stateInfo e <> stateGenerator e).
  { intros Heq. rewrite Heq in Ho2. rewrite Hog in Ho2. injection Ho2 as ->.
    rewrite Hb2 in Hbg. discriminate. }
  (* the trigger table *)
  apply wp_bind.
  apply wp_mono with
    (Q := fun r sW =>
       exists c tagc nc,
         r = Ok c /\
         data (fst sW) !! c
         = Some {| obj_name := tagc;
                   obj_body := ClipTriggerArray nc (triggers_at s c) |} /\
         data (fst sW) !! stateInfo e
         = Some {| obj_name := ts2;
                   obj_body := StateInfo en2 ex2 tt2 tg2 (stateName e) i
                                 (Some c) |} /\
         (forall r o, r <> c -> r <> stateInfo e ->
                      data (fst s) !! r = Some o ->
                      data (fst sW) !! r = Some o) /\
         c <> stateInfo e /\ c <> stateGenerator e /\
         (forall o, data (fst s) !! c = Some o ->
                    class_name (obj_body o) = "hkbClipTriggerArray") /\
         hkbBehaviorGraphStringData (snd sW)
         = hkbBehaviorGraphStringData (snd s) /\
         hkbBehaviorGraphData (snd sW) = hkbBehaviorGraphData (snd s) /\
         event_name_list (fst sW) = event_name_list (fst s) /\
         list_of_states (fst sW) = list_of_states (fst s) /\
         match clip_at s (stateInfo e) with
         | Some c0 =>
             c = c0 /\
             map obj_name (data (fst sW)) = map obj_name (data (fst s)) /\
             object_counter (snd sW) = object_counter (snd s)
         | None =>
             c = length (data (fst s)) /\
             map obj_name (data (fst sW))
             = map obj_name (data (fst s))
               ++ [format_tag (S (object_counter (snd s)))] /\
             object_counter (snd sW) = S (object_counter (snd s))
         end).
  { unfold hkbStateMachineStateInfo.getOrCreateClipTriggerArray.
    apply wp_bind. eapply wp_deref_known; [rewrite DA; exact Ho2|].
    cbv beta iota. rewrite Hb2. unfold clip_at. rewrite Ho2, Hb2.
    cbn [clip_of].
    destruct c2 as [c|].
    - apply wp_ret.
      destruct (HCl _ _ c Ho2 ltac:(rewrite Hb2; reflexivity))
        as (oc & Hoc & Hcc).
      pose proof Hcc as Hcc'.
      apply class_ClipTriggerArray in Hcc as (nc & trs & Hbc).
      exists c, (obj_name oc), nc. split; [reflexivity|].
      split.
      { rewrite DA. unfold triggers_at. rewrite Hoc, Hbc, <- Hbc.
        rewrite hkobject_eta. reflexivity. }
      split.
      { rewrite DA, Ho2. f_equal. destruct o2; simpl in *. congruence. }
      split; [intros r o _ _ Ho; rewrite DA; exact Ho|].
      split.
      { intros ->. rewrite Hoc in Ho2. injection Ho2 as ->.
        rewrite Hb2 in Hbc. discriminate. }
      split.
      { intros ->. rewrite Hoc in Hog. injection Hog as ->.
        rewrite Hbg in Hbc. discriminate. }
      split.
      { intros o Ho. rewrite Hoc in Ho. injection Ho as <-. exact Hcc'. }
      rewrite BA, EA, LA, DA. repeat split.
    - unfold hkbClipTriggerArray.__init__.
      apply wp_bind, wp_new_hkobject. cbv beta iota.
      assert (Hlt2 : stateInfo e < length (data (fst s)))
        by (eapply lookup_lt_Some, Ho2).
      assert (Hltg : stateGenerator e < length (data (fst s)))
        by (eapply lookup_lt_Some, Hog).
      assert (Ho2' : data (fst (alloc (ClipTriggerArray 0 []) sA))
                       !! stateInfo e = Some o2).
      { simpl. rewrite DA. apply lookup_app_l_Some, Ho2. }
      apply wp_bind, wp_update.
      2:{ intros Hn. specialize (Hn _ Ho2'). rewrite Hb2 in Hn.
          discriminate. }
      intros o b0 Ho Hb0. rewrite Ho2' in Ho. injection Ho as <-.
      rewrite Hb2 in Hb0. injection Hb0 as <-.
      cbv beta iota. apply wp_ret. rewrite DA.
      exists (length (data (fst s))),
        (format_tag (S (object_counter (snd sA)))), 0.
      split; [reflexivity|].
      rewrite (put_data _ _ _ _ Ho2').
      split.
      { rewrite list_lookup_insert_ne by lia. simpl. rewrite DA.
        unfold triggers_at.
        rewrite (proj2 (lookup_ge_None (data (fst s)) _)) by lia.
        apply list_lookup_middle. reflexivity. }
      split.
      { rewrite list_lookup_insert_eq
          by (simpl; rewrite length_app, DA; simpl; lia).
        rewrite Hn2. reflexivity. }
      split.
      { intros r o _ Hne Ho. rewrite list_lookup_insert_ne by congruence.
        simpl. rewrite DA. apply lookup_app_l_Some, Ho. }
      split; [lia|]. split; [lia|].
      split.
      { intros o Ho. apply lookup_lt_Some in Ho. lia. }
      simpl. rewrite BA, EA, LA.
      split; [reflexivity|]. split; [reflexivity|]. split; [reflexivity|].
      split; [reflexivity|]. split; [reflexivity|].
      split; [|reflexivity].
      rewrite list_fmap_insert. simpl.
      rewrite list_insert_id.
      + rewrite map_app, DA. reflexivity.
      + rewrite list_lookup_fmap. simpl. rewrite DA.
        rewrite (lookup_app_l_Some _ _ _ _ Ho2). simpl. rewrite Hn2.
        reflexivity. }
  intros r sW (c & tagc & nc & -> & HcW & HsW & HkW & Hnc1 & Hnc2 & Hcls
               & HsdW & HgdW & EW & LW & Hcase).
  cbv beta iota.
  assert (HEW : EvInv sW).
  { eapply EvInv_frame; [exact (proj1 (reachable_Inv s Hr)) | exact HsdW
                        | exact HgdW | exact EW |].
    intros r o Ho Hev. apply HkW; [| |exact Ho].
    - intros ->. pose proof (Hcls o Ho) as Hk.
      destruct (obj_body o); simpl in *; try contradiction; discriminate.
    - intros ->. rewrite Ho2 in Ho. injection Ho as <-.
      rewrite Hb2 in Hev. exact Hev. }
  apply wp_bind.
  eapply wp_mono;
    [ refine (wp_and _ _ (fun _ s' => tags_are _ s') sW _ _);
      [ apply getOrCreateEventID_spec, HEW
      | exact (tags_are_getOrCreateEventID _ ev sW eq_refl) ] | ].
  intros r sC [(id & Hr' & Hid & HEC & BC & HkC & HextC & LC) HtagsC].
  subst r. cbv beta iota. unfold tags_are in HtagsC.
  assert (HcC := HkC _ _ HcW (fun H => H)).
  assert (HsC := HkC _ _ HsW (fun H => H)).
  assert (HgW : data (fst sW) !! stateGenerator e = Some og).
  { apply HkW; [congruence | congruence | exact Hog]. }
  assert (HgC : data (fst sC) !! stateGenerator e = Some og).
  { apply HkC; [exact HgW|]. rewrite Hbg. exact (fun H => H). }
  assert (HltC : c < length (data (fst sC))) by (eapply lookup_lt_Some, HcC).
  assert (HltG : stateGenerator e < length (data (fst sC)))
    by (eapply lookup_lt_Some, HgC).
  (* what holds whatever the table and the generator have become *)
  assert (Hfinal :
    forall sE k X G,
      data (fst sE)
      = <[ stateGenerator e := G ]>
          (<[ c := {| obj_name := tagc; obj_body := ClipTriggerArray k X |} ]>
             (data (fst sC))) ->
      obj_name G = obj_name og ->
      snd sE = snd sC -> list_of_states (fst sE) = list_of_states (fst sC) ->
      event_name_list (fst sE) = event_name_list (fst sC) ->
      trigger_table_ready e ev c id tagc s sE /\
      triggers_at sE c = X /\
      data (fst sE) !! stateGenerator e = Some G).
  { intros sE k X G DE HG BE LE EE.
    split; [|split].
    - split.
      { assert (Hnm : map obj_name (data (fst sE))
                      = map obj_name (data (fst sC))).
        { rewrite DE, !list_fmap_insert. simpl.
          rewrite (list_insert_id (map obj_name (data (fst sC))) c)
            by (rewrite list_lookup_fmap, HcC; reflexivity).
          apply list_insert_id. rewrite list_lookup_fmap, HgC, HG.
          reflexivity. }
        rewrite Hnm, HtagsC, BE, BC.
        destruct (clip_at s (stateInfo e)); exact Hcase. }
      split.
      { unfold clip_at. rewrite DE.
        rewrite !list_lookup_insert_ne by congruence. rewrite HsC.
        reflexivity. }
      split; [rewrite EE; exact Hid|].
      split.
      { eexists. split.
        - rewrite DE. rewrite list_lookup_insert_ne by congruence.
          apply list_lookup_insert_eq. exact HltC.
        - reflexivity. }
      split.
      { intros r o Hne1 Hne2 Hne3 Ho Hev. rewrite DE.
        rewrite !list_lookup_insert_ne by congruence.
        apply HkC; [|exact Hev]. apply HkW; assumption. }
      rewrite LE, LC, LW. reflexivity.
    - unfold triggers_at. rewrite DE.
      rewrite list_lookup_insert_ne by congruence.
      rewrite list_lookup_insert_eq by exact HltC. reflexivity.
    - rewrite DE. apply list_lookup_insert_eq. rewrite length_insert.
      exact HltG. }
  (* the trigger *)
  apply wp_bind. eapply wp_add_trigger; [exact HcC|].
  destruct (to_float lt) as [v|] eqn:Hv.
  2:{ (* [float(localTime)] overflows *)
    exists c, id, tagc.
    destruct (Hfinal (put c (ClipTriggerArray nc
                               (triggers_at s c ++ [Unfinished])) sC)
                nc (triggers_at s c ++ [Unfinished]) og)
      as (H1 & H2 & H3); try reflexivity.
    { rewrite (put_data _ _ _ _ HcC). symmetry. apply list_insert_id.
      rewrite list_lookup_insert_ne by congruence. exact HgC. }
    split; [exact H1|]. split; [reflexivity|]. split; [exact H2 | exact H3]. }
  set (X := triggers_at s c
            ++ [ Finished {| tr_localTime := v; tr_eventId := id;
                             tr_relativeToEndOfClip := rel |} ]).
  set (sD := put c (ClipTriggerArray (S nc) X) sC).
  assert (DD : data (fst sD)
               = <[ c := {| obj_name := tagc;
                            obj_body := ClipTriggerArray (S nc) X |} ]>
                   (data (fst sC))).
  { unfold sD. rewrite (put_data _ _ _ _ HcC). reflexivity. }
  assert (HcD : data (fst sD) !! c
                = Some {| obj_name := tagc;
                          obj_body := ClipTriggerArray (S nc) X |}).
  { rewrite DD. apply list_lookup_insert_eq. exact HltC. }
  assert (HgD : data (fst sD) !! stateGenerator e = Some og).
  { rewrite DD, list_lookup_insert_ne by congruence. exact HgC. }
  (* the generator *)
  cbv beta iota. unfold hkbClipGenerator.set_trigger.
  apply wp_bind. eapply wp_has_class_known; [exact HcD|]. cbv beta iota.
  cbn [obj_body class_name]. rewrite String.eqb_refl.
  apply wp_bind, wp_assert; [intros _|discriminate]. cbv beta iota.
  apply wp_bind. eapply wp_tag_of_known; [exact HcD|]. cbv beta iota.
  cbn [obj_name].
  apply wp_update.
  2:{ intros Hn. specialize (Hn _ HgD). rewrite Hbg in Hn. discriminate. }
  intros o b0 Ho Hb0. rewrite HgD in Ho. injection Ho as <-.
  rewrite Hbg in Hb0. injection Hb0 as <-.
  exists c, id, tagc.
  destruct (Hfinal (put (stateGenerator e) (ClipGenerator n a tagc l) sD)
              (S nc) X
              {| obj_name := obj_name og;
                 obj_body := ClipGenerator n a tagc l |})
    as (H1 & H2 & H3); try reflexivity.
  { rewrite (put_data _ _ _ _ HgD), DD. reflexivity. }
  split; [exact H1|]. split; [reflexivity|]. split; [exact H2 | exact H3].
Qed.

(** ** What [export] writes *)

(** The tag of the object at [r]. *)
Definition tag_at (s : St) (r : nat) : string :=
  match data (fst s) !! r with
  | Some o => obj_name o
  | None => ""
  end.

(** The class-level state and the attributes that [__finalize] leaves
    alone. *)
Definition finalize_frame (s s' : St) : Prop :=
  list_of_states (fst s') = list_of_states (fst s) /\
  event_name_list (fst s') = event_name_list (fst s) /\
  files (fst s') = files (fst s) /\
  nStates (snd s') = nStates (snd s) /\
  wildcardtransitions (snd s') = wildcardtransitions (snd s) /\
  hkbBehaviorGraphStringData (snd s') = hkbBehaviorGraphStringData (snd s) /\
  hkbVariableValueSet (snd s') = hkbVariableValueSet (snd s) /\
  hkbBehaviorGraphData (snd s') = hkbBehaviorGraphData (snd s) /\
  blend_effect (snd s') = blend_effect (snd s).

Lemma finalize_frame_refl s : finalize_frame s s.
Proof. repeat split. Qed.

Lemma finalize_frame_trans s1 s2 s3 :
  finalize_frame s1 s2 -> finalize_frame s2 s3 -> finalize_frame s1 s3.
Proof.
  unfold finalize_frame. intros H1 H2.
  destruct H1 as (A1 & A2 & A3 & A4 & A5 & A6 & A7 & A8 & A9).
  destruct H2 as (B1 & B2 & B3 & B4 & B5 & B6 & B7 & B8 & B9).
  repeat split; congruence.
Qed.

(** The loop of [__finalize] over the state list. *)
Lemma sm_add_states l :
  forall s sm t nm st k states w,
    hkbStateMachineObj (snd s) = Some sm ->
    data (fst s) !! sm
    = Some {| obj_name := t; obj_body := StateMachine nm st k states w |} ->
    (forall e, e ∈ l -> class_at s (stateInfo e) "hkbStateMachineStateInfo") ->
    wp (for_each l (fun e =>
          let! sm := attr A_hkbStateMachineObj in
          hkbStateMachine.add_state sm (stateInfo e)))
      (fun r s' =>
         r = Ok tt /\
         hkbStateMachine_list_of_states (fst s')
         = hkbStateMachine_list_of_states (fst s)
           ++ map (fun e => tag_at s (stateInfo e)) l /\
         data (fst s')
         = <[ sm := {| obj_name := t;
                       obj_body :=
                         StateMachine nm st (k + length l)
                           (match l with
                            | [] => states
                            | _ => hkbStateMachine_list_of_states (fst s)
                                   ++ map (fun e => tag_at s (stateInfo e)) l
                            end) w |} ]> (data (fst s)) /\
         snd s' = snd s /\ finalize_frame s s') s.
Proof.
  induction l as [|e l IH]; intros s sm t nm st k states w Hsm Ho Hcl.
  - simpl. apply wp_ret. split; [reflexivity|].
    split; [rewrite app_nil_r; reflexivity|].
    split; [|split; [reflexivity | apply finalize_frame_refl]].
    rewrite Nat.add_0_r. symmetry. apply list_insert_id. exact Ho.
  - cbn [for_each]. apply wp_bind.
    apply wp_bind, wp_attr; [|simpl; rewrite Hsm; discriminate].
    intros sm' Hsm'. simpl in Hsm'. rewrite Hsm in Hsm'.
    injection Hsm' as <-.
    destruct (Hcl e (list_elem_of_here e l)) as (oe & Hoe & Hce).
    unfold hkbStateMachine.add_state.
    apply wp_bind. eapply wp_has_class_known; [exact Hoe|]. cbv beta iota.
    rewrite Hce. cbn [String.eqb Ascii.eqb Bool.eqb].
    apply wp_bind, wp_assert; [intros _|discriminate]. cbv beta iota.
    apply wp_bind. eapply wp_tag_of_known; [exact Hoe|]. cbv beta iota.
    apply wp_bind, wp_modify. cbv beta iota.
    apply wp_bind, wp_gets. cbv beta iota.
    apply wp_update.
    2:{ intros Hn. specialize (Hn _ Ho). discriminate. }
    intros o b Ho' Hb. simpl in Ho'. rewrite Ho in Ho'. injection Ho' as <-.
    simpl in Hb. injection Hb as <-. cbv beta iota.
    set (s1 := put sm _ _).
    assert (D1 : data (fst s1)
                 = <[ sm := {| obj_name := t;
                               obj_body :=
                                 StateMachine nm st (S k)
                                   (hkbStateMachine_list_of_states (fst s)
                                    ++ [obj_name oe]) w |} ]>
                     (data (fst s))).
    { unfold s1, put. simpl. rewrite Ho. reflexivity. }
    assert (S1 : hkbStateMachine_list_of_states (fst s1)
                 = hkbStateMachine_list_of_states (fst s) ++ [obj_name oe])
      by reflexivity.
    assert (B1 : snd s1 = snd s) by reflexivity.
    assert (F1 : finalize_frame s s1) by (repeat split).
    clearbody s1.
    assert (Htag : forall r, tag_at s1 r = tag_at s r).
    { intros r. unfold tag_at. rewrite D1.
      destruct (decide (sm = r)) as [<-|Hne].
      - rewrite list_lookup_insert_eq by (eapply lookup_lt_Some, Ho).
        rewrite Ho. reflexivity.
      - rewrite list_lookup_insert_ne by exact Hne. reflexivity. }
    eapply wp_mono.
    + apply (IH s1 sm t nm st (S k)
               (hkbStateMachine_list_of_states (fst s) ++ [obj_name oe]) w).
      * rewrite B1. exact Hsm.
      * rewrite D1. apply list_lookup_insert_eq. eapply lookup_lt_Some, Ho.
      * intros e' He'.
        destruct (Hcl e' (list_elem_of_further _ _ _ He')) as (o' & Ho' & Hc').
        exists o'. split; [|exact Hc'].
        rewrite D1, list_lookup_insert_ne; [exact Ho'|].
        intros Heq. rewrite <- Heq, Ho in Ho'. injection Ho' as <-.
        discriminate.
    + intros r s' (-> & HS & HD & HB & HF).
      assert (Hte : tag_at s (stateInfo e) = obj_name oe).
      { unfold tag_at. rewrite Hoe. reflexivity. }
      assert (Hmap : map (fun e0 => tag_at s1 (stateInfo e0)) l
                     = map (fun e0 => tag_at s (stateInfo e0)) l).
      { apply map_ext. intros e0. apply Htag. }
      split; [reflexivity|].
      split.
      { rewrite HS, S1, Hmap. cbn [map]. rewrite Hte, <- app_assoc.
        reflexivity. }
      split.
      { rewrite HD, D1, list_insert_insert_eq. f_equal. f_equal. f_equal.
        - cbn [length]. lia.
        - rewrite S1, Hmap. cbn [map]. rewrite Hte.
          destruct l; [reflexivity|]. rewrite <- app_assoc. reflexivity. }
      split; [congruence|]. eapply finalize_frame_trans; eassumption.
Qed.

(** The three objects [__finalize] appends to the document of [s]. *)
Definition finalize_objects (s : St) : list hkobject :=
  let c := object_counter (snd s) in
  let L := list_of_states (fst s) in
  [ {| obj_name := format_tag (S c);
       obj_body :=
         StateMachine "defaultNameBehavior" 0 (length L)
           (match L with
            | [] => []
            | _ => hkbStateMachine_list_of_states (fst s)
                   ++ map (fun e => tag_at s (stateInfo e)) L
            end)
           (match wildcardtransitions (snd s) with
            | Some w => tag_at s w
            | None => "null"
            end) |};
    {| obj_name := format_tag (S (S c));
       obj_body := BehaviorGraph "defaultNameBehavior.hkb"
                     (Some (format_tag (S c))) (Some "#0054") |};
    {| obj_name := "#0051";
       obj_body := RootLevelContainer (format_tag (S (S c))) |} ].

Definition finalized (s s' : St) : Prop :=
  data (fst s') = data (fst s) ++ finalize_objects s /\
  hkbStateMachine_list_of_states (fst s')
  = hkbStateMachine_list_of_states (fst s)
    ++ map (fun e => tag_at s (stateInfo e)) (list_of_states (fst s)) /\
  object_counter (snd s') = S (S (object_counter (snd s))) /\
  hkbStateMachineObj (snd s') = Some (length (data (fst s))) /\
  hkbBehaviorGraphObj (snd s') = Some (S (length (data (fst s)))) /\
  finalize_frame s s'.

Lemma reachable_graph_data s :
  reachable s -> exists o, data (fst s) !! 2 = Some o /\ obj_name o = "#0054".
Proof.
  intros [ops ->]. destruct (ext_run ops initial) as [He _].
  destruct (He 2 _ eq_refl) as (o & Ho & Hn & _). eauto.
Qed.

Lemma finalize_spec s :
  reachable s -> wp __finalize (fun r s' => r = Ok tt /\ finalized s s') s.
Proof.
  intros Hr.
  pose proof (reachable_Inv s Hr) as (_ & HH & _ & _ & [_ HW] & [_ Hes]).
  destruct (reachable_graph_data s Hr) as (ogd & Hogd & Hngd).
  unfold __finalize.
  (* the state machine *)
  apply wp_bind. unfold hkbStateMachine.__init__.
  apply wp_bind, wp_gets. cbv beta iota.
  apply wp_bind, wp_tag_or_null_ok.
  { intros w Hw. destruct (HW w Hw) as [(o & Ho & _) _]. eauto. }
  intros wt Hwt. cbv beta iota.
  assert (Ewt : wt = match wildcardtransitions (snd s) with
                     | Some w => tag_at s w
                     | None => "null"
                     end).
  { destruct (wildcardtransitions (snd s)) as [w|]; [|exact Hwt].
    destruct Hwt as (ob & Hob & ->). unfold tag_at. rewrite Hob.
    reflexivity. }
  clear Hwt.
  apply wp_new_hkobject. cbv beta iota.
  apply wp_bind, wp_modify. cbv beta iota.
  apply wp_bind, wp_gets. cbv beta iota.
  set (sm := length (data (fst s))).
  set (c := object_counter (snd s)).
  set (s1 := on_self (setattr A_hkbStateMachineObj sm)
               (alloc (StateMachine "defaultNameBehavior" 0 0 [] wt) s)).
  assert (D1 : data (fst s1)
               = data (fst s)
                 ++ [ {| obj_name := format_tag (S c);
                         obj_body := StateMachine "defaultNameBehavior" 0 0 []
                                       wt |} ]) by reflexivity.
  assert (S1 : hkbStateMachine_list_of_states (fst s1)
               = hkbStateMachine_list_of_states (fst s)) by reflexivity.
  assert (C1 : object_counter (snd s1) = S c) by reflexivity.
  assert (M1 : hkbStateMachineObj (snd s1) = Some sm) by reflexivity.
  assert (F1 : finalize_frame s s1) by (repeat split).
  change (list_of_states (fst s1)) with (list_of_states (fst s)).
  clearbody s1.
  assert (Hold : forall r o, data (fst s) !! r = Some o ->
                             data (fst s1) !! r = Some o).
  { intros r o Ho. rewrite D1. apply lookup_app_l_Some, Ho. }
  assert (Htag : forall r, r < sm -> tag_at s1 r = tag_at s r).
  { intros r Hlt. unfold tag_at. rewrite D1, lookup_app_l by exact Hlt.
    reflexivity. }
  apply wp_bind. eapply wp_mono.
  { apply (sm_add_states (list_of_states (fst s)) s1 sm (format_tag (S c))
             "defaultNameBehavior" 0 0 [] wt M1).
    - rewrite D1. apply list_lookup_middle. reflexivity.
    - intros e He. apply list_elem_of_lookup in He as [i Hi].
      destruct (Hes i e Hi) as (ts & tt & tg & en & ex & G
                                & (o & Ho & _ & Hb) & _).
      apply imm_StateInfo in Hb as [cl Hb].
      exists o. split; [apply Hold, Ho|]. rewrite Hb. reflexivity. }
  intros r s2 (-> & S2 & D2 & B2 & F2). cbv beta iota.
  assert (Hmap : map (fun e => tag_at s1 (stateInfo e)) (list_of_states (fst s))
                 = map (fun e => tag_at s (stateInfo e)) (list_of_states (fst s))).
  { apply map_ext_in. intros e He. apply Htag.
    apply list_elem_of_In, list_elem_of_lookup in He as [i Hi].
    destruct (Hes i e Hi) as (ts & tt & tg & en & ex & G
                              & (o & Ho & _) & _).
    eapply lookup_lt_Some, Ho. }
  rewrite Hmap, S1 in S2, D2. rewrite D1 in D2.
  rewrite (insert_app_r_alt _ _ sm) in D2 by (unfold sm; lia).
  replace (sm - length (data (fst s))) with 0 in D2 by (unfold sm; lia).
  cbn [insert list_insert] in D2. rewrite Nat.add_0_l in D2.
  (* the behavior graph *)
  destruct F1 as (L1 & E1 & Fi1 & N1 & W1 & H1a & H1b & H1c & H1d).
  destruct F2 as (L2 & E2 & Fi2 & N2 & W2 & H2a & H2b & H2c & H2d).
  destruct HH as (Ha & Hb & Hc & Hd).
  apply wp_bind. unfold hkbBehaviorGraph.__init__.
  apply wp_bind, wp_new_hkobject. cbv beta iota.
  set (bg := length (data (fst s2))).
  set (s3 := alloc (BehaviorGraph ("defaultNameBehavior" ++ ".hkb") None None) s2).
  assert (D3 : data (fst s3)
               = data (fst s2)
                 ++ [ {| obj_name := format_tag (S (S c));
                         obj_body := BehaviorGraph "defaultNameBehavior.hkb"
                                       None None |} ]).
  { unfold s3, alloc. simpl. rewrite B2, C1. reflexivity. }
  assert (B3 : snd s3 = bump_counter (snd s2)) by reflexivity.
  assert (P3 : hkbStateMachine_list_of_states (fst s3)
               = hkbStateMachine_list_of_states (fst s2)) by reflexivity.
  assert (F3 : finalize_frame s2 s3) by (repeat split).
  clearbody s3.
  assert (Hbg : data (fst s2) !! bg = None) by (apply lookup_ge_None_2; unfold bg; lia).
  apply wp_bind, wp_attr; [|rewrite B3; simpl; rewrite B2, M1; discriminate].
  intros sm' Hsm'. rewrite B3 in Hsm'. simpl in Hsm'. rewrite B2, M1 in Hsm'.
  injection Hsm' as <-.
  apply wp_bind. eapply wp_tag_of_known.
  { rewrite D3. apply lookup_app_l_Some. rewrite D2.
    apply list_lookup_middle. reflexivity. }
  cbv beta iota. cbn [obj_name].
  apply wp_bind, wp_update.
  2:{ intros Hno. exfalso.
      specialize (Hno _ ltac:(rewrite D3; apply list_lookup_middle; reflexivity)).
      discriminate. }
  intros o3 b3 Ho3 Hb3.
  rewrite D3, list_lookup_middle in Ho3 by reflexivity.
  injection Ho3 as <-. cbn in Hb3. injection Hb3 as <-.
  set (s4 := put bg _ s3).
  assert (D4 : data (fst s4)
               = data (fst s2)
                 ++ [ {| obj_name := format_tag (S (S c));
                         obj_body := BehaviorGraph "defaultNameBehavior.hkb"
                                       (Some (format_tag (S c))) None |} ]).
  { unfold s4.
    rewrite (put_data _ _ _ _ ltac:(rewrite D3; apply list_lookup_middle;
                                    reflexivity)), D3.
    cbn [obj_name]. unfold bg.
    rewrite insert_app_r_alt by lia. rewrite Nat.sub_diag. reflexivity. }
  assert (B4 : snd s4 = bump_counter (snd s2)) by (rewrite <- B3; reflexivity).
  assert (P4 : hkbStateMachine_list_of_states (fst s4)
               = hkbStateMachine_list_of_states (fst s2)) by (rewrite <- P3; reflexivity).
  assert (F4 : finalize_frame s2 s4).
  { eapply finalize_frame_trans; [exact F3|]. repeat split. }
  clearbody s4.
  apply wp_bind, wp_attr; [|rewrite B4; simpl; rewrite H2c, H1c, Hc; discriminate].
  intros gd Hgd. rewrite B4 in Hgd. simpl in Hgd. rewrite H2c, H1c, Hc in Hgd.
  injection Hgd as <-.
  apply wp_bind. eapply wp_tag_of_known.
  { rewrite D4. apply lookup_app_l_Some. rewrite D2.
    apply lookup_app_l_Some, Hogd. }
  cbv beta iota. rewrite Hngd.
  apply wp_bind, wp_update.
  2:{ intros Hno. exfalso.
      specialize (Hno _ ltac:(rewrite D4; apply list_lookup_middle; reflexivity)).
      discriminate. }
  intros o4 b4 Ho4 Hb4.
  rewrite D4, list_lookup_middle in Ho4 by reflexivity.
  injection Ho4 as <-. cbn in Hb4. injection Hb4 as <-.
  set (s5 := put bg _ s4).
  assert (D5 : data (fst s5)
               = data (fst s2)
                 ++ [ {| obj_name := format_tag (S (S c));
                         obj_body := BehaviorGraph "defaultNameBehavior.hkb"
                                       (Some (format_tag (S c)))
                                       (Some "#0054") |} ]).
  { unfold s5.
    rewrite (put_data _ _ _ _ ltac:(rewrite D4; apply list_lookup_middle;
                                    reflexivity)), D4.
    cbn [obj_name]. unfold bg.
    rewrite insert_app_r_alt by lia. rewrite Nat.sub_diag. reflexivity. }
  assert (B5 : snd s5 = bump_counter (snd s2)) by (rewrite <- B4; reflexivity).
  assert (P5 : hkbStateMachine_list_of_states (fst s5)
               = hkbStateMachine_list_of_states (fst s2)) by (rewrite <- P4; reflexivity).
  assert (F5 : finalize_frame s2 s5).
  { eapply finalize_frame_trans; [exact F4|]. repeat split. }
  clearbody s5.
  apply wp_ret. cbv beta iota.
  apply wp_bind, wp_modify. cbv beta iota.
  apply wp_bind, wp_attr; [|discriminate].
  intros bg' Hbg'. simpl in Hbg'. injection Hbg' as <-.
  apply wp_bind. eapply wp_tag_of_known.
  { simpl. rewrite D5. apply list_lookup_middle. reflexivity. }
  cbv beta iota. cbn [obj_name].
  apply wp_modify.
  split; [reflexivity|]. unfold finalized, finalize_objects. fold c.
  destruct F5 as (L5 & E5 & Fi5 & N5 & W5 & H5a & H5b & H5c & H5d).
  simpl. rewrite B5, P5, D5, D2, S2. simpl. rewrite B2, C1.
  split.
  { rewrite <- !app_assoc. simpl. rewrite Ewt. reflexivity. }
  split; [reflexivity|]. split; [reflexivity|].
  split; [exact M1|].
  split.
  { unfold bg. rewrite D2, length_app. simpl. f_equal. fold sm. lia. }
  unfold finalize_frame. simpl. rewrite B5. simpl. rewrite B2.
  repeat split; congruence.
Qed.

(** * Properties of the builder *)

(** ** Tags *)

(** X1: [_OCnext] formats the counter as ["#%04d"]: two different counters
    never give the same tag, also past 9999, where the tag has more than
    four digits. *)
Theorem tags_of_distinct_counters (n m : nat) :
  n <> m -> format_tag n <> format_tag m.
Proof. intros Hne Heq. apply Hne, format_tag_inj, Heq. Qed.

Lemma tags_of_distinct_counters_witness :
  format_tag (99 * 101) = "#9999" /\ format_tag (100 * 100) = "#10000" /\
  format_tag (99 * 101) <> format_tag (100 * 100).
Proof.
  split; [reflexivity|]. split; [reflexivity|].
  apply (tags_of_distinct_counters (99 * 101) (100 * 100)).
  apply Nat.lt_neq, Nat.ltb_lt. vm_compute. reflexivity.
Defined.

(** ** [add_state] *)

(** X2: [add_state] called with a name that a state already has, or for a
    [.hkx] state without an animation path, returns normally and changes
    nothing but the log: no object, no state, no tag and no state index is
    used. *)
Theorem add_state_rejected_changes_nothing name path looping g en ex s :
  (g = false /\ path = "placeholder") \/ name ∈ names_of s ->
  snd (add_state name path looping g en ex s) = Ok tt /\
  quiet s (fst (add_state name path looping g en ex s)).
Proof.
  intros H.
  assert (Hr : registers name path g s = false).
  { unfold registers. destruct H as [[-> ->]|Hin]; [reflexivity|].
    apply existsb_stateName in Hin. unfold names_of in *.
    rewrite Hin. apply andb_false_r. }
  destruct (add_state_rejected name path looping g en ex s Hr) as [msg ->].
  split; [reflexivity | apply quiet_warning].
Qed.

Lemma add_state_rejected_changes_nothing_witness :
  "A" ∈ names_of one_state /\
  snd (add_state "A" "animations\other.hkx" false false (NStr "null")
         (NStr "null") one_state) = Ok tt /\
  data (fst (fst (add_state "A" "animations\other.hkx" false false
                    (NStr "null") (NStr "null") one_state)))
  = data (fst one_state).
Proof.
  assert (Hin : "A" ∈ names_of one_state) by (apply list_elem_of_here).
  split; [exact Hin|].
  destruct (add_state_rejected_changes_nothing "A" "animations\other.hkx"
              false false (NStr "null") (NStr "null") one_state
              (or_intror Hin)) as [Hok (Hd & _)].
  split; [exact Hok | exact Hd].
Defined.



(** ** The state list *)

(** X4: in a state a builder can reach, no two entries of the state list
    have the same name. *)
Theorem state_names_unique s i j e e' :
  reachable s ->
  list_of_states (fst s) !! i = Some e ->
  list_of_states (fst s) !! j = Some e' ->
  stateName e = stateName e' -> i = j.
Proof.
  intros Hr Hi Hj Hn.
  apply (NoDup_lookup _ i j (stateName e) (reachable_NoDupNames s Hr));
    unfold names_of; rewrite list_lookup_fmap.
  - rewrite Hi. reflexivity.
  - rewrite Hj, Hn. reflexivity.
Qed.

Lemma state_names_unique_witness :
  exists e,
    list_of_states (fst two_states) !! 1 = Some e /\ stateName e = "B" /\
    forall j e', list_of_states (fst two_states) !! j = Some e' ->
                 stateName e = stateName e' -> 1 = j.
Proof.
  eexists. split; [reflexivity|]. split; [reflexivity|].
  intros j e' Hj Hn.
  refine (state_names_unique two_states 1 j _ e' _ eq_refl Hj Hn).
  eexists. reflexivity.
Defined.

(** X5: for the first builder of a process (no other [BehaviorFile] has
    been created in it), in every state it can reach through its API, the
    state counter is the length of the state list, also when the list is
    empty; and the entry at position [i] has a state object with the
    entry's name and the id [i], which names the tags of the entry's
    transition table and generator; the table is a transition table and
    the generator a clip or a legacy generator. *)
Theorem states_are_numbered s :
  reachable s ->
  nStates (snd s) = length (list_of_states (fst s)) /\
  forall i e, list_of_states (fst s) !! i = Some e ->
  exists o en ex c,
    data (fst s) !! stateInfo e = Some o /\
    obj_body o = StateInfo en ex (tag_at s (stateTransitions e))
                   (tag_at s (stateGenerator e)) (stateName e) i c /\
    class_at s (stateTransitions e) "hkbStateMachineTransitionInfoArray" /\
    (class_at s (stateGenerator e) "hkbClipGenerator" \/
     class_at s (stateGenerator e) "BGSGamebryoSequenceGenerator").
Proof.
  intros Hr.
  pose proof (reachable_Inv s Hr) as (_ & _ & _ & _ & _ & [Hc Hes]).
  split; [exact Hc|]. intros i e Hi.
  destruct (Hes i e Hi)
    as (ts & tt & tg & en & ex & G & (o & Ho & _ & Hb) & (ot & Hot & Hnt & Hbt)
        & (og & Hog & Hng & Hbg) & HG).
  apply imm_StateInfo in Hb as [c Hb].
  exists o, en, ex, c. split; [exact Ho|].
  split.
  { unfold tag_at. rewrite Hot, Hog, Hnt, Hng. exact Hb. }
  split.
  { exists ot. split; [exact Hot|].
    rewrite <- class_name_immutable_part, Hbt. reflexivity. }
  assert (Hcl : class_name (obj_body og) = class_name G).
  { rewrite <- class_name_immutable_part, Hbg. reflexivity. }
  destruct G; try contradiction; [left|right]; exists og; auto.
Qed.

Lemma states_are_numbered_witness :
  nStates (snd initial) = length (list_of_states (fst initial)) /\
  exists e o en ex c,
    list_of_states (fst two_states) !! 1 = Some e /\
    nStates (snd two_states) = 2 /\
    data (fst two_states) !! stateInfo e = Some o /\
    obj_body o = StateInfo en ex (tag_at two_states (stateTransitions e))
                   (tag_at two_states (stateGenerator e)) "B" 1 c.
Proof.
  split.
  { apply (states_are_numbered initial). exists []. reflexivity. }
  assert (Hr : reachable two_states) by (eexists; reflexivity).
  eexists.
  destruct (states_are_numbered two_states Hr) as [Hn He].
  destruct (He 1 _ eq_refl) as (o & en & ex & c & Ho & Hb & _).
  exists o, en, ex, c. split; [reflexivity|].
  split; [exact Hn|]. split; [exact Ho | exact Hb].
Defined.

(** X6: for the first builder of a process, in every state it can reach
    through its API, every transition table carries as [numelements] the
    number of its children, and every trigger table the number of its
    finished children: an [add_trigger] that raised [OverflowError] has
    left an unfinished [triggers] child (a [localTime] parameter without
    text and nothing else) that is not counted, so that [numelements] is
    then less than the number of children. *)
Theorem tables_count_their_children s r o :
  reachable s -> data (fst s) !! r = Some o ->
  match obj_body o with
  | TransitionInfoArray n ts => n = length ts
  | ClipTriggerArray n ts =>
      n = length (finished_triggers ts) /\ n <= length ts
  | _ => True
  end.
Proof.
  intros Hr Ho.
  pose proof (reachable_Inv s Hr) as (_ & _ & HC & _).
  specialize (HC r o Ho). unfold body_counts_ok in HC.
  destruct (obj_body o); try exact HC.
  split; [exact HC|]. rewrite HC. clear.
  induction triggers as [|[t|] l IH]; simpl; lia.
Qed.

Lemma tables_count_their_children_witness :
  let s := run [Add_state "A" "animations\a.hkx" false false (NStr "null")
                  (NStr "null");
                Add_state "B" "animations\b.hkx" false false (NStr "null")
                  (NStr "null");
                Connect_states "A" "B" "go";
                Add_clip_trigger "A" "hit" false (PyInt 2);
                Add_clip_trigger "A" "hit" false (PyInt (10 ^ 400))] initial in
  let ts := [ {| t_transition := "#0055"; t_condition := "null";
                 t_eventId := 0; t_toStateId := 1;
                 t_flags := "FLAG_DISABLE_CONDITION" |} ] in
  let tr := [ Finished {| tr_localTime := S754_finite false 4503599627370496 (-51);
                          tr_eventId := 1; tr_relativeToEndOfClip := false |};
              Unfinished ] in
  data (fst s) !! 4
  = Some {| obj_name := "#0056"; obj_body := TransitionInfoArray 1 ts |} /\
  1 = length ts /\
  data (fst s) !! 10
  = Some {| obj_name := "#0062"; obj_body := ClipTriggerArray 1 tr |} /\
  1 = length (finished_triggers tr) /\ 1 <= length tr.
Proof.
  intros s ts tr.
  assert (Hr : reachable s) by (eexists; reflexivity).
  assert (Hl : data (fst s) !! 4
               = Some {| obj_name := "#0056";
                         obj_body := TransitionInfoArray 1 ts |})
    by (vm_compute; reflexivity).
  assert (Hc : data (fst s) !! 10
               = Some {| obj_name := "#0062";
                         obj_body := ClipTriggerArray 1 tr |})
    by (vm_compute; reflexivity).
  split; [exact Hl|].
  split; [exact (tables_count_their_children s 4 _ Hr Hl)|].
  split; [exact Hc|].
  exact (tables_count_their_children s 10 _ Hr Hc).
Defined.

(** ** [connect_states] *)

(** X7: [connect_states] from a state to itself fails its assertion and
    changes nothing, whatever the builder holds. *)
Theorem connect_states_same_name_raises a ev s :
  connect_states a a ev s = (s, Raise AssertionError).
Proof.
  unfold connect_states, bind, assert. rewrite String.eqb_refl. reflexivity.
Qed.

(** [transition_added table ev j flags s s']: from [s] to [s'] the table at
    [table] has got one more transition, the last one, on the event [ev] to
    the state of id [j], with the default blend effect ["#0055"], no
    condition and the flags [flags]; the other objects, the event tables
    apart, are as they were. *)
Definition transition_added (table : nat) (ev : string) (j : nat)
  (flags : string) (s s' : St) : Prop :=
  exists id,
    hkbBehaviorGraphStringData.first_index ev (event_name_list (fst s')) 0
    = Some id /\
    transitions_at s' table
    = transitions_at s table
      ++ [ {| t_transition := "#0055"; t_condition := "null";
              t_eventId := id; t_toStateId := j; t_flags := flags |} ] /\
    forall r o, r <> table -> data (fst s) !! r = Some o ->
                ~ is_event_table (obj_body o) ->
                data (fst s') !! r = Some o.

Lemma connect_states_outcome a b ev s e1 e2 j :
  reachable s -> a <> b ->
  fst (for_break a (list_of_states (fst s)) None) = Some e1 ->
  fst (for_break b (list_of_states (fst s)) None) = Some e2 ->
  list_of_states (fst s) !! j = Some e2 ->
  let s' := fst (connect_states a b ev s) in
  snd (connect_states a b ev s) = Ok tt /\
  transition_added (stateTransitions e1) ev j "FLAG_DISABLE_CONDITION" s s' /\
  map obj_name (data (fst s')) = map obj_name (data (fst s)) /\
  list_of_states (fst s') = list_of_states (fst s) /\
  snd s' = snd s.
Proof.
  intros Hr Hab H1 H2 Hj s'.
  destruct (connect_states_core a b ev s e1 e2 j Hr Hab H1 H2 Hj)
    as (Hok & id & Hid & Htr & Hoth & Htags & HL & HB).
  split; [exact Hok|]. split; [|auto].
  exists id. auto.
Qed.

(** X8: in a state a builder can reach, [connect_states] between two
    different registered states returns normally and appends one transition
    to the table of the first state: to the id of the second state, on the
    event's id, without the wildcard flag.  It creates no object and
    changes neither the state list nor the builder's attributes. *)
Theorem connect_states_adds_transition a b ev s i j e1 e2 :
  reachable s -> a <> b ->
  list_of_states (fst s) !! i = Some e1 -> stateName e1 = a ->
  list_of_states (fst s) !! j = Some e2 -> stateName e2 = b ->
  let s' := fst (connect_states a b ev s) in
  snd (connect_states a b ev s) = Ok tt /\
  transition_added (stateTransitions e1) ev j "FLAG_DISABLE_CONDITION" s s' /\
  map obj_name (data (fst s')) = map obj_name (data (fst s)) /\
  list_of_states (fst s') = list_of_states (fst s) /\
  snd s' = snd s.
Proof.
  intros Hr Hab Hi Ha Hj Hb.
  pose proof (reachable_NoDupNames s Hr) as Hnd.
  apply (connect_states_outcome a b ev s e1 e2 j Hr Hab); [| |exact Hj].
  - rewrite (for_break_entry a _ i e1 None Hnd Hi Ha). reflexivity.
  - rewrite (for_break_entry b _ j e2 None Hnd Hj Hb). reflexivity.
Qed.

Lemma connect_states_adds_transition_witness :
  snd (connect_states "A" "B" "go" two_states) = Ok tt /\
  transitions_at (fst (connect_states "A" "B" "go" two_states)) 4
  = [ {| t_transition := "#0055"; t_condition := "null"; t_eventId := 0;
         t_toStateId := 1; t_flags := "FLAG_DISABLE_CONDITION" |} ] /\
  snd (fst (connect_states "A" "B" "go" two_states)) = snd two_states.
Proof.
  assert (Hr : reachable two_states) by (eexists; reflexivity).
  assert (Hab : "A" <> "B") by discriminate.
  destruct (connect_states_adds_transition "A" "B" "go" two_states 0 1 _ _
              Hr Hab eq_refl eq_refl eq_refl eq_refl)
    as (Hok & _ & _ & _ & HB).
  split; [exact Hok|]. split; [vm_compute; reflexivity | exact HB].
Defined.

(** X9: [connect_states] does not stop when the first name is not
    registered.  In a state a builder can reach, when the second name is
    registered, at position [j], it warns, returns normally and appends
    the transition to the state [j] to the table of the last state of the
    list. *)
Theorem connect_states_unknown_source a b ev s e1 j e2 :
  reachable s -> a <> b ->
  a ∉ names_of s -> last (list_of_states (fst s)) = Some e1 ->
  list_of_states (fst s) !! j = Some e2 -> stateName e2 = b ->
  let s' := fst (connect_states a b ev s) in
  snd (connect_states a b ev s) = Ok tt /\
  transition_added (stateTransitions e1) ev j "FLAG_DISABLE_CONDITION" s s' /\
  list_of_states (fst s') = list_of_states (fst s).
Proof.
  intros Hr Hab Hn Hlast Hj Hb s'.
  pose proof (reachable_NoDupNames s Hr) as Hnd.
  destruct (connect_states_outcome a b ev s e1 e2 j Hr Hab)
    as (H1 & H2 & _ & H3 & _).
  - rewrite (for_break_miss a _ None Hn), Hlast. reflexivity.
  - rewrite (for_break_entry b _ j e2 None Hnd Hj Hb). reflexivity.
  - exact Hj.
  - auto.
Qed.

Lemma connect_states_unknown_source_witness :
  snd (connect_states "X" "A" "go" two_states) = Ok tt /\
  map stateTransitions (list_of_states (fst two_states)) = [4; 7] /\
  transitions_at (fst (connect_states "X" "A" "go" two_states)) 7
  = [ {| t_transition := "#0055"; t_condition := "null"; t_eventId := 0;
         t_toStateId := 0; t_flags := "FLAG_DISABLE_CONDITION" |} ].
Proof.
  assert (Hr : reachable two_states) by (eexists; reflexivity).
  assert (Hab : "X" <> "A") by discriminate.
  assert (Hn : "X" ∉ names_of two_states).
  { intros H. apply list_elem_of_In in H. simpl in H.
    destruct H as [H|[H|[]]]; discriminate. }
  destruct (connect_states_unknown_source "X" "A" "go" two_states _ 0 _
              Hr Hab Hn eq_refl eq_refl eq_refl) as (Hok & _ & _).
  split; [exact Hok|]. split; vm_compute; reflexivity.
Defined.

(** X10: nor does it stop when the second name is not registered: the
    transition it appends to the table of the first state then goes to the
    id of the last state of the list. *)
Theorem connect_states_unknown_target a b ev s i e1 :
  reachable s -> a <> b ->
  list_of_states (fst s) !! i = Some e1 -> stateName e1 = a ->
  b ∉ names_of s ->
  let s' := fst (connect_states a b ev s) in
  snd (connect_states a b ev s) = Ok tt /\
  transition_added (stateTransitions e1) ev
    (length (list_of_states (fst s)) - 1) "FLAG_DISABLE_CONDITION" s s' /\
  list_of_states (fst s') = list_of_states (fst s).
Proof.
  intros Hr Hab Hi Ha Hn s'.
  pose proof (reachable_NoDupNames s Hr) as Hnd.
  destruct (last (list_of_states (fst s))) as [e2|] eqn:Hlast.
  2:{ apply last_None in Hlast. rewrite Hlast in Hi. discriminate. }
  assert (Hj : list_of_states (fst s) !! (length (list_of_states (fst s)) - 1)
               = Some e2).
  { rewrite last_lookup in Hlast.
    replace (length (list_of_states (fst s)) - 1)
      with (pred (length (list_of_states (fst s)))) by lia.
    exact Hlast. }
  destruct (connect_states_outcome a b ev s e1 e2
              (length (list_of_states (fst s)) - 1) Hr Hab)
    as (H1 & H2 & _ & H3 & _).
  - rewrite (for_break_entry a _ i e1 None Hnd Hi Ha). reflexivity.
  - rewrite (for_break_miss b _ None Hn), Hlast. reflexivity.
  - exact Hj.
  - auto.
Qed.

Lemma connect_states_unknown_target_witness :
  snd (connect_states "A" "X" "go" two_states) = Ok tt /\
  transitions_at (fst (connect_states "A" "X" "go" two_states)) 4
  = [ {| t_transition := "#0055"; t_condition := "null"; t_eventId := 0;
         t_toStateId := 1; t_flags := "FLAG_DISABLE_CONDITION" |} ].
Proof.
  assert (Hr : reachable two_states) by (eexists; reflexivity).
  assert (Hab : "A" <> "X") by discriminate.
  assert (Hn : "X" ∉ names_of two_states).
  { intros H. apply list_elem_of_In in H. simpl in H.
    destruct H as [H|[H|[]]]; discriminate. }
  destruct (connect_states_unknown_target "A" "X" "go" two_states 0 _
              Hr Hab eq_refl eq_refl Hn) as (Hok & _ & _).
  split; [exact Hok | vm_compute; reflexivity].
Defined.

(** X11: with no state at all, [connect_states] warns twice, registers
    the event and only then raises, on the loop variable that was never
    bound: the event stays registered. *)
Theorem connect_states_without_states a b ev s :
  reachable s -> a <> b -> list_of_states (fst s) = [] ->
  let s' := fst (connect_states a b ev s) in
  snd (connect_states a b ev s) = Raise UnboundLocalError /\
  ev ∈ event_name_list (fst s') /\
  list_of_states (fst s') = [].
Proof.
  intros Hr Hab HL.
  pose proof (reachable_Inv s Hr) as HI.
  change (wp (connect_states a b ev)
            (fun r s' => r = Raise UnboundLocalError /\
                         ev ∈ event_name_list (fst s') /\
                         list_of_states (fst s') = []) s).
  unfold connect_states.
  apply wp_bind, wp_assert;
    [intros _
    |intros Hf; apply negb_false_iff, String.eqb_eq in Hf; contradiction].
  cbv beta iota. apply wp_bind, wp_gets. cbv beta iota zeta. rewrite HL.
  apply wp_bind, wp_warn_unless. intros sA HqA. cbv beta iota.
  apply wp_bind, wp_warn_unless. intros sB HqB. cbv beta iota.
  pose proof (quiet_trans _ _ _ HqA HqB) as Hq.
  pose proof (Inv_quiet _ _ HI Hq) as (HEB & _).
  apply wp_bind.
  eapply wp_mono; [apply getOrCreateEventID_spec, HEB|].
  intros r sC (id & -> & Hid & _ & _ & _ & _ & LC). cbv beta iota.
  apply wp_bind, wp_raise.
  split; [reflexivity|]. split.
  - apply first_index_Some in Hid as (_ & Hk & _).
    eapply list_elem_of_lookup_2, Hk.
  - rewrite LC. destruct Hq as (_ & -> & _). exact HL.
Qed.

Lemma connect_states_without_states_witness :
  snd (connect_states "A" "B" "go" initial) = Raise UnboundLocalError /\
  "go" ∈ event_name_list (fst (fst (connect_states "A" "B" "go" initial))).
Proof.
  assert (Hr : reachable initial) by (exists []; reflexivity).
  assert (Hab : "A" <> "B") by discriminate.
  destruct (connect_states_without_states "A" "B" "go" initial Hr Hab eq_refl)
    as (H1 & H2 & _).
  split; [exact H1 | exact H2].
Defined.

(** ** [add_wildcard] *)

(** X12: [add_wildcard] for a name that is not registered returns
    normally and changes nothing but the log. *)
Theorem add_wildcard_unknown_state_only_warns x ev s :
  x ∉ names_of s ->
  snd (add_wildcard x ev s) = Ok tt /\ quiet s (fst (add_wildcard x ev s)).
Proof.
  intros Hn. unfold add_wildcard, bind, gets. cbn [fst snd].
  rewrite (for_break_miss x _ None Hn). cbn [fst snd].
  split; [reflexivity | apply quiet_warning].
Qed.

Lemma add_wildcard_unknown_state_only_warns_witness :
  snd (add_wildcard "X" "go" one_state) = Ok tt /\
  data (fst (fst (add_wildcard "X" "go" one_state))) = data (fst one_state) /\
  snd (fst (add_wildcard "X" "go" one_state)) = snd one_state.
Proof.
  assert (Hn : "X" ∉ names_of one_state).
  { intros H. apply list_elem_of_In in H. simpl in H.
    destruct H as [H|[]]; discriminate. }
  destruct (add_wildcard_unknown_state_only_warns "X" "go" one_state Hn)
    as (Hok & Hd & _ & _ & _ & _ & Hb).
  split; [exact Hok|]. split; [exact Hd | exact Hb].
Defined.

Lemma add_wildcard_outcome x ev s j e :
  reachable s ->
  list_of_states (fst s) !! j = Some e -> stateName e = x ->
  let s' := fst (add_wildcard x ev s) in
  snd (add_wildcard x ev s) = Ok tt /\
  exists w,
    wildcardtransitions (snd s') = Some w /\
    (w ∉ map stateTransitions (list_of_states (fst s))) /\
    transition_added w ev j "FLAG_IS_LOCAL_WILDCARD|FLAG_DISABLE_CONDITION"
      s s' /\
    list_of_states (fst s') = list_of_states (fst s) /\
    match wildcardtransitions (snd s) with
    | Some w0 =>
        w = w0 /\
        map obj_name (data (fst s')) = map obj_name (data (fst s)) /\
        object_counter (snd s') = object_counter (snd s)
    | None =>
        w = length (data (fst s)) /\
        map obj_name (data (fst s'))
        = map obj_name (data (fst s))
          ++ [format_tag (S (object_counter (snd s)))] /\
        object_counter (snd s') = S (object_counter (snd s))
    end.
Proof.
  intros Hr Hj Hx s'.
  pose proof (reachable_NoDupNames s Hr) as Hnd.
  destruct (add_wildcard_core x ev s e j Hr
              (for_break_entry x _ j e None Hnd Hj Hx) Hj)
    as (Hok & w & id & Hw & Hcase & Hid & Htr & Hnot & Hoth & HL).
  split; [exact Hok|]. exists w.
  split; [exact Hw|]. split; [exact Hnot|].
  split; [exists id; auto|]. split; [exact HL | exact Hcase].
Qed.

(** X13: in a state a builder can reach, [add_wildcard] for a registered
    state returns normally and appends one transition with the wildcard
    flag, to the id of that state, to the builder's wildcard table.  The
    table is made at the first such call, as the next object of the
    document and under the next tag, and it is the table of no state;
    later calls use the same table and create nothing. *)
Theorem add_wildcard_adds_transition x ev s j e :
  reachable s ->
  list_of_states (fst s) !! j = Some e -> stateName e = x ->
  let s' := fst (add_wildcard x ev s) in
  snd (add_wildcard x ev s) = Ok tt /\
  exists w,
    wildcardtransitions (snd s') = Some w /\
    (w ∉ map stateTransitions (list_of_states (fst s))) /\
    transition_added w ev j "FLAG_IS_LOCAL_WILDCARD|FLAG_DISABLE_CONDITION"
      s s' /\
    list_of_states (fst s') = list_of_states (fst s) /\
    match wildcardtransitions (snd s) with
    | Some w0 =>
        w = w0 /\
        map obj_name (data (fst s')) = map obj_name (data (fst s)) /\
        object_counter (snd s') = object_counter (snd s)
    | None =>
        w = length (data (fst s)) /\
        map obj_name (data (fst s'))
        = map obj_name (data (fst s))
          ++ [format_tag (S (object_counter (snd s)))] /\
        object_counter (snd s') = S (object_counter (snd s))
    end.
Proof. exact (add_wildcard_outcome x ev s j e). Qed.

Lemma add_wildcard_adds_transition_witness :
  snd (add_wildcard "B" "reset" two_states) = Ok tt /\
  wildcardtransitions (snd two_states) = None /\
  wildcardtransitions (snd (fst (add_wildcard "B" "reset" two_states)))
  = Some (length (data (fst two_states))) /\
  transitions_at (fst (add_wildcard "B" "reset" two_states))
    (length (data (fst two_states)))
  = [ {| t_transition := "#0055"; t_condition := "null"; t_eventId := 0;
         t_toStateId := 1;
         t_flags := "FLAG_IS_LOCAL_WILDCARD|FLAG_DISABLE_CONDITION" |} ].
Proof.
  assert (Hr : reachable two_states) by (eexists; reflexivity).
  destruct (add_wildcard_adds_transition "B" "reset" two_states 1 _ Hr
              eq_refl eq_refl) as (Hok & _).
  split; [exact Hok|]. split; [reflexivity|].
  split; vm_compute; reflexivity.
Defined.

(** X14: the wildcard table is made once.  After an [add_wildcard] for a
    registered state, a second one, for any registered state, uses the
    table of the first, creates no object and appends its transition after
    the first one's. *)
Theorem add_wildcard_reuses_table x y ev ev' s j e j' e' :
  reachable s ->
  list_of_states (fst s) !! j = Some e -> stateName e = x ->
  list_of_states (fst s) !! j' = Some e' -> stateName e' = y ->
  let s1 := fst (add_wildcard x ev s) in
  let s2 := fst (add_wildcard y ev' s1) in
  exists w t1 t2,
    wildcardtransitions (snd s1) = Some w /\
    wildcardtransitions (snd s2) = Some w /\
    map obj_name (data (fst s2)) = map obj_name (data (fst s1)) /\
    transitions_at s2 w = transitions_at s w ++ [t1; t2] /\
    t_toStateId t1 = j /\ t_toStateId t2 = j'.
Proof.
  intros Hr Hj Hx Hj' Hy s1 s2.
  destruct (add_wildcard_outcome x ev s j e Hr Hj Hx)
    as (_ & w & Hw & _ & (id1 & _ & Ht1 & _) & HL & _).
  fold s1 in Hw, Ht1, HL.
  assert (Hr1 : reachable s1)
    by exact (reachable_step s (Add_wildcard x ev) Hr).
  rewrite <- HL in Hj'.
  destruct (add_wildcard_outcome y ev' s1 j' e' Hr1 Hj' Hy)
    as (_ & w' & Hw' & _ & (id2 & _ & Ht2 & _) & _ & Hcase).
  fold s2 in Hw', Ht2, Hcase. rewrite Hw in Hcase.
  destruct Hcase as (-> & Htags & _).
  eexists w, _, _. split; [exact Hw|]. split; [exact Hw'|].
  split; [exact Htags|].
  split; [rewrite Ht2, Ht1, <- app_assoc; reflexivity|].
  split; reflexivity.
Qed.

Lemma add_wildcard_reuses_table_witness :
  exists w t1 t2,
    wildcardtransitions (snd (fst (add_wildcard "A" "go" two_states)))
    = Some w /\
    wildcardtransitions
      (snd (fst (add_wildcard "B" "stop"
                   (fst (add_wildcard "A" "go" two_states))))) = Some w /\
    transitions_at
      (fst (add_wildcard "B" "stop" (fst (add_wildcard "A" "go" two_states))))
      w
    = transitions_at two_states w ++ [t1; t2] /\
    t_toStateId t1 = 0 /\ t_toStateId t2 = 1.
Proof.
  assert (Hr : reachable two_states) by (eexists; reflexivity).
  destruct (add_wildcard_reuses_table "A" "B" "go" "stop" two_states 0 _ 1 _
              Hr eq_refl eq_refl eq_refl eq_refl)
    as (w & t1 & t2 & H1 & H2 & _ & H3 & H4 & H5).
  exists w, t1, t2. auto.
Defined.

(** ** [add_clip_trigger] *)

(** X15: in a state a builder can reach, [add_clip_trigger] for a
    registered state with a legacy (Gamebryo) generator raises
    [TypeError], and leaves everything as it was: no table is made and no
    event is registered. *)
Theorem add_clip_trigger_legacy_state_raises x ev rel lt s i e :
  reachable s ->
  list_of_states (fst s) !! i = Some e -> stateName e = x ->
  class_at s (stateGenerator e) "BGSGamebryoSequenceGenerator" ->
  add_clip_trigger x ev rel lt s = (s, Raise TypeError).
Proof.
  intros Hr Hi Hx (og & Hog & Hc).
  pose proof (reachable_NoDupNames s Hr) as Hnd.
  apply wp_eq. unfold add_clip_trigger.
  apply wp_bind, wp_gets. cbv beta iota zeta.
  rewrite (for_break_entry x _ i e None Hnd Hi Hx). cbn [fst snd].
  apply wp_bind, wp_ret. apply wp_bind, wp_ret.
  apply wp_bind. eapply wp_has_class_known; [exact Hog|]. cbv beta iota.
  rewrite Hc. cbn [String.eqb Ascii.eqb Bool.eqb].
  apply wp_raise. split; reflexivity.
Qed.

(** A builder with the legacy state ["Door"]. *)
Definition legacy_state : St :=
  run [Add_state "Door" "placeholder" false true (NStr "null") (NStr "null")]
    initial.

Lemma add_clip_trigger_legacy_state_raises_witness :
  map stateName (list_of_states (fst legacy_state)) = ["Door"] /\
  add_clip_trigger "Door" "open" false (PyInt 0) legacy_state
  = (legacy_state, Raise TypeError).
Proof.
  split; [reflexivity|].
  refine (add_clip_trigger_legacy_state_raises "Door" "open" false (PyInt 0)
            legacy_state 0 _ _ eq_refl eq_refl _).
  - eexists. reflexivity.
  - eexists. split; reflexivity.
Defined.

(** [float(localTime)] at its limits: [2^1024 - 2^970 - 1] rounds down to
    the largest double, and [2^1024 - 2^970], half-way to [2^1024], rounds
    to even, past it. *)
Example to_float_examples :
  to_float (PyInt 0) = Some (S754_zero false) /\
  to_float (PyInt 2) = Some (S754_finite false 4503599627370496 (-51)) /\
  to_float (PyInt (2 ^ 1024 - 2 ^ 970 - 1))
  = Some (S754_finite false 9007199254740991 971) /\
  to_float (PyInt (2 ^ 1024 - 2 ^ 970)) = None /\
  to_float (PyInt (- 2 ^ 1024 + 2 ^ 970)) = None /\
  to_float (PyInt (10 ^ 400)) = None.
Proof. repeat split; vm_compute; reflexivity. Qed.

(** The [numelements] of the trigger table at [r]; 0 where there is no
    trigger table. *)
Definition numelements_at (s : St) (r : nat) : nat :=
  match data (fst s) !! r with
  | Some o => match obj_body o with
              | ClipTriggerArray n _ => n
              | _ => 0
              end
  | None => 0
  end.

Lemma numelements_at_finished s r :
  reachable s ->
  numelements_at s r = length (finished_triggers (triggers_at s r)).
Proof.
  intros Hr. pose proof (reachable_Inv s Hr) as (_ & _ & HC & _).
  unfold numelements_at, triggers_at.
  destruct (data (fst s) !! r) as [o|] eqn:Ho; [|reflexivity].
  specialize (HC r o Ho). unfold body_counts_ok in HC.
  destruct (obj_body o); try reflexivity. exact HC.
Qed.

(** [trigger_outcome e ev rel lt s r s']: what [add_clip_trigger] has done
    from [s] to [s'], with the result [r], for the state of the entry [e],
    the event [ev], the flag [rel] and the time [lt].  In both cases the
    state has its trigger table [c] (the one it had, or a new one made as
    the next object of the document), the event has its id, and the other
    objects, the event tables apart, are as they were.  When
    [float(localTime)] is a double, the call returns normally, the table
    has got one more trigger, the last one, and the state's generator names
    the table by its tag, and the table's [numelements] is one more.  When
    [float(localTime)] raises, so does the call: the table has got one
    more child, an unfinished one, and its [numelements] and the generator
    are as they were. *)
Definition trigger_outcome (e : StateEntry) (ev : string) (rel : bool)
  (lt : PyNum) (s : St) (r : Result unit) (s' : St) : Prop :=
  exists c id,
    trigger_table_ready e ev c id (tag_at s' c) s s' /\
    match to_float lt with
    | Some v =>
        r = Ok tt /\
        triggers_at s' c
        = triggers_at s c
          ++ [ Finished {| tr_localTime := v; tr_eventId := id;
                           tr_relativeToEndOfClip := rel |} ] /\
        numelements_at s' c = S (numelements_at s c) /\
        exists og n a t l,
          data (fst s) !! stateGenerator e = Some og /\
          obj_body og = ClipGenerator n a t l /\
          data (fst s') !! stateGenerator e
          = Some {| obj_name := obj_name og;
                    obj_body := ClipGenerator n a (tag_at s' c) l |}
    | None =>
        r = Raise OverflowError /\
        triggers_at s' c = triggers_at s c ++ [Unfinished] /\
        numelements_at s' c = numelements_at s c /\
        data (fst s') !! stateGenerator e = data (fst s) !! stateGenerator e
    end.

Lemma class_ClipGenerator b :
  class_name b = "hkbClipGenerator" -> exists n a t l, b = ClipGenerator n a t l.
Proof. destruct b; simpl; intros H; try discriminate. eauto. Qed.

Lemma add_clip_trigger_outcome x ev rel lt s e i :
  reachable s ->
  fst (for_break x (list_of_states (fst s)) None) = Some e ->
  list_of_states (fst s) !! i = Some e ->
  class_at s (stateGenerator e) "hkbClipGenerator" ->
  trigger_outcome e ev rel lt s (snd (add_clip_trigger x ev rel lt s))
    (fst (add_clip_trigger x ev rel lt s)).
Proof.
  intros Hr Hf Hi (og & Hog & Hc).
  apply class_ClipGenerator in Hc as (n & a & t & l & Hb).
  destruct (add_clip_trigger_core x ev rel lt s e i og n a t l Hr Hf Hi Hog Hb)
    as (c & id & tagc & Hready & Hm).
  exists c, id.
  assert (Htag : tag_at (fst (add_clip_trigger x ev rel lt s)) c = tagc).
  { destruct Hready as (_ & _ & _ & (oc & Hoc & Ht) & _).
    unfold tag_at. rewrite Hoc. exact Ht. }
  rewrite Htag. split; [exact Hready|].
  pose proof (reachable_step s (Add_clip_trigger x ev rel lt) Hr) as Hr'.
  cbn [exec] in Hr'.
  pose proof (numelements_at_finished _ c Hr) as Hn.
  pose proof (numelements_at_finished _ c Hr') as Hn'.
  destruct (to_float lt) as [v|]; destruct Hm as (Hres & Htr & Hg);
    rewrite Htr, finished_triggers_app, length_app in Hn'; simpl in Hn'.
  - split; [exact Hres|]. split; [exact Htr|].
    split; [rewrite Hn', Hn; lia|].
    exists og, n, a, t, l. auto.
  - split; [exact Hres|]. split; [exact Htr|].
    split; [rewrite Hn', Hn; lia|]. rewrite Hg, Hog. reflexivity.
Qed.

(** X16: for the first builder of a process, in a state it can reach
    through its API, [add_clip_trigger] for a registered state with a clip
    generator makes the state's trigger table at the first such call for
    the state, and registers the event if it is new.  Then, when
    [float(localTime)] is a double (for a [float], and for an [int] that
    rounds to a finite double, as [2^1024 - 2^970 - 1] does), it returns
    normally, having appended one trigger with the event's id, that time
    and the flag given to the table, and having made the clip generator
    name the table.  When [float(localTime)] raises [OverflowError] (for an
    [int] that rounds past the largest double, as [2^1024 - 2^970] and
    [10^400] do), so does the call, which has appended to the table an
    unfinished child (a [localTime] parameter without text and nothing
    else) and left the table's [numelements] and the clip generator as they
    were. *)
Theorem add_clip_trigger_adds_trigger x ev rel lt s i e :
  reachable s ->
  list_of_states (fst s) !! i = Some e -> stateName e = x ->
  class_at s (stateGenerator e) "hkbClipGenerator" ->
  trigger_outcome e ev rel lt s (snd (add_clip_trigger x ev rel lt s))
    (fst (add_clip_trigger x ev rel lt s)).
Proof.
  intros Hr Hi Hx Hc.
  pose proof (reachable_NoDupNames s Hr) as Hnd.
  apply (add_clip_trigger_outcome x ev rel lt s e i Hr); [|exact Hi|exact Hc].
  rewrite (for_break_entry x _ i e None Hnd Hi Hx). reflexivity.
Qed.

Lemma add_clip_trigger_adds_trigger_witness :
  clip_at one_state 6 = None /\
  (snd (add_clip_trigger "A" "step" true (PyInt 2) one_state) = Ok tt /\
   clip_at (fst (add_clip_trigger "A" "step" true (PyInt 2) one_state)) 6
   = Some 7 /\
   data (fst (fst (add_clip_trigger "A" "step" true (PyInt 2) one_state))) !! 7
   = Some {| obj_name := "#0059";
             obj_body :=
               ClipTriggerArray 1
                 [ Finished
                     {| tr_localTime :=
                          S754_finite false 4503599627370496 (-51);
                        tr_eventId := 0;
                        tr_relativeToEndOfClip := true |} ] |}) /\
  (snd (add_clip_trigger "A" "step" true (PyInt (10 ^ 400)) one_state)
   = Raise OverflowError /\
   data (fst (fst (add_clip_trigger "A" "step" true (PyInt (10 ^ 400))
                     one_state))) !! 7
   = Some {| obj_name := "#0059";
             obj_body := ClipTriggerArray 0 [Unfinished] |} /\
   data (fst (fst (add_clip_trigger "A" "step" true (PyInt (10 ^ 400))
                     one_state))) !! 5
   = data (fst one_state) !! 5).
Proof.
  assert (Hr : reachable one_state) by (eexists; reflexivity).
  assert (Hc : class_at one_state 5 "hkbClipGenerator")
    by (eexists; split; reflexivity).
  split; [reflexivity|]. split.
  - destruct (add_clip_trigger_adds_trigger "A" "step" true (PyInt 2)
                one_state 0 _ Hr eq_refl eq_refl Hc) as (c & id & _ & Hm).
    assert (Hf : to_float (PyInt 2)
                 = Some (S754_finite false 4503599627370496 (-51)))
      by (vm_compute; reflexivity).
    rewrite Hf in Hm. destruct Hm as (Hok & _).
    split; [exact Hok|]. split; vm_compute; reflexivity.
  - destruct (add_clip_trigger_adds_trigger "A" "step" true
                (PyInt (10 ^ 400)) one_state 0 _ Hr eq_refl eq_refl Hc)
      as (c & id & _ & Hm).
    assert (Hf : to_float (PyInt (10 ^ 400)) = None)
      by (vm_compute; reflexivity).
    rewrite Hf in Hm. destruct Hm as (Hraise & _ & _ & Hg).
    split; [exact Hraise|]. split; [vm_compute; reflexivity | exact Hg].
Defined.

(** X17: [add_clip_trigger] does not stop when the name is not
    registered.  For the first builder of a process, in a state it can
    reach through its API, it warns and goes on with the last state of the
    list: if that one has a clip generator, the call does to it what it
    does to a registered state, that is, it returns normally with the
    trigger added when [float(localTime)] is a double, and raises
    [OverflowError], leaving an unfinished child in the state's trigger
    table, when it is not. *)
Theorem add_clip_trigger_unknown_state x ev rel lt s e :
  reachable s -> x ∉ names_of s ->
  last (list_of_states (fst s)) = Some e ->
  class_at s (stateGenerator e) "hkbClipGenerator" ->
  trigger_outcome e ev rel lt s (snd (add_clip_trigger x ev rel lt s))
    (fst (add_clip_trigger x ev rel lt s)).
Proof.
  intros Hr Hn Hlast Hc.
  apply (add_clip_trigger_outcome x ev rel lt s e
           (pred (length (list_of_states (fst s)))) Hr);
    [| |exact Hc].
  - rewrite (for_break_miss x _ None Hn), Hlast. reflexivity.
  - rewrite <- last_lookup. exact Hlast.
Qed.

Lemma add_clip_trigger_unknown_state_witness :
  map stateName (list_of_states (fst one_state)) = ["A"] /\
  (snd (add_clip_trigger "X" "step" false (PyInt 0) one_state) = Ok tt /\
   triggers_at (fst (add_clip_trigger "X" "step" false (PyInt 0) one_state)) 7
   = [ Finished {| tr_localTime := S754_zero false; tr_eventId := 0;
                   tr_relativeToEndOfClip := false |} ]) /\
  (snd (add_clip_trigger "X" "step" false (PyInt (- 10 ^ 400)) one_state)
   = Raise OverflowError /\
   triggers_at
     (fst (add_clip_trigger "X" "step" false (PyInt (- 10 ^ 400)) one_state)) 7
   = [Unfinished]).
Proof.
  assert (Hr : reachable one_state) by (eexists; reflexivity).
  assert (Hn : "X" ∉ names_of one_state).
  { intros H. apply list_elem_of_In in H. simpl in H.
    destruct H as [H|[]]; discriminate. }
  assert (Hc : class_at one_state 5 "hkbClipGenerator")
    by (eexists; split; reflexivity).
  split; [reflexivity|]. split.
  - destruct (add_clip_trigger_unknown_state "X" "step" false (PyInt 0)
                one_state _ Hr Hn eq_refl Hc) as (c & id & _ & Hm).
    assert (Hf : to_float (PyInt 0) = Some (S754_zero false))
      by (vm_compute; reflexivity).
    rewrite Hf in Hm. destruct Hm as (Hok & _).
    split; [exact Hok|]. vm_compute. reflexivity.
  - destruct (add_clip_trigger_unknown_state "X" "step" false
                (PyInt (- 10 ^ 400)) one_state _ Hr Hn eq_refl Hc)
      as (c & id & _ & Hm).
    assert (Hf : to_float (PyInt (- 10 ^ 400)) = None)
      by (vm_compute; reflexivity).
    rewrite Hf in Hm. destruct Hm as (Hraise & _).
    split; [exact Hraise|]. vm_compute. reflexivity.
Defined.

(** X18: with no state at all, [add_clip_trigger] warns and raises on the
    loop variable that was never bound; nothing but the log changes. *)
Theorem add_clip_trigger_without_states x ev rel lt s :
  list_of_states (fst s) = [] ->
  snd (add_clip_trigger x ev rel lt s) = Raise UnboundLocalError /\
  quiet s (fst (add_clip_trigger x ev rel lt s)).
Proof.
  intros HL. unfold add_clip_trigger, bind, gets. cbn [fst snd].
  rewrite HL. cbn [for_break fst snd].
  split; [reflexivity | apply quiet_warning].
Qed.

Lemma add_clip_trigger_without_states_witness :
  snd (add_clip_trigger "A" "step" false (PyInt 0) initial)
  = Raise UnboundLocalError /\
  data (fst (fst (add_clip_trigger "A" "step" false (PyInt 0) initial)))
  = data (fst initial).
Proof.
  destruct (add_clip_trigger_without_states "A" "step" false (PyInt 0) initial
              eq_refl) as (H1 & H2 & _).
  split; [exact H1 | exact H2].
Defined.

(** ** [export] *)

Lemma export_outcome f opened s :
  reachable s ->
  snd (export f opened s) = open_result f opened /\
  exists s1,
    finalized s s1 /\
    fst (export f opened s)
    = match open_result f opened with
      | Ok _ =>
          on_process (fun p => with_files (fun l => l ++ [(f, data p)]) p) s1
      | Raise _ => s1
      end.
Proof.
  intros Hr.
  change (wp (export f opened)
            (fun r s' =>
               r = open_result f opened /\
               exists s1,
                 finalized s s1 /\
                 s' = match open_result f opened with
                      | Ok _ =>
                          on_process
                            (fun p => with_files
                                        (fun l => l ++ [(f, data p)]) p) s1
                      | Raise _ => s1
                      end) s).
  unfold export. apply wp_bind.
  eapply wp_mono; [apply finalize_spec, Hr|].
  intros r s1 (-> & HF). cbv beta iota.
  unfold prettify_and_print.
  destruct (open_result f opened) as [[]|e].
  - apply wp_modify. split; [reflexivity|]. exists s1. split; [exact HF|].
    reflexivity.
  - apply wp_raise. split; [reflexivity|]. exists s1. split; [exact HF|].
    reflexivity.
Qed.

(** The file [export] has written, if [open] has opened it. *)
Definition written (f : string) (opened : bool) (d : list hkobject)
  : list (string * list hkobject) :=
  match open_result f opened with
  | Ok _ => [(f, d)]
  | Raise _ => []
  end.

Lemma export_effect f opened s :
  reachable s ->
  let s' := fst (export f opened s) in
  snd (export f opened s) = open_result f opened /\
  data (fst s') = data (fst s) ++ finalize_objects s /\
  files (fst s') = files (fst s) ++ written f opened (data (fst s')) /\
  list_of_states (fst s') = list_of_states (fst s) /\
  event_name_list (fst s') = event_name_list (fst s) /\
  object_counter (snd s') = S (S (object_counter (snd s))).
Proof.
  intros Hr s'.
  destruct (export_outcome f opened s Hr)
    as (Hres & s1 & (HD & _ & HC & _ & _ & HL & HE & HF & _) & Hs').
  subst s'. rewrite Hs'. unfold written.
  destruct (open_result f opened) as [[]|e]; simpl;
    rewrite HD, HF, HL, HE, HC, ?app_nil_r; auto 10.
Qed.

(** X19: for the first builder of a process, in a state it can reach
    through its API, [export] appends three objects to the document: a
    state machine under the next tag, with the number of states as
    [numelements], with the tag of the wildcard table (or ["null"]), and
    with, as children, what the class-level list of children held (nothing
    before the first export) followed by the tags of the state objects; a
    behavior graph under the tag after it, which names the state machine
    and the event-metadata table ["#0054"]; and the root container, under
    the fixed tag ["#0051"], which names the behavior graph.  The state
    list and the event list are as before, and the counter has moved by
    two.  Then the file is opened: when [open] succeeds, [export] returns
    normally and the file written is the whole document; when [open]
    raises (as it does for the empty path), so does [export], which has
    written no file and leaves the three objects in the document. *)
Theorem export_appends_three_objects f opened s :
  reachable s ->
  let s' := fst (export f opened s) in
  snd (export f opened s) = open_result f opened /\
  data (fst s') = data (fst s) ++ finalize_objects s /\
  files (fst s') = files (fst s) ++ written f opened (data (fst s')) /\
  list_of_states (fst s') = list_of_states (fst s) /\
  event_name_list (fst s') = event_name_list (fst s) /\
  object_counter (snd s') = S (S (object_counter (snd s))).
Proof. exact (export_effect f opened s). Qed.

Lemma export_appends_three_objects_witness :
  length (data (fst one_state)) = 7 /\
  (snd (export "out.hkx" true one_state) = Ok tt /\
   drop 7 (data (fst (fst (export "out.hkx" true one_state))))
   = [ {| obj_name := "#0059";
          obj_body := StateMachine "defaultNameBehavior" 0 1 ["#0058"] "null" |};
       {| obj_name := "#0060";
          obj_body := BehaviorGraph "defaultNameBehavior.hkb" (Some "#0059")
                        (Some "#0054") |};
       {| obj_name := "#0051"; obj_body := RootLevelContainer "#0060" |} ] /\
   files (fst (fst (export "out.hkx" true one_state)))
   = [("out.hkx", data (fst (fst (export "out.hkx" true one_state))))]) /\
  (snd (export "" true one_state) = Raise OSError /\
   length (data (fst (fst (export "" true one_state)))) = 10 /\
   files (fst (fst (export "" true one_state))) = []).
Proof.
  assert (Hr : reachable one_state) by (eexists; reflexivity).
  split; [reflexivity|]. split.
  - destruct (export_appends_three_objects "out.hkx" true one_state Hr)
      as (Hres & _ & Hf & _).
    split; [exact Hres|]. split; [vm_compute; reflexivity | exact Hf].
  - destruct (export_appends_three_objects "" true one_state Hr)
      as (Hres & _ & Hf & _).
    split; [exact Hres|]. split; [vm_compute; reflexivity | exact Hf].
Defined.

(** X20: [export] has no guard against a second call.  For the first
    builder of a process, in a state it can reach through its API, two
    exports, whether or not their files can be opened, append six objects,
    two of them root containers under the same tag ["#0051"]: the tags of
    the document are not unique any more. *)
Theorem export_twice_duplicates_root f g opened opened' s :
  reachable s ->
  let s1 := fst (export f opened s) in
  let s2 := fst (export g opened' s1) in
  data (fst s2) = data (fst s) ++ finalize_objects s ++ finalize_objects s1 /\
  ~ NoDup (map obj_name (data (fst s2))).
Proof.
  intros Hr s1 s2.
  destruct (export_effect f opened s Hr) as (_ & HD1 & _).
  fold s1 in HD1.
  assert (Hr1 : reachable s1) by exact (reachable_step s (Export f opened) Hr).
  destruct (export_effect g opened' s1 Hr1) as (_ & HD2 & _).
  fold s2 in HD2.
  split; [rewrite HD2, HD1, <- app_assoc; reflexivity|].
  rewrite HD2, HD1. unfold finalize_objects.
  rewrite !map_app. cbn [map obj_name].
  intros Hnd. apply NoDup_app in Hnd as (Hnd1 & Hdisj & _).
  apply (Hdisj "#0051").
  - apply elem_of_app. right. do 2 apply list_elem_of_further.
    apply list_elem_of_here.
  - do 2 apply list_elem_of_further. apply list_elem_of_here.
Qed.

Lemma export_twice_duplicates_root_witness :
  map obj_name
    (data (fst (fst (export "b.hkx" true
                       (fst (export "a.hkx" true one_state))))))
  = ["#0052"; "#0053"; "#0054"; "#0055"; "#0056"; "#0057"; "#0058";
     "#0059"; "#0060"; "#0051"; "#0061"; "#0062"; "#0051"] /\
  data (fst (fst (export "b.hkx" true (fst (export "" true one_state)))))
  = data (fst one_state) ++ finalize_objects one_state
    ++ finalize_objects (fst (export "" true one_state)).
Proof.
  assert (Hr : reachable one_state) by (eexists; reflexivity).
  split; [vm_compute; reflexivity|].
  destruct (export_twice_duplicates_root "" "b.hkx" true true one_state Hr)
    as (Hd & _).
  exact Hd.
Defined.

(** ** Before the first export *)

(** Until [export] is called, the tags of the document are the tags the
    builder has issued, and the state machine's class-level list of
    children is empty. *)
Definition BuiltInv (s : St) : Prop :=
  map obj_name (data (fst s)) = issued (snd s) /\
  hkbStateMachine_list_of_states (fst s) = [].

Ltac BuiltInv_establish :=
  idtac;
  match goal with
  | H : BuiltInv _ |- BuiltInv _ =>
      let H1 := fresh "H" in
      let H2 := fresh "H" in
      destruct H as [H1 H2]; split;
      [ first [ rewrite put_names; exact H1
              | simpl; rewrite map_app, H1; reflexivity
              | exact H1 ]
      | exact H2 ]
  end.

Lemma BuiltInv_getOrCreateEventID_rec fuel self ev :
  preserves BuiltInv
    (hkbBehaviorGraphStringData.getOrCreateEventID_rec fuel self ev).
Proof.
  revert self ev. induction fuel as [|fuel IH]; intros self ev;
    apply preserves_wp; intros s HI; simpl.
  - apply wp_raise. exact HI.
  - wp_keep BuiltInv ltac:(apply IH) BuiltInv_establish.
Qed.

Lemma BuiltInv_mutation o :
  is_mutation o = true -> preserves BuiltInv (exec o).
Proof.
  intros Ho. apply preserves_wp. intros s HI.
  destruct o; [| | | |discriminate]; simpl;
    wp_keep BuiltInv ltac:(apply BuiltInv_getOrCreateEventID_rec)
      BuiltInv_establish.
Qed.

Lemma built_BuiltInv s : built s -> BuiltInv s.
Proof.
  apply built_ind'; [split; reflexivity|].
  intros s0 o _ Ho H. apply BuiltInv_mutation; assumption.
Qed.

Lemma built_tags s :
  built s ->
  map obj_name (data (fst s))
  = map format_tag (seq 52 (length (data (fst s)))).
Proof.
  intros Hb. destruct (built_BuiltInv s Hb) as [Ht _].
  destruct (reachable_issued s (built_reachable s Hb)) as (n & _ & Hi).
  rewrite Hi in Ht.
  assert (Hn : length (data (fst s)) = n).
  { rewrite <- (length_map obj_name), Ht, length_map, length_seq.
    reflexivity. }
  rewrite Hn. exact Ht.
Qed.

(** X21: for the first builder of a process (no other [BehaviorFile] has
    been created in it), until [export] is called, the objects of the
    document carry the tags ["#0052"], ["#0053"], ... in the order of the
    document, without a gap: the object at position [i] has the tag of
    [52 + i].  (A later builder of the process starts again from
    ["#0052"] in the same document.) *)
Theorem tags_follow_the_document s :
  built s ->
  map obj_name (data (fst s))
  = map format_tag (seq 52 (length (data (fst s)))).
Proof. exact (built_tags s). Qed.

Lemma tags_follow_the_document_witness :
  map obj_name (data (fst two_states))
  = ["#0052"; "#0053"; "#0054"; "#0055"; "#0056"; "#0057"; "#0058"; "#0059";
     "#0060"; "#0061"] /\
  map obj_name (data (fst two_states))
  = map format_tag (seq 52 (length (data (fst two_states)))).
Proof.
  split; [reflexivity|].
  apply (tags_follow_the_document two_states).
  eexists. split; [|reflexivity]. reflexivity.
Defined.

(** X22: for the first builder of a process (no other [BehaviorFile] has
    been created in it), the first [export] leaves a document in which no
    tag occurs twice, whether or not the file can be opened; when it can,
    this document is the file written. *)
Theorem first_export_has_unique_tags f opened s :
  built s ->
  let s' := fst (export f opened s) in
  NoDup (map obj_name (data (fst s'))) /\
  files (fst s') = files (fst s) ++ written f opened (data (fst s')).
Proof.
  intros Hb s'. pose proof (built_reachable s Hb) as Hr.
  destruct (export_effect f opened s Hr) as (_ & HD & HW & _).
  fold s' in HD, HW. split; [|exact HW].
  rewrite HD, map_app, (built_tags s Hb).
  destruct (built_BuiltInv s Hb) as [Ht _].
  destruct (reachable_issued s Hr) as (n & Hc & Hi).
  assert (Hn : length (data (fst s)) = n).
  { rewrite <- (length_map obj_name), Ht, Hi, length_map, length_seq.
    reflexivity. }
  rewrite Hn. unfold finalize_objects. cbn [map obj_name]. rewrite Hc.
  change "#0051" with (format_tag 51).
  replace (map format_tag (seq 52 n)
           ++ [format_tag (S (51 + n)); format_tag (S (S (51 + n)));
               format_tag 51])
    with (map format_tag (seq 52 n ++ [S (51 + n); S (S (51 + n)); 51]))
    by (rewrite map_app; reflexivity).
  apply NoDup_fmap_2; [intros x y; apply format_tag_inj|].
  apply NoDup_app. split; [apply NoDup_seq|].
  split.
  - intros x Hx Hx'. apply elem_of_seq in Hx.
    repeat (apply elem_of_cons in Hx' as [Hx'|Hx']; [lia|]).
    inversion Hx'.
  - repeat (apply NoDup_cons; split;
            [intros Hx; repeat (apply elem_of_cons in Hx as [Hx|Hx]; [lia|]);
             inversion Hx|]).
    apply NoDup_nil_2.
Qed.

Lemma first_export_has_unique_tags_witness :
  map obj_name (data (fst (fst (export "out.hkx" true one_state))))
  = ["#0052"; "#0053"; "#0054"; "#0055"; "#0056"; "#0057"; "#0058";
     "#0059"; "#0060"; "#0051"] /\
  NoDup (map obj_name (data (fst (fst (export "out.hkx" true one_state))))) /\
  files (fst (fst (export "out.hkx" true one_state)))
  = files (fst one_state)
    ++ written "out.hkx" true
         (data (fst (fst (export "out.hkx" true one_state)))).
Proof.
  split; [vm_compute; reflexivity|].
  apply (first_export_has_unique_tags "out.hkx" true one_state).
  eexists. split; [|reflexivity]. reflexivity.
Defined.

(** X23: the list of children of the state machine is a class attribute
    that [export] never empties.  When a builder with at least one state is
    exported a second time, the second state machine has the number of
    states as [numelements] but names every state object twice. *)
Theorem second_export_lists_states_twice f g opened opened' s :
  built s -> list_of_states (fst s) <> [] ->
  let s1 := fst (export f opened s) in
  let s2 := fst (export g opened' s1) in
  let T := map (fun e => tag_at s (stateInfo e)) (list_of_states (fst s)) in
  exists t w,
    data (fst s2) !! length (data (fst s1))
    = Some {| obj_name := t;
              obj_body := StateMachine "defaultNameBehavior" 0
                            (length (list_of_states (fst s))) (T ++ T) w |}.
Proof.
  intros Hb Hne s1 s2 T.
  pose proof (built_reachable s Hb) as Hr.
  destruct (built_BuiltInv s Hb) as [_ Hsm].
  pose proof (reachable_Inv s Hr) as (_ & _ & _ & _ & _ & [_ Hes]).
  destruct (export_outcome f opened s Hr)
    as (_ & s1' & (HD & HS & _ & _ & _ & HL & _) & Hs1).
  fold s1 in Hs1.
  assert (D1 : data (fst s1) = data (fst s) ++ finalize_objects s)
    by (rewrite Hs1; destruct (open_result f opened); exact HD).
  assert (S1 : hkbStateMachine_list_of_states (fst s1) = T)
    by (rewrite Hs1; destruct (open_result f opened); simpl;
        rewrite HS, Hsm; reflexivity).
  assert (L1 : list_of_states (fst s1) = list_of_states (fst s))
    by (rewrite Hs1; destruct (open_result f opened); exact HL).
  assert (Hr1 : reachable s1) by exact (reachable_step s (Export f opened) Hr).
  destruct (export_effect g opened' s1 Hr1) as (_ & HD2 & _).
  fold s2 in HD2.
  assert (HT : map (fun e => tag_at s1 (stateInfo e)) (list_of_states (fst s))
               = T).
  { apply map_ext_in. intros e He. unfold tag_at. rewrite D1.
    apply list_elem_of_In, list_elem_of_lookup in He as [i Hi].
    destruct (Hes i e Hi) as (ts & tt & tg & en & ex & G
                              & (o & Ho & _) & _).
    rewrite (lookup_app_l_Some _ _ _ _ Ho), Ho. reflexivity. }
  eexists _, _. rewrite HD2. unfold finalize_objects.
  rewrite list_lookup_middle by reflexivity.
  rewrite L1, S1, HT.
  destruct (list_of_states (fst s)); [contradiction|]. reflexivity.
Qed.

Lemma second_export_lists_states_twice_witness :
  length (data (fst (fst (export "a.hkx" true one_state)))) = 10 /\
  data (fst (fst (export "b.hkx" true
                    (fst (export "a.hkx" true one_state))))) !! 10
  = Some {| obj_name := "#0061";
            obj_body := StateMachine "defaultNameBehavior" 0 1
                          ["#0058"; "#0058"] "null" |}.
Proof.
  assert (Hb : built one_state).
  { eexists. split; [|reflexivity]. reflexivity. }
  assert (Hne : list_of_states (fst one_state) <> []) by discriminate.
  destruct (second_export_lists_states_twice "a.hkx" "b.hkx" true true
              one_state Hb Hne)
    as (t & w & H).
  split; vm_compute; reflexivity.
Defined.

(** ** A second builder *)

Lemma new_BehaviorFile_effect (p : Process) :
  snd (new_BehaviorFile p) = Ok tt /\
  data (fst (fst (new_BehaviorFile p)))
  = data p
    ++ [ {| obj_name := "#0052"; obj_body := StringData 0 [] |};
         {| obj_name := "#0053"; obj_body := VariableValueSet |};
         {| obj_name := "#0054";
            obj_body := GraphData 0 [] "#0053" "#0052" |};
         {| obj_name := "#0055";
            obj_body := BlendingTransitionEffect "ZeroDuration" |} ] /\
  list_of_states (fst (fst (new_BehaviorFile p))) = list_of_states p /\
  event_name_list (fst (fst (new_BehaviorFile p))) = event_name_list p /\
  object_counter (snd (fst (new_BehaviorFile p))) = 55.
Proof.
  change (wp __init__
            (fun r s' =>
               r = Ok tt /\
               data (fst s')
               = data p
                 ++ [ {| obj_name := "#0052"; obj_body := StringData 0 [] |};
                      {| obj_name := "#0053"; obj_body := VariableValueSet |};
                      {| obj_name := "#0054";
                         obj_body := GraphData 0 [] "#0053" "#0052" |};
                      {| obj_name := "#0055";
                         obj_body := BlendingTransitionEffect "ZeroDuration" |} ] /\
               list_of_states (fst s') = list_of_states p /\
               event_name_list (fst s') = event_name_list p /\
               object_counter (snd s') = 55) (p, class_attributes)).
  unfold __init__.
  apply wp_bind. unfold hkbBehaviorGraphStringData.__init__.
  apply wp_new_hkobject. cbv beta iota.
  apply wp_bind, wp_modify. cbv beta iota.
  apply wp_bind. unfold hkbVariableValueSet.__init__.
  apply wp_new_hkobject. cbv beta iota.
  apply wp_bind, wp_modify. cbv beta iota.
  apply wp_bind. unfold hkbBehaviorGraphData.__init__.
  apply wp_bind, wp_attr; [|discriminate].
  intros vvs Hvvs. injection Hvvs as <-.
  apply wp_bind. eapply wp_tag_of_known.
  { simpl. apply list_lookup_middle. reflexivity. }
  cbv beta iota.
  apply wp_bind, wp_attr; [|discriminate].
  intros sd Hsd. injection Hsd as <-.
  apply wp_bind. eapply wp_tag_of_known.
  { simpl. rewrite <- app_assoc. apply list_lookup_middle. reflexivity. }
  cbv beta iota.
  apply wp_new_hkobject. cbv beta iota.
  apply wp_bind, wp_modify. cbv beta iota.
  apply wp_bind. unfold hkbBlendingTransitionEffect.__init__.
  apply wp_new_hkobject. cbv beta iota.
  apply wp_modify.
  split; [reflexivity|]. simpl. rewrite <- !app_assoc. auto.
Qed.

(** X24: [BehaviorFile()] starts its counter from the class attribute,
    whatever the shared document holds: it returns normally and appends
    four objects under the tags ["#0052"] to ["#0055"], the last of them
    naming ["#0053"] and ["#0052"].  The state list and the event list,
    which are shared too, are left as they are. *)
Theorem new_builder_reuses_first_tags (p : Process) :
  snd (new_BehaviorFile p) = Ok tt /\
  data (fst (fst (new_BehaviorFile p)))
  = data p
    ++ [ {| obj_name := "#0052"; obj_body := StringData 0 [] |};
         {| obj_name := "#0053"; obj_body := VariableValueSet |};
         {| obj_name := "#0054";
            obj_body := GraphData 0 [] "#0053" "#0052" |};
         {| obj_name := "#0055";
            obj_body := BlendingTransitionEffect "ZeroDuration" |} ] /\
  list_of_states (fst (fst (new_BehaviorFile p))) = list_of_states p /\
  event_name_list (fst (fst (new_BehaviorFile p))) = event_name_list p /\
  object_counter (snd (fst (new_BehaviorFile p))) = 55.
Proof. exact (new_BehaviorFile_effect p). Qed.

(** X25: so a builder made in a process in which another one has been at
    work writes into a document that already has its tags: from then on
    the tags of the shared document are not unique. *)
Theorem second_builder_duplicates_tags s :
  reachable s ->
  ~ NoDup (map obj_name (data (fst (fst (new_BehaviorFile (fst s)))))).
Proof.
  intros [ops ->] Hnd.
  destruct (new_BehaviorFile_effect (fst (run ops initial)))
    as (_ & HD & _).
  rewrite HD, map_app in Hnd. apply NoDup_app in Hnd as (_ & Hdisj & _).
  apply (Hdisj "#0052"); [|apply list_elem_of_here].
  destruct (ext_run ops initial) as [He _].
  destruct (He 0 _ eq_refl) as (o & Ho & Hn & _).
  apply list_elem_of_fmap. exists o. split; [symmetry; exact Hn|].
  eapply list_elem_of_lookup_2, Ho.
Qed.

Lemma second_builder_duplicates_tags_witness :
  map obj_name (data (fst (fst (new_BehaviorFile (fst initial)))))
  = ["#0052"; "#0053"; "#0054"; "#0055"; "#0052"; "#0053"; "#0054"; "#0055"] /\
  ~ NoDup (map obj_name (data (fst (fst (new_BehaviorFile (fst initial)))))).
Proof.
  split; [reflexivity|].
  apply (second_builder_duplicates_tags initial). exists []. reflexivity.
Defined.

(** The first builder of a process once it has connected two states on the
    event ["x"] and has been exported. *)
Definition exported_builder : St :=
  run [Add_state "A" "animations\a.hkx" false false (NStr "null")
         (NStr "null");
       Add_state "B" "animations\b.hkx" false false (NStr "null")
         (NStr "null");
       Connect_states "A" "B" "x";
       Export "a.hkx" true] initial.

(** The builder made in the same process for the next export. *)
Definition later_builder : St :=
  fst (new_BehaviorFile (fst exported_builder)).

(** C10: the ids are not dense for a builder that is not the first of its
    process.  [event_name_list] is an attribute of the class, which all
    builders share, while [nEvents] and the [eventNames] element are the
    builder's own.  Once a first builder has registered ["x"], a later
    builder, whose event tables are empty, gets the id 1 for its first new
    name ["y"], which then is at index 0 of its [eventNames], with
    [numelements] 1; and it gets the id 0 for ["x"], a name that is not
    added to its [eventNames].  So the transition that
    [connect_states("C", "D", "y")] adds through the later builder carries
    the event id 1, an index its [eventNames] does not have. *)
Theorem later_builder_event_ids :
  event_name_list (fst later_builder) = ["x"] /\
  event_tables later_builder [] [] /\
  snd (getOrCreateEventID "y" later_builder) = Ok 1 /\
  event_tables (fst (getOrCreateEventID "y" later_builder)) ["y"] [0%Z] /\
  snd (getOrCreateEventID "x" later_builder) = Ok 0 /\
  event_tables (fst (getOrCreateEventID "x" later_builder)) [] [] /\
  let s := run [Add_state "C" "animations\c.hkx" false false (NStr "null")
                  (NStr "null");
                Add_state "D" "animations\d.hkx" false false (NStr "null")
                  (NStr "null");
                Connect_states "C" "D" "y"] later_builder in
  event_tables s ["y"] [0%Z] /\
  exists e,
    list_of_states (fst s) !! 2 = Some e /\ stateName e = "C" /\
    map t_eventId (transitions_at s (stateTransitions e)) = [1].
Proof.
  split; [vm_compute; reflexivity|].
  split; [exists 13, 15, "#0052", "#0054", "#0053", "#0052";
          repeat split; vm_compute; reflexivity|].
  split; [vm_compute; reflexivity|].
  split; [exists 13, 15, "#0052", "#0054", "#0053", "#0052";
          repeat split; vm_compute; reflexivity|].
  split; [vm_compute; reflexivity|].
  split; [exists 13, 15, "#0052", "#0054", "#0053", "#0052";
          repeat split; vm_compute; reflexivity|].
  intros s.
  split; [exists 13, 15, "#0052", "#0054", "#0053", "#0052";
          repeat split; vm_compute; reflexivity|].
  exists {| stateInfo := 19; stateGenerator := 18; stateTransitions := 17; stateName := "C" |}.
  split; [vm_compute; reflexivity|].
  split; vm_compute; reflexivity.
Qed.

(** ** Event ids *)

Lemma first_index_app_old x l k i :
  x ∈ l ->
  hkbBehaviorGraphStringData.first_index x (l ++ k) i
  = hkbBehaviorGraphStringData.first_index x l i.
Proof.
  revert i. induction l as [|y l IH]; intros i Hin; [inversion Hin|].
  simpl. destruct (String.eqb y x) eqn:E; [reflexivity|].
  apply String.eqb_neq in E.
  apply elem_of_cons in Hin as [Hin|Hin]; [congruence|]. apply IH, Hin.
Qed.

(** The event list only grows, at its end. *)
Definition events_extend (E : list string) (s : St) : Prop :=
  E `prefix_of` event_name_list (fst s).

Ltac events_establish :=
  idtac;
  match goal with
  | H : events_extend _ _ |- events_extend _ _ =>
      unfold events_extend in *; simpl;
      first [ exact H | etrans; [exact H | apply prefix_app_r; reflexivity] ]
  end.

Lemma events_extend_getOrCreateEventID_rec E fuel self ev :
  preserves (events_extend E)
    (hkbBehaviorGraphStringData.getOrCreateEventID_rec fuel self ev).
Proof.
  revert self ev. induction fuel as [|fuel IH]; intros self ev;
    apply preserves_wp; intros s HI; simpl.
  - apply wp_raise. exact HI.
  - wp_keep (events_extend E) ltac:(apply IH) events_establish.
Qed.

Lemma events_extend_exec E o : preserves (events_extend E) (exec o).
Proof.
  apply preserves_wp. intros s HI.
  destruct o; simpl;
    wp_keep (events_extend E)
      ltac:(apply events_extend_getOrCreateEventID_rec) events_establish.
Qed.

Lemma getOrCreateEventID_known ev s :
  reachable s -> ev ∈ event_name_list (fst s) ->
  exists id,
    getOrCreateEventID ev s = (s, Ok id) /\
    hkbBehaviorGraphStringData.first_index ev (event_name_list (fst s)) 0
    = Some id.
Proof.
  intros Hr Hin.
  destruct (reachable_EvInv s Hr) as (names & infos & Ht & Hl & He).
  destruct (getOrCreateEventID_outcome ev s names infos Ht Hl He)
    as (id & names1 & infos1 & Hid & _ & _ & He1 & Hf & Hsame & _).
  rewrite He in Hin. specialize (Hsame Hin).
  exists id. split.
  - destruct (getOrCreateEventID ev s) as [s' r]. simpl in *. congruence.
  - rewrite Hsame in He1. rewrite He1. exact Hf.
Qed.

(** X26: the id of an event never changes.  In a state a builder can
    reach, a registered event has the same id before and after any call of
    the builder. *)
Theorem event_ids_are_stable ev o s :
  reachable s -> ev ∈ event_name_list (fst s) ->
  snd (getOrCreateEventID ev (fst (exec o s)))
  = snd (getOrCreateEventID ev s).
Proof.
  intros Hr Hin.
  destruct (getOrCreateEventID_known ev s Hr Hin) as (id & E & Hf).
  pose proof (events_extend_exec (event_name_list (fst s)) o s
                (reflexivity _)) as [k Hk].
  assert (Hin' : ev ∈ event_name_list (fst (fst (exec o s)))).
  { rewrite Hk. apply elem_of_app. left. exact Hin. }
  destruct (getOrCreateEventID_known ev _ (reachable_step s o Hr) Hin')
    as (id' & E' & Hf').
  rewrite E, E'. simpl. f_equal.
  rewrite Hk, first_index_app_old in Hf' by exact Hin. congruence.
Qed.

Lemma event_ids_are_stable_witness :
  let s := run [Add_state "A" "animations\a.hkx" false false (NStr "null")
                  (NStr "null");
                Add_state "B" "animations\b.hkx" false false (NStr "null")
                  (NStr "null");
                Connect_states "A" "B" "go"] initial in
  event_name_list (fst s) = ["go"] /\
  snd (getOrCreateEventID "go"
         (fst (exec (Connect_states "B" "A" "back") s)))
  = snd (getOrCreateEventID "go" s).
Proof.
  intros s. split; [reflexivity|].
  apply (event_ids_are_stable "go" (Connect_states "B" "A" "back") s).
  - eexists. reflexivity.
  - apply list_elem_of_here.
Defined.

(** X27: two different events never get the same id. *)
Theorem distinct_events_distinct_ids ev1 ev2 s :
  reachable s -> ev1 <> ev2 ->
  exists i1 i2,
    snd (getOrCreateEventID ev1 s) = Ok i1 /\
    snd (getOrCreateEventID ev2 (fst (getOrCreateEventID ev1 s))) = Ok i2 /\
    i1 <> i2.
Proof.
  intros Hr Hne.
  destruct (reachable_EvInv s Hr) as (names & infos & Ht & Hl & He).
  destruct (getOrCreateEventID_outcome ev1 s names infos Ht Hl He)
    as (i1 & names1 & infos1 & Hid1 & Ht1 & Hl1 & He1 & Hf1 & _ & _).
  destruct (getOrCreateEventID_outcome ev2 _ names1 infos1 Ht1 Hl1 He1)
    as (i2 & names2 & infos2 & Hid2 & _ & _ & He2 & Hf2 & Hsame & Hnew).
  exists i1, i2. split; [exact Hid1|]. split; [exact Hid2|].
  apply first_index_Some in Hf1 as (_ & Hk1 & _).
  apply first_index_Some in Hf2 as (_ & Hk2 & _).
  rewrite Nat.sub_0_r in *.
  intros <-.
  assert (Hk1' : names2 !! i1 = Some ev1).
  { destruct (existsb (String.eqb ev2) names1) eqn:Hex.
    - apply existsb_eqb_elem_of in Hex.
      rewrite (Hsame Hex), He1 in He2. subst names2. exact Hk1.
    - assert (Hn : ev2 ∉ names1).
      { intros Hin. apply existsb_eqb_elem_of in Hin. congruence. }
      destruct (Hnew Hn) as (_ & -> & _).
      apply lookup_app_l_Some, Hk1. }
  congruence.
Qed.

Lemma distinct_events_distinct_ids_witness :
  exists i1 i2,
    snd (getOrCreateEventID "go" initial) = Ok i1 /\
    snd (getOrCreateEventID "stop" (fst (getOrCreateEventID "go" initial)))
    = Ok i2 /\
    i1 <> i2.
Proof.
  apply (distinct_events_distinct_ids "go" "stop" initial).
  - exists []. reflexivity.
  - discriminate.
Defined.

(** X28: [get_eventID] for a name that is not registered raises and
    changes nothing; it registers nothing. *)
Theorem get_eventID_unknown_raises ev s :
  ev ∉ event_name_list (fst s) ->
  hkbBehaviorGraphStringData.get_eventID ev s = (s, Raise TypeError).
Proof.
  intros Hn. unfold hkbBehaviorGraphStringData.get_eventID, bind, gets.
  cbn [fst snd].
  rewrite (proj2 (first_index_None ev (event_name_list (fst s)) 0) Hn).
  reflexivity.
Qed.

Lemma get_eventID_unknown_raises_witness :
  event_name_list (fst one_state) = [] /\
  hkbBehaviorGraphStringData.get_eventID "go" one_state
  = (one_state, Raise TypeError).
Proof.
  split; [reflexivity|].
  apply (get_eventID_unknown_raises "go" one_state). apply not_elem_of_nil.
Defined.

(** * Pretty printing *)

(** An element of an [xml.etree.ElementTree] tree: its tag, its
    attributes, its text (before the first child), its tail (after its end
    tag) and its children. *)
#[warnings="-register-all"]
Inductive Element :=
| Node (tag : string) (attrib : list (string * string))
       (text tail : option string) (children : list Element).

Definition tail_of (e : Element) : option string :=
  match e with Node _ _ _ tl _ => tl end.

Definition text_of (e : Element) : option string :=
  match e with Node _ _ tx _ _ => tx end.

Definition children_of (e : Element) : list Element :=
  match e with Node _ _ _ _ cs => cs end.

Definition set_tail (tl : string) (e : Element) : Element :=
  match e with Node tg at_ tx _ cs => Node tg at_ tx (Some tl) cs end.

(** ['\t' * n] *)
Fixpoint tabs (n : nat) : string :=
  match n with
  | O => ""
  | S n' => String (ascii_of_nat 9) (tabs n')
  end.

(** ['\n' + ('\t' * n)] *)
Definition indent (n : nat) : string := String (ascii_of_nat 10) (tabs n).

(** The tails of the children of a node at depth [depth], once every
    child has been visited: each child but the last one has got its tail
    from the visit of the next one, the last one from its own visit. *)
Fixpoint set_tails (depth : nat) (cs : list Element) : list Element :=
  match cs with
  | [] => []
  | [c] => [set_tail (indent depth) c]
  | c :: cs' => set_tail (indent (S depth)) c :: set_tails depth cs'
  end.

(** [_pretty_print(current, parent, index, depth)], as what it does to
    [current] and below: the children are visited in order, at
    [depth + 1]; the visit of the first one sets the text of [current].
    The tail of [current] itself belongs to the visit by its parent. *)
Fixpoint _pretty_print (depth : nat) (current : Element) : Element :=
  match current with
  | Node tg at_ tx tl cs =>
      Node tg at_
        (match cs with
         | [] => tx
         | _ => Some (indent (S depth))
         end)
        tl
        (set_tails depth (map (_pretty_print (S depth)) cs))
  end.

(** What pretty printing must not touch: tags, attributes, the shape of
    the tree and the text of the elements without children. *)
Fixpoint content (e : Element) : Element :=
  match e with
  | Node tg at_ tx _ cs =>
      Node tg at_ (match cs with [] => tx | _ => None end) None
        (map content cs)
  end.

Lemma Element_ind' (P : Element -> Prop) :
  (forall tg at_ tx tl cs, Forall P cs -> P (Node tg at_ tx tl cs)) ->
  forall e, P e.
Proof.
  intros H. fix IH 1. intros [tg at_ tx tl cs]. apply H.
  induction cs as [|c cs IHcs]; constructor; [apply IH | exact IHcs].
Qed.

Lemma set_tails_length depth cs : length (set_tails depth cs) = length cs.
Proof.
  induction cs as [|c [|c' cs] IH]; [reflexivity|reflexivity|].
  change (S (length (set_tails depth (c' :: cs))) = S (length (c' :: cs))).
  rewrite IH. reflexivity.
Qed.

Lemma content_set_tail tl e : content (set_tail tl e) = content e.
Proof. destruct e. reflexivity. Qed.

Lemma map_content_set_tails depth cs :
  map content (set_tails depth cs) = map content cs.
Proof.
  induction cs as [|c [|c' cs] IH]; [reflexivity| |].
  - simpl. rewrite content_set_tail. reflexivity.
  - change (content (set_tail (indent (S depth)) c)
            :: map content (set_tails depth (c' :: cs))
            = content c :: map content (c' :: cs)).
    rewrite IH, content_set_tail. reflexivity.
Qed.

Lemma set_tails_nil depth cs : set_tails depth cs = [] -> cs = [].
Proof.
  intros H. apply (f_equal length) in H. rewrite set_tails_length in H.
  destruct cs; [reflexivity | discriminate].
Qed.

(** X29: [_pretty_print] changes only white space: the tags, the
    attributes, the shape of the tree and the text of every element without
    children are what they were.  (The text of an element with children is
    replaced.) *)
Theorem pretty_print_keeps_content depth e :
  content (_pretty_print depth e) = content e.
Proof.
  revert depth. induction e as [tg at_ tx tl cs IH] using Element_ind'.
  intros depth. cbn [_pretty_print content].
  rewrite map_content_set_tails, map_map.
  f_equal.
  - destruct cs as [|c cs]; [reflexivity|].
    destruct (set_tails depth (map (_pretty_print (S depth)) (c :: cs))) eqn:E;
      [|reflexivity].
    apply set_tails_nil in E. discriminate.
  - apply map_ext_Forall. eapply Forall_impl; [exact IH|].
    intros c Hc. apply Hc.
Qed.

Lemma pretty_set_tail depth tl e :
  _pretty_print depth (set_tail tl e) = set_tail tl (_pretty_print depth e).
Proof. destruct e. reflexivity. Qed.

Lemma set_tail_set_tail tl tl' e : set_tail tl (set_tail tl' e) = set_tail tl e.
Proof. destruct e. reflexivity. Qed.

Lemma map_pretty_set_tails d depth cs :
  map (_pretty_print d) (set_tails depth cs)
  = set_tails depth (map (_pretty_print d) cs).
Proof.
  induction cs as [|c [|c' cs] IH]; [reflexivity| |].
  - simpl. rewrite pretty_set_tail. reflexivity.
  - change (_pretty_print d (set_tail (indent (S depth)) c)
            :: map (_pretty_print d) (set_tails depth (c' :: cs))
            = set_tail (indent (S depth)) (_pretty_print d c)
              :: set_tails depth (map (_pretty_print d) (c' :: cs))).
    rewrite IH, pretty_set_tail. reflexivity.
Qed.

Lemma set_tails_idem depth cs :
  set_tails depth (set_tails depth cs) = set_tails depth cs.
Proof.
  induction cs as [|c [|c' cs] IH]; [reflexivity| |].
  - simpl. rewrite set_tail_set_tail. reflexivity.
  - change (set_tails depth (c :: c' :: cs))
      with (set_tail (indent (S depth)) c :: set_tails depth (c' :: cs)).
    destruct (set_tails depth (c' :: cs)) as [|d ds] eqn:E.
    { apply set_tails_nil in E. discriminate. }
    change (set_tail (indent (S depth)) (set_tail (indent (S depth)) c)
            :: set_tails depth (d :: ds)
            = set_tail (indent (S depth)) c :: d :: ds).
    rewrite set_tail_set_tail, IH. reflexivity.
Qed.

(** X30: pretty printing a tree that has been pretty printed changes
    nothing. *)
Theorem pretty_print_idempotent depth e :
  _pretty_print depth (_pretty_print depth e) = _pretty_print depth e.
Proof.
  revert depth. induction e as [tg at_ tx tl cs IH] using Element_ind'.
  intros depth. cbn [_pretty_print].
  f_equal.
  - destruct cs as [|c cs]; [reflexivity|].
    destruct (set_tails depth (map (_pretty_print (S depth)) (c :: cs))) eqn:E;
      [|reflexivity].
    apply set_tails_nil in E. discriminate.
  - rewrite map_pretty_set_tails, set_tails_idem, map_map. f_equal.
    apply map_ext_Forall. eapply Forall_impl; [exact IH|].
    intros c Hc. apply Hc.
Qed.
